(** * whatwg_url.parser: a shallow embedding of the URL parser and serializer

    The development follows [src/whatwg_url/parser.py].  Python strings are
    sequences of Unicode code points, so a [str] is a list of integers; byte
    strings are lists of integers below 256.  The parser object is an
    explicit record that every state handler threads through; the three ways
    a handler can leave (falling off its end, [_UrlParserReturn],
    [UrlParserError]) and an uncaught Python exception are the constructors
    of [signal]. *)

From Stdlib Require Import String Ascii DecimalString.
From Stdlib Require Import ZArith List Bool Lia.
Import ListNotations.
Local Open Scope Z_scope.

(** ** Strings and code points *)

Definition codepoint := Z.
Definition str := list codepoint.
Definition bytes := list Z.

(** A handler argument [c] is a string holding one code point, or the empty
    string at the end of the input. *)
Definition pychar := option codepoint.

Definition lit (s : string) : str :=
  map (fun a => Z.of_N (N_of_ascii a)) (list_ascii_of_string s).

Definition cstr (c : pychar) : str :=
  match c with Some x => [x] | None => [] end.

Fixpoint str_eqb (a b : str) : bool :=
  match a, b with
  | [], [] => true
  | x :: a', y :: b' => (x =? y) && str_eqb a' b'
  | _, _ => false
  end.

(** [c == "..."] *)
Definition is_c (c : pychar) (s : string) : bool := str_eqb (cstr c) (lit s).

(** [o == "..."] for an attribute that may be [None]. *)
Definition opt_is (o : option str) (s : string) : bool :=
  match o with Some v => str_eqb v (lit s) | None => false end.

Definition opt_str_eqb (a b : option str) : bool :=
  match a, b with
  | Some x, Some y => str_eqb x y
  | None, None => true
  | _, _ => false
  end.

(** [x in S] for a set of code points. *)
Definition mem (x : codepoint) (S : list codepoint) : bool :=
  existsb (Z.eqb x) S.

(** [c in S] where [S] is a set of one-character strings. *)
Definition cin (c : pychar) (S : list codepoint) : bool :=
  match c with Some x => mem x S | None => false end.

(** [c in S] where [S] is a set of strings. *)
Definition str_in (s : str) (S : list str) : bool := existsb (str_eqb s) S.

Fixpoint startswith (s pre : str) : bool :=
  match pre, s with
  | [], _ => true
  | y :: pre', x :: s' => (x =? y) && startswith s' pre'
  | _ :: _, [] => false
  end.

Definition endswith (s suf : str) : bool := startswith (rev s) (rev suf).

(** [bool(o)] for an optional string. *)
Definition truthy (o : option str) : bool :=
  match o with Some (_ :: _) => true | _ => false end.

(** ** Module constants *)

Definition ASCII_ALPHA : list codepoint :=
  lit "abcdefghijklmnopqrstuvwxyzABCDEFGHIJKLMNOPQRSTUVWXYZ".
Definition ASCII_DIGITS : list codepoint := lit "0123456789".
Definition ASCII_ALPHANUMERIC : list codepoint := ASCII_ALPHA ++ ASCII_DIGITS.
Definition URL_CODEPOINTS : list codepoint :=
  ASCII_ALPHANUMERIC ++ lit "!$&'()*+,-./:;=?@_~".
Definition SCHEME_CHARS : list codepoint := ASCII_ALPHANUMERIC ++ lit "+-.".

Definition NONCHARACTERS : list codepoint :=
  [0xfdd0; 0xfdd1; 0xfdd2; 0xfdd3; 0xfdd4; 0xfdd5; 0xfdd6; 0xfdd7;
   0xfdd8; 0xfdd9; 0xfdda; 0xfddb; 0xfddc; 0xfddd; 0xfdde; 0xfddf;
   0xfde0; 0xfde1; 0xfde2; 0xfde3; 0xfde4; 0xfde5; 0xfde6; 0xfde7;
   0xfde8; 0xfde9; 0xfdea; 0xfdeb; 0xfdec; 0xfded; 0xfdee; 0xfdef;
   0xfffe; 0xffff; 0x1fffe; 0x1ffff; 0x2fffe; 0x2ffff; 0x3fffe; 0x3ffff;
   0x4fffe; 0x4ffff; 0x5fffe; 0x5ffff; 0x6fffe; 0x6ffff; 0x7fffe; 0x7ffff;
   0x8fffe; 0x8ffff; 0x9fffe; 0x9ffff; 0xafffe; 0xaffff; 0xbfffe; 0xbffff;
   0xcfffe; 0xcffff; 0xdfffe; 0xdffff; 0xefffe; 0xeffff; 0xffffe; 0xfffff;
   0x10fffe; 0x10ffff].

Definition SINGLE_DOT_PATH_SEGMENTS : list str :=
  [lit "."; lit "%2e"; lit "%2E"].
Definition DOUBLE_DOT_PATH_SEGMENTS : list str :=
  [lit ".."; lit ".%2e"; lit ".%2E"; lit "%2e."; lit "%2e%2e"; lit "%2e%2E";
   lit "%2E."; lit "%2E%2e"; lit "%2E%2E"].

Definition C0_PERCENT_ENCODE : list codepoint :=
  map Z.of_nat (seq 0 32).
Definition FRAGMENT_PERCENT_ENCODE : list codepoint :=
  [32; 34; 60; 62; 96] ++ C0_PERCENT_ENCODE.
Definition PATH_PERCENT_ENCODE : list codepoint :=
  lit "#?{}" ++ FRAGMENT_PERCENT_ENCODE.
Definition USERINFO_PERCENT_ENCODE : list codepoint :=
  [47; 58; 59; 61; 64; 91; 92; 93; 94; 124] ++ PATH_PERCENT_ENCODE.

Definition FORBIDDEN_HOST_CODE_POINTS : list codepoint :=
  [0x00; 0x09; 0x0a; 0x0d; 32; 35; 37; 47; 58; 63; 64; 91; 92; 93].

Definition AUTHORITY_DELIMITERS : list str := [lit ""; lit "/"; lit "?"; lit "#"].
Definition PATH_DELIMITERS : list str := [lit ""; lit "/"; lit "?"; lit "#"].

Definition IDNA_DOTS : list codepoint := [0x002e; 0x3002; 0xff0e; 0xff61].

(** The dictionary of special schemes with their default ports ([file] maps
    to [None]). *)
Definition SPECIAL_SCHEMES : list (str * option Z) :=
  [(lit "ftp", Some 21); (lit "gopher", Some 70); (lit "http", Some 80);
   (lit "https", Some 443); (lit "ws", Some 80); (lit "wss", Some 443);
   (lit "file", None)].

Fixpoint dict_find (k : str) (d : list (str * option Z)) : option (option Z) :=
  match d with
  | [] => None
  | (k', v) :: d' => if str_eqb k k' then Some v else dict_find k d'
  end.

(** [scheme in SPECIAL_SCHEMES] *)
Definition in_special (scheme : option str) : bool :=
  match scheme with
  | Some s => match dict_find s SPECIAL_SCHEMES with Some _ => true | None => false end
  | None => false
  end.

(** [SPECIAL_SCHEMES.get(scheme, None)] *)
Definition special_get (scheme : option str) : option Z :=
  match scheme with
  | Some s => match dict_find s SPECIAL_SCHEMES with Some v => v | None => None end
  | None => None
  end.

(** ** Regular expressions of the module *)

Definition is_hex_digit (x : codepoint) : bool :=
  mem x (lit "abcdefABCDEF0123456789").

(** [TWO_ASCII_HEX.search(s) is not None]: [^[a-fA-F0-9]{2}]. *)
Definition TWO_ASCII_HEX (s : str) : bool :=
  match s with
  | a :: b :: _ => is_hex_digit a && is_hex_digit b
  | _ => false
  end.

(** [WINDOWS_DRIVE_LETTER]: [^[a-zA-Z][:|][/\\?#]?].  The pattern is anchored
    at the start, so [search] and [match] agree; the last group is optional
    and so never makes the match fail. *)
Definition WINDOWS_DRIVE_LETTER (s : str) : bool :=
  match s with
  | a :: b :: _ => mem a ASCII_ALPHA && mem b (lit ":|")
  | _ => false
  end.

(** [NORMALIZED_WINDOWS_DRIVE_LETTER.match]: [^[a-zA-Z][:]$]; in Python [$]
    also matches just before a final line feed. *)
Definition NORMALIZED_WINDOWS_DRIVE_LETTER (s : str) : bool :=
  match s with
  | [a; b] => mem a ASCII_ALPHA && (b =? 58)
  | [a; b; nl] => mem a ASCII_ALPHA && (b =? 58) && (nl =? 10)
  | _ => false
  end.

(** ** Code point utilities *)

Definition ascii_lower (x : codepoint) : codepoint :=
  if (65 <=? x) && (x <=? 90) then x + 32 else x.

Definition hex_digit (n : Z) : codepoint :=
  if n <? 10 then 48 + n else 55 + n.

(** [f"%{x:02X}"] for a byte [x]. *)
Definition percent_byte (x : Z) : str :=
  [37; hex_digit (x / 16); hex_digit (x mod 16)].

(** [chr(x).encode("utf-8")]; lone surrogates and integers that are not code
    points are refused (Python raises [UnicodeEncodeError] on the former). *)
Definition utf8_encode (x : codepoint) : option bytes :=
  if x <? 0 then None
  else if x <? 0x80 then Some [x]
  else if x <? 0x800 then Some [0xC0 + x / 64; 0x80 + x mod 64]
  else if x <? 0x10000 then
    if (0xD800 <=? x) && (x <=? 0xDFFF) then None
    else Some [0xE0 + x / 4096; 0x80 + (x / 64) mod 64; 0x80 + x mod 64]
  else if x <? 0x110000 then
    Some [0xF0 + x / 262144; 0x80 + (x / 4096) mod 64;
          0x80 + (x / 64) mod 64; 0x80 + x mod 64]
  else None.

Definition percent_encode (c : codepoint) (encode_set : list codepoint) : option str :=
  if mem c encode_set || (0x7e <? c) then
    match utf8_encode c with
    | Some bs => Some (concat (map percent_byte bs))
    | None => None
    end
  else Some [c].

Definition _is_url_codepoint (c : codepoint) : bool :=
  if mem c URL_CODEPOINTS then true
  else (0xa0 <=? c) && (c <=? 0x10fffd)
       && negb ((0xd800 <=? c) && (c <=? 0xdfff))
       && negb ((0xfdd0 <=? c) && (c <=? 0xfdef))
       && negb (mem c NONCHARACTERS).

Definition _is_c0_control_or_space (c : codepoint) : bool :=
  (c =? 32) || ((0 <=? c) && (c <=? 0x1f)).

(** [percent_decode]: the [skip] counter of the source loop is the first
    argument; [rest] is the tail of the bytes starting at index [i]. *)
Definition is_hex (x : Z) : bool :=
  ((0x30 <=? x) && (x <=? 0x39)) || ((0x41 <=? x) && (x <=? 0x46))
  || ((0x61 <=? x) && (x <=? 0x66)).

Definition hex_value (x : Z) : Z :=
  if x <=? 0x39 then x - 0x30
  else if x <=? 0x46 then x - 0x41 + 10
  else x - 0x61 + 10.

(** [string.hexdigits] *)
Definition hexdigits : list Z := lit "0123456789abcdefABCDEF".

(** [_HEX_CHAR_MAP]: for every two hexadecimal digits, in ASCII, the byte
    that they write; [chr(n).encode("charmap")] is the byte [n]. *)
Definition _HEX_CHAR_MAP : list (bytes * bytes) :=
  flat_map
    (fun a => map (fun b => ([a; b], [16 * hex_value a + hex_value b])) hexdigits)
    hexdigits.

Fixpoint percent_decode_from (skip : nat) (rest : bytes) : bytes :=
  match rest with
  | [] => []
  | byte :: tl =>
      match skip with
      | S k => percent_decode_from k tl
      | O =>
          if negb (byte =? 0x25) then byte :: percent_decode_from 0 tl
          else
            match tl with
            | h1 :: h2 :: _ =>
                if negb (is_hex h1) || negb (is_hex h2)
                then byte :: percent_decode_from 0 tl
                else (16 * hex_value h1 + hex_value h2) :: percent_decode_from 2 tl
            | _ => byte :: percent_decode_from 0 tl
            end
      end
  end.

Definition percent_decode (bytes_ : bytes) : bytes := percent_decode_from 0 bytes_.

(** [data.encode("utf-8")] for a whole string. *)
Fixpoint str_encode_utf8 (s : str) : option bytes :=
  match s with
  | [] => Some []
  | x :: s' =>
      match utf8_encode x, str_encode_utf8 s' with
      | Some b, Some bs => Some (b ++ bs)
      | _, _ => None
      end
  end.

Definition string_percent_decode (data : str) : option bytes :=
  option_map percent_decode (str_encode_utf8 data).

(** ** The URL record *)

Record Url := mkUrl {
  scheme : option str;
  hostname : option str;
  port : option Z;
  username : option str;
  password : option str;
  query : option str;
  fragment : option str;
  _path : list str;
  cannot_be_base_url : bool
}.

(** [Url()] with the attribute defaults. *)
Definition Url_default : Url :=
  mkUrl None None None None None None None [] false.

Definition with_scheme (v : option str) (u : Url) : Url :=
  let (sc, ho, po, us, pw, qu, fr, pa, cb) := u in
  mkUrl v ho po us pw qu fr pa cb.
Definition with_hostname (v : option str) (u : Url) : Url :=
  let (sc, ho, po, us, pw, qu, fr, pa, cb) := u in
  mkUrl sc v po us pw qu fr pa cb.
Definition with_port (v : option Z) (u : Url) : Url :=
  let (sc, ho, po, us, pw, qu, fr, pa, cb) := u in
  mkUrl sc ho v us pw qu fr pa cb.
Definition with_username (v : option str) (u : Url) : Url :=
  let (sc, ho, po, us, pw, qu, fr, pa, cb) := u in
  mkUrl sc ho po v pw qu fr pa cb.
Definition with_password (v : option str) (u : Url) : Url :=
  let (sc, ho, po, us, pw, qu, fr, pa, cb) := u in
  mkUrl sc ho po us v qu fr pa cb.
Definition with_query (v : option str) (u : Url) : Url :=
  let (sc, ho, po, us, pw, qu, fr, pa, cb) := u in
  mkUrl sc ho po us pw v fr pa cb.
Definition with_fragment (v : option str) (u : Url) : Url :=
  let (sc, ho, po, us, pw, qu, fr, pa, cb) := u in
  mkUrl sc ho po us pw qu v pa cb.
Definition with_path (v : list str) (u : Url) : Url :=
  let (sc, ho, po, us, pw, qu, fr, pa, cb) := u in
  mkUrl sc ho po us pw qu fr v cb.
Definition with_cannot_be_base_url (v : bool) (u : Url) : Url :=
  let (sc, ho, po, us, pw, qu, fr, pa, cb) := u in
  mkUrl sc ho po us pw qu fr pa v.

(** [str(n)] for an integer. *)
Definition str_of_int (n : Z) : str := lit (NilZero.string_of_int (Z.to_int n)).

(** [f"{o}"] for an attribute that may be [None]. *)
Definition fmt_opt (o : option str) : str :=
  match o with Some s => s | None => lit "None" end.

(** The [host] property. *)
Definition host (u : Url) : option str :=
  match port u with
  | None => hostname u
  | Some n => Some (fmt_opt (hostname u) ++ lit ":" ++ str_of_int n)
  end.

Definition includes_credentials (u : Url) : bool :=
  truthy (username u) || truthy (password u).

(** The [path] property; [None] stands for the [IndexError] of [_path[0]]. *)
Definition path (u : Url) : option str :=
  if cannot_be_base_url u then
    match _path u with x :: _ => Some x | [] => None end
  else Some (concat (map (fun x => 47 :: x) (_path u))).

(** The [href] property: the serializer. *)
Definition href (u : Url) : option str :=
  let output := [fmt_opt (scheme u) ++ lit ":"] in
  let output :=
    match hostname u with
    | Some h =>
        let output := output ++ [lit "//"] in
        let output :=
          if includes_credentials u then
            let output := if truthy (username u)
                          then output ++ [fmt_opt (username u)] else output in
            let output := if truthy (password u)
                          then output ++ [lit ":" ++ fmt_opt (password u)] else output in
            output ++ [lit "@"]
          else output in
        let output := output ++ [h] in
        match port u with
        | Some n => output ++ [lit ":" ++ str_of_int n]
        | None => output
        end
    | None => output
    end in
  let output :=
    match hostname u with
    | None => if opt_is (scheme u) "file" then output ++ [lit "//"] else output
    | Some _ => output
    end in
  match path u with
  | None => None
  | Some pth =>
      let output := output ++ [pth] in
      let output := match query u with
                    | Some q => output ++ [lit "?" ++ q] | None => output end in
      let output := match fragment u with
                    | Some f => output ++ [lit "#" ++ f] | None => output end in
      Some (concat output)
  end.

(** ** Parser states and the parser object *)

Inductive ParserState :=
| SCHEME_START | SCHEME | NO_SCHEME | SPECIAL_RELATIVE_OR_AUTHORITY
| PATH_OR_AUTHORITY | RELATIVE | RELATIVE_SLASH | SPECIAL_AUTHORITY_SLASHES
| SPECIAL_AUTHORITY_IGNORE_SLASHES | AUTHORITY | HOST | HOSTNAME | PORT
| FILE | FILE_SLASH | FILE_HOST | PATH_START | PATH | CANNOT_BE_BASE_URL
| QUERY | FRAGMENT.

(** The integer value of the [IntEnum] member. *)
Definition state_value (s : ParserState) : Z :=
  match s with
  | SCHEME_START => 1 | SCHEME => 2 | NO_SCHEME => 3
  | SPECIAL_RELATIVE_OR_AUTHORITY => 4 | PATH_OR_AUTHORITY => 5
  | RELATIVE => 6 | RELATIVE_SLASH => 7 | SPECIAL_AUTHORITY_SLASHES => 8
  | SPECIAL_AUTHORITY_IGNORE_SLASHES => 9 | AUTHORITY => 10 | HOST => 11
  | HOSTNAME => 12 | PORT => 13 | FILE => 14 | FILE_SLASH => 15
  | FILE_HOST => 16 | PATH_START => 17 | PATH => 18
  | CANNOT_BE_BASE_URL => 19 | QUERY => 20 | FRAGMENT => 21
  end.

Definition state_eqb (a b : ParserState) : bool := state_value a =? state_value b.

Record UrlParser := mkParser {
  url : Url;
  base : option Url;
  encoding : str;
  state_override : option ParserState;
  validation_error : bool;
  _state : ParserState;
  _pointer : Z;
  _buffer : str;
  _at_flag : bool;
  _square_brace_flag : bool;
  _password_token_seen_flag : bool
}.

Definition set_url (v : Url) (p : UrlParser) : UrlParser :=
  let (u, b, enc, so, ve, st, ptr, buf, af, sq, pt) := p in
  mkParser v b enc so ve st ptr buf af sq pt.
Definition set_encoding (v : str) (p : UrlParser) : UrlParser :=
  let (u, b, enc, so, ve, st, ptr, buf, af, sq, pt) := p in
  mkParser u b v so ve st ptr buf af sq pt.
Definition set_validation_error (v : bool) (p : UrlParser) : UrlParser :=
  let (u, b, enc, so, ve, st, ptr, buf, af, sq, pt) := p in
  mkParser u b enc so v st ptr buf af sq pt.
Definition set_state (v : ParserState) (p : UrlParser) : UrlParser :=
  let (u, b, enc, so, ve, st, ptr, buf, af, sq, pt) := p in
  mkParser u b enc so ve v ptr buf af sq pt.
Definition set_pointer (v : Z) (p : UrlParser) : UrlParser :=
  let (u, b, enc, so, ve, st, ptr, buf, af, sq, pt) := p in
  mkParser u b enc so ve st v buf af sq pt.
Definition set_buffer (v : str) (p : UrlParser) : UrlParser :=
  let (u, b, enc, so, ve, st, ptr, buf, af, sq, pt) := p in
  mkParser u b enc so ve st ptr v af sq pt.
Definition set_at_flag (v : bool) (p : UrlParser) : UrlParser :=
  let (u, b, enc, so, ve, st, ptr, buf, af, sq, pt) := p in
  mkParser u b enc so ve st ptr buf v sq pt.
Definition set_square_brace_flag (v : bool) (p : UrlParser) : UrlParser :=
  let (u, b, enc, so, ve, st, ptr, buf, af, sq, pt) := p in
  mkParser u b enc so ve st ptr buf af v pt.
Definition set_password_token_seen_flag (v : bool) (p : UrlParser) : UrlParser :=
  let (u, b, enc, so, ve, st, ptr, buf, af, sq, pt) := p in
  mkParser u b enc so ve st ptr buf af sq v.

(** [self.url.<attr> = v] and friends. *)
Definition on_url (f : Url -> Url) (p : UrlParser) : UrlParser :=
  set_url (f (url p)) p.

(** [self.validation_error = True] *)
Definition flag_error (p : UrlParser) : UrlParser := set_validation_error true p.
Definition flag_error_if (b : bool) (p : UrlParser) : UrlParser :=
  if b then flag_error p else p.

(** [self._pointer += k] *)
Definition move (k : Z) (p : UrlParser) : UrlParser :=
  set_pointer (_pointer p + k) p.

Definition overridden (p : UrlParser) : bool :=
  match state_override p with Some _ => true | None => false end.

(** [UrlParser.__init__]: [_state] is [None] there and is assigned by
    [parse] before any handler runs, so the record starts at the value
    [parse] gives it when there is no override. *)
Definition UrlParser_init (u : Url) (b : option Url) (enc : str) : UrlParser :=
  mkParser u b enc None false SCHEME_START 0 [] false false false.

(** [reset] *)
Definition reset (p : UrlParser) : UrlParser :=
  mkParser (url p) (base p) (encoding p) (state_override p) false (_state p)
           0 [] false false false.

(** How a handler call ends: it falls off its end, raises
    [_UrlParserReturn], raises [UrlParserError], or an exception of Python
    itself escapes ([TypeError], [IndexError], [AttributeError],
    [UnicodeError]). *)
Inductive signal :=
| Normal (p : UrlParser)
| _UrlParserReturn (p : UrlParser)
| UrlParserError
| PyError.

(** ** The libraries the module calls

    [ipaddress], [idna], [encodings.idna] and the codec registry are not part
    of the repository.  The parser is parametrised by what it asks of them;
    [None] is the exception the call site names. *)
Record Libs := mkLibs {
  (** [str(ipaddress.IPv6Address(s))]; [None] is [AddressValueError]. *)
  ipv6_address : str -> option str;
  (** [str(ipaddress.IPv4Address(s))]; [None] is [AddressValueError]. *)
  ipv4_address : str -> option str;
  (** [bytes.decode("utf-8")]; [None] is [UnicodeDecodeError]. *)
  utf8_decode : bytes -> option str;
  (** [idna.uts46_remap(s, std3_rules=False, transitional=False)]; [None] is
      [idna.IDNAError]. *)
  uts46_remap : str -> option str;
  (** [encodings.idna.ToASCII(label)], whose result is ASCII and is read
      back as text; [None] is the [UnicodeError] it raises. *)
  ToASCII : str -> option str;
  (** [c.encode(name)] for a codec other than ["utf-8"]; [None] is
      [UnicodeEncodeError] or [LookupError]. *)
  codec_encode : str -> codepoint -> option bytes
}.

(** ["".join([percent_encode(c, encode_set) for c in s])] *)
Fixpoint percent_encode_all (s : str) (encode_set : list codepoint) : option str :=
  match s with
  | [] => Some []
  | c :: s' =>
      match percent_encode c encode_set, percent_encode_all s' encode_set with
      | Some e, Some r => Some (e ++ r)
      | _, _ => None
      end
  end.

(** [re.split] on a set of single code points. *)
Fixpoint split_on (seps : list codepoint) (s : str) : list str :=
  match s with
  | [] => [[]]
  | x :: s' =>
      if mem x seps then [] :: split_on seps s'
      else match split_on seps s' with
           | l :: ls => (x :: l) :: ls
           | [] => [[x]]
           end
  end.

(** [sep.join(parts)] *)
Fixpoint join (sep : str) (parts : list str) : str :=
  match parts with
  | [] => []
  | [x] => x
  | x :: rest => x ++ sep ++ join sep rest
  end.

Inductive idna_result :=
| IdnaOk (s : str)
| IDNAError
| IdnaUnicodeError.

Inductive host_result :=
| HostOk (h : str)
| HostParserError
| HostPyError.

Section Parser.

Variable L : Libs.

(** The label loop of [domain_to_ascii]: [None] is the [UnicodeError] of
    [ToASCII], [Some None] the [IDNAError] for an empty result, and
    [Some (Some result)] the list that is joined at the end. *)
Fixpoint to_ascii_list (labels : list str) : option (option (list str)) :=
  match labels with
  | [] => Some (Some [])
  | label :: rest =>
      match ToASCII L label with
      | None => None
      | Some [] => Some None
      | Some s =>
          match to_ascii_list rest with
          | Some (Some r) => Some (Some (s :: r))
          | e => e
          end
      end
  end.

(** [domain_to_ascii(domain)] with [strict=False]. *)
Definition domain_to_ascii (domain : str) : idna_result :=
  match uts46_remap L domain with
  | None => IDNAError
  | Some domain =>
      let labels := split_on IDNA_DOTS domain in
      if match labels with [] => true | [l] => str_eqb l [] | _ => false end
      then IDNAError
      else
        let trailing_dot := str_eqb (last labels [0]) [] in
        let labels := if trailing_dot then removelast labels else labels in
        match to_ascii_list labels with
        | None => IdnaUnicodeError
        | Some None => IDNAError
        | Some (Some result) =>
            let result := if trailing_dot then result ++ [[]] else result in
            IdnaOk (join [46] result)
        end
  end.

Definition has_forbidden (s : str) : bool :=
  existsb (fun c => mem c FORBIDDEN_HOST_CODE_POINTS) s.

(** [parse_host(host, is_not_special)] *)
Definition parse_host (host : str) (is_not_special : bool) : host_result :=
  if startswith host (lit "[") then
    if negb (endswith host (lit "]")) then HostParserError
    else
      match ipv6_address L (removelast (tl host)) with
      | Some a => HostOk (lit "[" ++ a ++ lit "]")
      | None => HostParserError
      end
  else if is_not_special then
    let codepoints := filter (fun c => negb (c =? 37)) host in
    if has_forbidden codepoints then HostParserError
    else
      match percent_encode_all host C0_PERCENT_ENCODE with
      | Some h => HostOk h
      | None => HostPyError
      end
  else
    match string_percent_decode host with
    | None => HostPyError
    | Some bs =>
        match utf8_decode L bs with
        | None => HostPyError
        | Some domain =>
            match domain_to_ascii domain with
            | IdnaUnicodeError => HostPyError
            | IDNAError => HostParserError
            | IdnaOk a =>
                let ascii_domain := map ascii_lower a in
                if has_forbidden ascii_domain then HostParserError
                else
                  match ipv4_address L host with
                  | Some q => HostOk q
                  | None => HostOk ascii_domain
                  end
            end
        end
    end.

(** [shorten_url_path] *)
Definition shorten_url_path (u : Url) : Url :=
  let path_len := length (_path u) in
  if (path_len =? 0)%nat then u
  else if opt_is (scheme u) "file" && (path_len =? 1)%nat
          && NORMALIZED_WINDOWS_DRIVE_LETTER (hd [] (_path u))
  then u
  else with_path (removelast (_path u)) u.

(** [bind] for a call of [parse_host] inside a handler. *)
Definition with_host (r : host_result) (k : str -> signal) : signal :=
  match r with
  | HostOk h => k h
  | HostParserError => UrlParserError
  | HostPyError => PyError
  end.

(** A value that an uncaught Python exception may replace. *)
Definition or_raise {A} (o : option A) (k : A -> signal) : signal :=
  match o with Some a => k a | None => PyError end.

(** *** State handlers *)

Definition _on_scheme_start (c : pychar) (p : UrlParser) : signal :=
  if cin c ASCII_ALPHA then
    Normal (set_state SCHEME (set_buffer (_buffer p ++ map ascii_lower (cstr c)) p))
  else if negb (overridden p) then
    Normal (move (-1) (set_state NO_SCHEME p))
  else UrlParserError.

Definition opt_Z_eqb (a b : option Z) : bool :=
  match a, b with
  | Some x, Some y => x =? y
  | None, None => true
  | _, _ => false
  end.

Definition _on_scheme (c : pychar) (remaining : str) (p : UrlParser) : signal :=
  if cin c SCHEME_CHARS then
    Normal (set_buffer (_buffer p ++ map ascii_lower (cstr c)) p)
  else if is_c c ":" then
    (* the chained comparison [a in D != b in D] reads
       [a in D and D != b and b in D]; a dict never equals a string *)
    if overridden p
       && (in_special (Some (_buffer p)) && true && in_special (scheme (url p)))
    then _UrlParserReturn p
    else if overridden p
            && ((includes_credentials (url p)
                 || match port (url p) with Some _ => true | None => false end)
                && str_eqb (_buffer p) (lit "file"))
    then _UrlParserReturn p
    else if overridden p
            && (opt_is (scheme (url p)) "file"
                && match hostname (url p) with
                   | None => true
                   | Some h => str_eqb h []
                   end)
    then _UrlParserReturn p
    else
      let p := on_url (with_scheme (Some (_buffer p))) p in
      if overridden p then
        let p :=
          if in_special (scheme (url p))
             && opt_Z_eqb (special_get (scheme (url p))) (port (url p))
          then on_url (with_port None) p else p in
        _UrlParserReturn p
      else
        let p := set_buffer [] p in
        if opt_is (scheme (url p)) "file" then
          let p := flag_error_if (negb (startswith remaining (lit "//"))) p in
          Normal (set_state FILE p)
        else if in_special (scheme (url p))
                && match base p with
                   | Some b => opt_str_eqb (scheme b) (scheme (url p))
                   | None => false
                   end
        then Normal (set_state SPECIAL_RELATIVE_OR_AUTHORITY p)
        else if in_special (scheme (url p)) then
          Normal (set_state SPECIAL_AUTHORITY_SLASHES p)
        else if startswith remaining (lit "/") then
          Normal (move 1 (set_state PATH_OR_AUTHORITY p))
        else
          let p := on_url (with_cannot_be_base_url true) p in
          let p := on_url (fun u => with_path (_path u ++ [[]]) u) p in
          Normal (set_state CANNOT_BE_BASE_URL p)
  else if negb (overridden p) then
    Normal (set_pointer (-1) (set_state NO_SCHEME (set_buffer [] p)))
  else UrlParserError.

Definition _on_no_scheme (c : pychar) (p : UrlParser) : signal :=
  match base p with
  | None => UrlParserError
  | Some b =>
      if cannot_be_base_url b && negb (is_c c "#") then UrlParserError
      else if cannot_be_base_url b && is_c c "#" then
        let p := on_url (with_scheme (scheme b)) p in
        let p := on_url (with_path (_path b)) p in
        let p := on_url (with_query (query b)) p in
        let p := on_url (with_fragment (Some [])) p in
        let p := on_url (with_cannot_be_base_url true) p in
        Normal (set_state FRAGMENT p)
      else if negb (opt_is (scheme b) "file") then
        Normal (move (-1) (set_state RELATIVE p))
      else
        Normal (move (-1) (set_state FILE p))
  end.

Definition _on_special_relative_or_authority (c : pychar) (remaining : str)
    (p : UrlParser) : signal :=
  if is_c c "/" && startswith remaining (lit "/") then
    Normal (move 1 (set_state SPECIAL_AUTHORITY_IGNORE_SLASHES p))
  else
    Normal (move (-1) (set_state RELATIVE (flag_error p))).

Definition _on_path_or_authority (c : pychar) (p : UrlParser) : signal :=
  if is_c c "/" then Normal (set_state AUTHORITY p)
  else Normal (move (-1) (set_state PATH p)).

(** The four assignments [username], [password], [hostname], [port] from
    the base that several handlers repeat. *)
Definition copy_authority (b : Url) (u : Url) : Url :=
  with_port (port b)
    (with_hostname (hostname b)
       (with_password (password b) (with_username (username b) u))).

Definition _on_relative (c : pychar) (p : UrlParser) : signal :=
  match base p with
  | None => PyError
  | Some b =>
      let p := on_url (with_scheme (scheme b)) p in
      if is_c c "" then
        Normal (on_url (fun u => with_query (query b)
                          (with_path (_path b) (copy_authority b u))) p)
      else if is_c c "/" then
        Normal (set_state RELATIVE_SLASH p)
      else if is_c c "?" then
        Normal (set_state QUERY
                  (on_url (fun u => with_query (Some [])
                             (with_path (_path b) (copy_authority b u))) p))
      else if is_c c "#" then
        Normal (set_state FRAGMENT
                  (on_url (fun u => with_fragment (Some [])
                             (with_query (query b)
                                (with_path (_path b) (copy_authority b u)))) p))
      else if in_special (scheme (url p)) && is_c c "\" then
        Normal (set_state RELATIVE_SLASH (flag_error p))
      else
        let p := on_url (fun u => with_path (_path b) (copy_authority b u)) p in
        let p := if (0 <? length (_path (url p)))%nat
                 then on_url (fun u => with_path (removelast (_path u)) u) p
                 else p in
        Normal (move (-1) (set_state PATH p))
  end.

Definition _on_relative_slash (c : pychar) (p : UrlParser) : signal :=
  if in_special (scheme (url p)) && (is_c c "/" || is_c c "\") then
    Normal (set_state SPECIAL_AUTHORITY_IGNORE_SLASHES
              (flag_error_if (is_c c "\") p))
  else if is_c c "/" then
    Normal (set_state AUTHORITY p)
  else
    match base p with
    | None => PyError
    | Some b =>
        Normal (set_state PATH (move (-1) (on_url (copy_authority b) p)))
    end.

Definition _on_special_authority_slashes (c : pychar) (remaining : str)
    (p : UrlParser) : signal :=
  if is_c c "/" && startswith remaining (lit "/") then
    Normal (move 1 (set_state SPECIAL_AUTHORITY_IGNORE_SLASHES p))
  else
    Normal (move (-1) (set_state SPECIAL_AUTHORITY_IGNORE_SLASHES (flag_error p))).

Definition _on_special_authority_ignore_slashes (c : pychar) (p : UrlParser)
    : signal :=
  if negb (is_c c "/") && negb (is_c c "\") then
    Normal (move (-1) (set_state AUTHORITY p))
  else Normal (flag_error p).

(** [o += s] for an attribute that was made a string just before. *)
Definition opt_append (o : option str) (s : str) : option str :=
  Some (match o with Some v => v | None => [] end ++ s).

(** The [for char in self._buffer] loop of the authority state. *)
Fixpoint authority_loop (chars : str) (p : UrlParser) : option UrlParser :=
  match chars with
  | [] => Some p
  | char :: rest =>
      if negb (_password_token_seen_flag p) && (char =? 58) then
        authority_loop rest (set_password_token_seen_flag true p)
      else
        match percent_encode char USERINFO_PERCENT_ENCODE with
        | None => None
        | Some e =>
            if _password_token_seen_flag p then
              authority_loop rest
                (on_url (fun u => with_password (opt_append (password u) e) u) p)
            else
              authority_loop rest
                (on_url (fun u => with_username (opt_append (username u) e) u) p)
        end
  end.

Definition _on_authority (c : pychar) (p : UrlParser) : signal :=
  if is_c c "@" then
    let p := flag_error p in
    let p := if _at_flag p then set_buffer (lit "%40" ++ _buffer p) p else p in
    let p := set_at_flag true p in
    or_raise (authority_loop (_buffer p) p) (fun p =>
    Normal (set_buffer [] p))
  else if str_in (cstr c) AUTHORITY_DELIMITERS
          || (in_special (scheme (url p)) && is_c c "\") then
    if _at_flag p && str_eqb (_buffer p) [] then UrlParserError
    else
      let p := move (- (Z.of_nat (length (_buffer p)) + 1)) p in
      Normal (set_state HOST (set_buffer [] p))
  else Normal (set_buffer (_buffer p ++ cstr c) p).

Definition state_override_is (p : UrlParser) (s : ParserState) : bool :=
  match state_override p with Some o => state_eqb o s | None => false end.

Definition _on_host_or_hostname (c : pychar) (p : UrlParser) : signal :=
  if overridden p && opt_is (scheme (url p)) "file" then
    Normal (set_state FILE_HOST (move (-1) p))
  else if is_c c ":" && negb (_square_brace_flag p) then
    if str_eqb (_buffer p) [] then UrlParserError
    else
      with_host (parse_host (_buffer p) (negb (in_special (scheme (url p)))))
        (fun h =>
           let p := on_url (with_hostname (Some h)) p in
           let p := set_state PORT (set_buffer [] p) in
           if state_override_is p HOSTNAME then _UrlParserReturn p
           else Normal p)
  else if str_in (cstr c) PATH_DELIMITERS
          || (is_c c "\" && in_special (scheme (url p))) then
    let p := move (-1) p in
    if in_special (scheme (url p)) && str_eqb (_buffer p) [] then UrlParserError
    else if overridden p && str_eqb (_buffer p) []
            && (includes_credentials (url p)
                || match port (url p) with Some _ => true | None => false end)
    then _UrlParserReturn (flag_error p)
    else
      with_host (parse_host (_buffer p) (negb (in_special (scheme (url p)))))
        (fun h =>
           let p := on_url (with_hostname (Some h)) p in
           let p := set_state PATH_START (set_buffer [] p) in
           if overridden p then _UrlParserReturn p else Normal p)
  else
    let p := if is_c c "[" then set_square_brace_flag true p
             else if is_c c "]" then set_square_brace_flag false p
             else p in
    Normal (set_buffer (_buffer p ++ cstr c) p).

(** [int(s)] for a string; [None] is [ValueError]: of the empty string,
    of a string that holds anything but ASCII digits and, as CPython does
    from version 3.11 on ([sys.int_info.default_max_str_digits]), of a
    string of more than 4300 digits. *)
Definition py_int (s : str) : option Z :=
  match s with
  | [] => None
  | _ =>
      if forallb (fun x => mem x ASCII_DIGITS) s
         && (Z.of_nat (length s) <=? 4300)
      then Some (fold_left (fun acc x => 10 * acc + (x - 48)) s 0)
      else None
  end.

Definition _on_port (c : pychar) (p : UrlParser) : signal :=
  if cin c ASCII_DIGITS then Normal (set_buffer (_buffer p ++ cstr c) p)
  else if str_in (cstr c) PATH_DELIMITERS
          || (is_c c "\" && in_special (scheme (url p)))
          || overridden p then
    let after (p : UrlParser) : signal :=
      if overridden p then _UrlParserReturn p
      else Normal (move (-1) (set_state PATH_START p)) in
    if negb (str_eqb (_buffer p) []) then
      match py_int (_buffer p) with
      | None => UrlParserError
      | Some n =>
          if 2 ^ 16 - 1 <? n then UrlParserError
          else
            let v := if opt_Z_eqb (Some n) (special_get (scheme (url p)))
                     then None else Some n in
            after (set_buffer [] (on_url (with_port v) p))
      end
    else after p
  else UrlParserError.

Definition copy_file_base (b : Url) (u : Url) : Url :=
  with_path (_path b) (with_hostname (hostname b) u).

Definition _on_file (c : pychar) (remaining : str) (p : UrlParser) : signal :=
  let p := on_url (with_scheme (Some (lit "file"))) p in
  if is_c c "//" || is_c c "\" then
    Normal (set_state FILE_SLASH (flag_error_if (is_c c "\") p))
  else
    match base p with
    | Some b =>
        if opt_is (scheme b) "file" then
          if is_c c "" then
            Normal (on_url (fun u => with_query (query b) (copy_file_base b u)) p)
          else if is_c c "?" then
            Normal (set_state QUERY
                      (on_url (fun u => with_query (Some []) (copy_file_base b u)) p))
          else if is_c c "#" then
            Normal (set_state FRAGMENT
                      (on_url (fun u => with_fragment (Some [])
                                 (with_query (query b) (copy_file_base b u))) p))
          else if negb (WINDOWS_DRIVE_LETTER (cstr c ++ remaining)) then
            Normal (on_url (fun u => shorten_url_path (copy_file_base b u)) p)
          else Normal (flag_error p)
        else Normal (move (-1) (set_state PATH p))
    | None => Normal (move (-1) (set_state PATH p))
    end.

Definition _on_file_slash (c : pychar) (remaining : str) (p : UrlParser) : signal :=
  if is_c c "/" || is_c c "\" then
    Normal (set_state FILE_HOST (flag_error_if (is_c c "\") p))
  else
    let p :=
      match base p with
      | Some b =>
          if opt_is (scheme b) "file" && WINDOWS_DRIVE_LETTER (cstr c ++ remaining)
          then
            if (0 <? length (_path b))%nat
               && NORMALIZED_WINDOWS_DRIVE_LETTER (hd [] (_path b))
            then on_url (fun u => with_path (_path u ++ [hd [] (_path b)]) u) p
            else on_url (with_hostname (hostname b)) p
          else p
      | None => p
      end in
    Normal (move (-1) (set_state PATH p)).

Definition _on_file_host (c : pychar) (p : UrlParser) : signal :=
  if str_in (cstr c) PATH_DELIMITERS then
    let p := move (-1) p in
    if overridden p && WINDOWS_DRIVE_LETTER (_buffer p) then
      Normal (set_state PATH (flag_error p))
    else if str_eqb (_buffer p) [] then
      let p := on_url (with_hostname (Some [])) p in
      if overridden p then _UrlParserReturn p
      else Normal (set_state PATH_START p)
    else
      with_host (parse_host (_buffer p) (negb (in_special (scheme (url p)))))
        (fun h =>
           let p := on_url (with_hostname (Some h)) p in
           let p := if opt_is (hostname (url p)) "localhost"
                    then on_url (with_hostname (Some [])) p else p in
           if overridden p then _UrlParserReturn p
           else Normal (set_state PATH_START (set_buffer [] p)))
  else Normal (set_buffer (_buffer p ++ cstr c) p).

Definition _on_path_start (c : pychar) (p : UrlParser) : signal :=
  if in_special (scheme (url p)) then
    let p := flag_error_if (is_c c "\") p in
    let p := set_state PATH p in
    if negb (is_c c "/") && negb (is_c c "\") then Normal (move (-1) p)
    else Normal p
  else if negb (overridden p) && is_c c "?" then
    Normal (set_state QUERY (on_url (with_query (Some [])) p))
  else if negb (overridden p) && is_c c "#" then
    Normal (set_state FRAGMENT (on_url (with_fragment (Some [])) p))
  else if negb (is_c c "") then
    let p := set_state PATH p in
    if negb (is_c c "/") then Normal (move (-1) p) else Normal p
  else Normal p.

(** The loop [while len(path) > 1 and path[0] == "": path.pop(0)]. *)
Fixpoint pop_leading_empty (path : list str) : list str :=
  match path with
  | [] :: ((_ :: _) as rest) => pop_leading_empty rest
  | _ => path
  end.

(** [buffer[0] + ":" + buffer[2:]] (the caller has matched
    [WINDOWS_DRIVE_LETTER], so [buffer[0]] exists). *)
Definition normalize_drive (buffer : str) : str :=
  firstn 1 buffer ++ lit ":" ++ skipn 2 buffer.

(** The branch of the path state for a file URL whose first segment is a
    Windows drive letter: an inherited host is cleared and the second code
    point of the buffer becomes [:]. *)
Definition path_drive_letter (p : UrlParser) : UrlParser :=
  if opt_is (scheme (url p)) "file"
     && (length (_path (url p)) =? 0)%nat
     && WINDOWS_DRIVE_LETTER (_buffer p)
  then
    let p :=
      if negb (opt_is (hostname (url p)) "")
         && match hostname (url p) with Some _ => true | None => false end
      then on_url (with_hostname (Some [])) (flag_error p) else p in
    set_buffer (normalize_drive (_buffer p)) p
  else p.

(** The [if]/[elif] chain of the path state that disposes of the buffer at
    the end of a segment; [slash] is [c == "/" or cond]. *)
Definition path_flush (slash : bool) (p : UrlParser) : UrlParser :=
  if str_in (_buffer p) DOUBLE_DOT_PATH_SEGMENTS then
    let p := on_url shorten_url_path p in
    if negb slash then on_url (fun u => with_path (_path u ++ [[]]) u) p else p
  else if str_in (_buffer p) SINGLE_DOT_PATH_SEGMENTS && negb slash then
    on_url (fun u => with_path (_path u ++ [[]]) u) p
  else if negb (str_in (_buffer p) SINGLE_DOT_PATH_SEGMENTS) then
    let p := path_drive_letter p in
    on_url (fun u => with_path (_path u ++ [_buffer p]) u) p
  else p.

(** The removal of leading empty segments of a file URL. *)
Definition path_trim_file (c : pychar) (p : UrlParser) : UrlParser :=
  if opt_is (scheme (url p)) "file" && str_in (cstr c) PATH_DELIMITERS then
    let popped := pop_leading_empty (_path (url p)) in
    flag_error_if (length popped <? length (_path (url p)))%nat
      (on_url (with_path popped) p)
  else p.

Definition _on_path (c : pychar) (remaining : str) (p : UrlParser) : signal :=
  let cond := is_c c "\" && in_special (scheme (url p)) in
  if is_c c "" || is_c c "/" || cond
     || (negb (overridden p) && (is_c c "?" || is_c c "#")) then
    let p := flag_error_if cond p in
    let p := path_flush (is_c c "/" || cond) p in
    let p := set_buffer [] p in
    let p := path_trim_file c p in
    if is_c c "?" then Normal (set_state QUERY (on_url (with_query (Some [])) p))
    else if is_c c "#" then
      Normal (set_state FRAGMENT (on_url (with_fragment (Some [])) p))
    else Normal p
  else
    match c with
    | None => PyError
    | Some x =>
        let p := flag_error_if (negb (is_c c "%") && negb (_is_url_codepoint x)) p in
        let p := flag_error_if (is_c c "%" && negb (TWO_ASCII_HEX remaining)) p in
        or_raise (percent_encode x PATH_PERCENT_ENCODE) (fun e =>
        Normal (set_buffer (_buffer p ++ e) p))
    end.

Definition _on_cannot_be_base_url (c : pychar) (remaining : str) (p : UrlParser)
    : signal :=
  if is_c c "?" then Normal (set_state QUERY (on_url (with_query (Some [])) p))
  else if is_c c "#" then
    Normal (set_state FRAGMENT (on_url (with_fragment (Some [])) p))
  else
    match c with
    | None => Normal p
    | Some x =>
        let p := flag_error_if (negb (is_c c "%") && negb (_is_url_codepoint x)) p in
        let p := flag_error_if (is_c c "%" && negb (TWO_ASCII_HEX remaining)) p in
        match _path (url p) with
        | [] => PyError
        | first :: rest =>
            or_raise (percent_encode x C0_PERCENT_ENCODE) (fun e =>
            Normal (on_url (with_path ((first ++ e) :: rest)) p))
        end
    end.

(** [c.encode(self.encoding)] *)
Definition encode_with (enc : str) (x : codepoint) : option bytes :=
  if str_eqb enc (lit "utf-8") then utf8_encode x else codec_encode L enc x.

(** [b.decode("ascii")] *)
Definition decode_ascii (b : bytes) : option str :=
  if forallb (fun x => (0 <=? x) && (x <? 128)) b then Some b else None.

Definition query_encode_byte (is_special : bool) (byte : Z) : str :=
  if (byte <? 0x21) || (0x7e <? byte) || (byte =? 0x22) || (byte =? 0x23)
     || (byte =? 0x3c) || (byte =? 0x3e) || (is_special && (byte =? 0x27))
  then percent_byte byte
  else [byte].

(** The [for byte in bytes_] loop; [self.url.query += ...] on an absent
    query is a [TypeError]. *)
Fixpoint query_loop (is_special : bool) (bytes_ : bytes) (q : option str)
    : option (option str) :=
  match bytes_ with
  | [] => Some q
  | byte :: rest =>
      match q with
      | None => None
      | Some v => query_loop is_special rest (Some (v ++ query_encode_byte is_special byte))
      end
  end.

Definition _on_query (c : pychar) (remaining : str) (p : UrlParser) : signal :=
  let p :=
    if negb (str_eqb (encoding p) (lit "utf-8"))
       && (opt_is (scheme (url p)) "ws" || opt_is (scheme (url p)) "wss"
           || negb (in_special (scheme (url p))))
    then set_encoding (lit "utf-8") p else p in
  if negb (overridden p) && is_c c "#" then
    Normal (set_state FRAGMENT (on_url (with_fragment (Some [])) p))
  else
    match c with
    | None => Normal p
    | Some x =>
        let p := flag_error_if (negb (is_c c "%") && negb (_is_url_codepoint x)) p in
        let p := flag_error_if (is_c c "%" && negb (TWO_ASCII_HEX remaining)) p in
        or_raise (encode_with (encoding p) x) (fun bytes_ =>
        if startswith bytes_ (lit "&#") && endswith bytes_ (lit ";") then
          or_raise (decode_ascii (lit "%26%23" ++ removelast (skipn 2 bytes_) ++ lit "%3B"))
            (fun t =>
               match query (url p) with
               | None => PyError
               | Some q => Normal (on_url (with_query (Some (q ++ t))) p)
               end)
        else
          let is_special := in_special (scheme (url p)) in
          or_raise (query_loop is_special bytes_ (query (url p))) (fun q =>
          Normal (on_url (with_query q) p)))
    end.

Definition _on_fragment (c : pychar) (remaining : str) (p : UrlParser) : signal :=
  match c with
  | None => Normal p
  | Some x =>
      if x =? 0 (* c == "\x00" *) then Normal (flag_error p)
      else
        let p := flag_error_if (negb (is_c c "%") && _is_url_codepoint x) p in
        let p := flag_error_if (is_c c "%" && negb (TWO_ASCII_HEX remaining)) p in
        match fragment (url p) with
        | None => PyError
        | Some f =>
            or_raise (percent_encode x FRAGMENT_PERCENT_ENCODE) (fun e =>
            Normal (on_url (with_fragment (Some (f ++ e))) p))
        end
  end.

(** [self._state_handlers[self._state]] *)
Definition handler (s : ParserState) (c : pychar) (remaining : str)
    (p : UrlParser) : signal :=
  match s with
  | SCHEME_START => _on_scheme_start c p
  | SCHEME => _on_scheme c remaining p
  | NO_SCHEME => _on_no_scheme c p
  | SPECIAL_RELATIVE_OR_AUTHORITY => _on_special_relative_or_authority c remaining p
  | PATH_OR_AUTHORITY => _on_path_or_authority c p
  | RELATIVE => _on_relative c p
  | RELATIVE_SLASH => _on_relative_slash c p
  | SPECIAL_AUTHORITY_SLASHES => _on_special_authority_slashes c remaining p
  | SPECIAL_AUTHORITY_IGNORE_SLASHES => _on_special_authority_ignore_slashes c p
  | AUTHORITY => _on_authority c p
  | HOST => _on_host_or_hostname c p
  | HOSTNAME => _on_host_or_hostname c p
  | PORT => _on_port c p
  | FILE => _on_file c remaining p
  | FILE_SLASH => _on_file_slash c remaining p
  | FILE_HOST => _on_file_host c p
  | PATH_START => _on_path_start c p
  | PATH => _on_path c remaining p
  | CANNOT_BE_BASE_URL => _on_cannot_be_base_url c remaining p
  | QUERY => _on_query c remaining p
  | FRAGMENT => _on_fragment c remaining p
  end.

(** *** The driver *)

(** [data[i]]: a negative index counts from the end; [None] is
    [IndexError]. *)
Definition py_index (data : str) (i : Z) : option codepoint :=
  let n := Z.of_nat (length data) in
  if (0 <=? i) && (i <? n) then nth_error data (Z.to_nat i)
  else if (- n <=? i) && (i <? 0) then nth_error data (Z.to_nat (n + i))
  else None.

(** [data[i:]] *)
Definition py_slice_from (data : str) (i : Z) : str :=
  let n := Z.of_nat (length data) in
  let i := if i <? 0 then Z.max 0 (n + i) else i in
  skipn (Z.to_nat i) data.

(** [while data and _is_c0_control_or_space(data[0]): data = data[1:]] *)
Fixpoint lstrip_c0 (data : str) : str :=
  match data with
  | x :: rest => if _is_c0_control_or_space x then lstrip_c0 rest else data
  | [] => []
  end.

(** [while data and _is_c0_control_or_space(data[-1]): data = data[:-1]] *)
Definition rstrip_c0 (data : str) : str := rev (lstrip_c0 (rev data)).

(** [data.replace("\t", "").replace("\n", "").replace("\r", "")] *)
Definition remove_tab_newline (data : str) : str :=
  filter (fun x => negb (x =? 13))
    (filter (fun x => negb (x =? 10)) (filter (fun x => negb (x =? 9)) data)).

(** The input as the loop sees it, and whether preparing it recorded a
    validation error. *)
Definition preprocess (data : str) : str * bool :=
  let d1 := lstrip_c0 data in
  let e1 := (length d1 <? length data)%nat in
  let d2 := rstrip_c0 d1 in
  let e2 := (length d2 <? length d1)%nat in
  let d3 := remove_tab_newline d2 in
  let e3 := (length d3 <? length d2)%nat in
  (d3, e1 || e2 || e3).

(** Where control stands in the two nested loops of [parse]: at the test of
    the outer [while], or at the test of the inner one. *)
Inductive loop_point := OuterTest | InnerTest.

Inductive parse_result :=
| Returned (p : UrlParser)
| Failed
| Crashed.

Inductive tick_result :=
| Running (lp : loop_point) (p : UrlParser)
| Finished (r : parse_result).

Definition after_call (s : signal) : tick_result :=
  match s with
  | Normal p => Running InnerTest (move 1 p)
  | _UrlParserReturn p => Finished (Returned p)
  | UrlParserError => Finished Failed
  | PyError => Finished Crashed
  end.

(** One test of a loop condition of [parse] together with the handler call
    it guards, if any. *)
Definition tick (data : str) (lp : loop_point) (p : UrlParser) : tick_result :=
  let end_pointer := Z.of_nat (length data) in
  match lp with
  | OuterTest =>
      if (_pointer p <? end_pointer)
         || ((end_pointer =? 0) && (_pointer p =? 0)) then
        if 0 <? end_pointer then
          match py_index data (_pointer p) with
          | None => Finished Crashed
          | Some x =>
              after_call (handler (_state p) (Some x)
                            (py_slice_from data (_pointer p + 1)) p)
          end
        else Running InnerTest p
      else Finished (Returned p)
  | InnerTest =>
      if _pointer p =? end_pointer then
        after_call (handler (_state p) None [] p)
      else Running OuterTest p
  end.

(** The loops of [parse], run for at most [fuel] tests. *)
Fixpoint run (fuel : nat) (data : str) (lp : loop_point) (p : UrlParser)
    : option parse_result :=
  match fuel with
  | O => None
  | S fuel' =>
      match tick data lp p with
      | Finished r => Some r
      | Running lp' p' => run fuel' data lp' p'
      end
  end.

(** The part of [parse] before the loops. *)
Definition parse_start (p : UrlParser) (data : str) (enc : option str)
    (override : option ParserState) : str * UrlParser :=
  let p := reset p in
  let p := mkParser (url p) (base p) (encoding p) override (validation_error p)
                    (match override with Some s => s | None => SCHEME_START end)
                    (_pointer p) (_buffer p) (_at_flag p)
                    (_square_brace_flag p) (_password_token_seen_flag p) in
  let p := set_encoding (match enc with Some e => e | None => lit "utf-8" end) p in
  let (data, err) := preprocess data in
  (data, flag_error_if err p).

(** Enough tests for any run of the loops (see [run_terminates]). *)
Definition parse_fuel (data : str) : nat :=
  Z.to_nat (3 * (22 * (Z.of_nat (length data) + 3)) + 3).

(** [UrlParser.parse(data, encoding, state_override)]: [Some (Returned p)]
    is the final parser, whose [url] is the value returned. *)
Definition parse (p : UrlParser) (data : str) (enc : option str)
    (override : option ParserState) : option parse_result :=
  let (data, p) := parse_start p data enc override in
  run (parse_fuel data) data OuterTest p.

(** The operation [parse(input, base, encoding)] of the interface: a fresh
    record handed to a fresh parser. *)
Definition parse_url (data : str) (b : option Url) (enc : option str)
    : option parse_result :=
  parse (UrlParser_init Url_default b (lit "utf-8")) data enc None.

End Parser.

(** ** The libraries on ASCII input

    An executable stand-in for the libraries, used to evaluate the parser on
    concrete ASCII hosts.  [ipaddress.IPv4Address] is the strict dotted
    decimal parser (four parts of one to three ASCII digits, none above 255,
    and no part with a leading zero).  On ASCII text [uts46_remap] lowers
    case, [ToASCII] keeps a label of 1 to 63 code points and raises on any
    other, and decoding ASCII bytes as UTF-8 is the identity.  No IPv6
    literal and no other codec is modelled: the stand-in answers there, and
    on text outside ASCII, as the libraries do on input they reject. *)

Definition is_ascii (s : str) : bool :=
  forallb (fun x => (0 <=? x) && (x <? 128)) s.

(** [IPv4Address._parse_octet] of the standard library (CPython 3.11):
    one to three ASCII digits, no leading zero but in ["0"], at most 255. *)
Definition ascii_octet (s : str) : option Z :=
  match py_int s with
  | Some n =>
      if (length s <=? 3)%nat && (n <=? 255)
         && negb ((1 <? length s)%nat && startswith s (lit "0"))
      then Some n else None
  | None => None
  end.

(** [str(ipaddress.IPv4Address(s))] of the standard library
    ([_ip_int_from_string]: exactly four octets between dots; the address is
    printed as the four numbers joined by dots). *)
Definition ascii_ipv4_address (s : str) : option str :=
  match map ascii_octet (split_on [46] s) with
  | [Some a; Some b; Some c; Some d] =>
      Some (join [46] (map str_of_int [a; b; c; d]))
  | _ => None
  end.

Definition ascii_libs : Libs :=
  mkLibs
    (fun _ => None)
    ascii_ipv4_address
    (fun b => if is_ascii b then Some b else None)
    (fun s => if is_ascii s then Some (map ascii_lower s) else None)
    (fun label => if is_ascii label && (0 <? length label)%nat
                     && (length label <? 64)%nat
                  then Some label else None)
    (fun _ _ => None).

(** * Vocabulary of the statements *)

(** What a block of a handler leaves alone: everything but the URL, the
    buffer, the validation flag and the password flag. *)
Definition same_control (p q : UrlParser) : Prop :=
  base q = base p /\ encoding q = encoding p
  /\ state_override q = state_override p /\ _state q = _state p
  /\ _pointer q = _pointer p /\ _at_flag q = _at_flag p
  /\ _square_brace_flag q = _square_brace_flag p.

Definition buffer_free (s : ParserState) : bool :=
  match s with
  | SCHEME_START | NO_SCHEME | SPECIAL_RELATIVE_OR_AUTHORITY
  | PATH_OR_AUTHORITY | RELATIVE | RELATIVE_SLASH
  | SPECIAL_AUTHORITY_SLASHES | SPECIAL_AUTHORITY_IGNORE_SLASHES => true
  | _ => false
  end.

Definition rewind_ok (p : UrlParser) : Prop :=
  0 <= _pointer p
  /\ (buffer_free (_state p) = true -> _buffer p = [])
  /\ (_state p = AUTHORITY -> Z.of_nat (length (_buffer p)) <= _pointer p).

(** The quantity that every test of the loops decreases: states only move
    forward in the order of their enum values, and a state that stays
    consumes a code point. *)
Definition loop_measure (n : Z) (lp : loop_point) (p : UrlParser) : Z :=
  3 * ((21 - state_value (_state p)) * (n + 2) + (n + 1 - _pointer p))
  + match lp with
    | InnerTest => 1
    | OuterTest => if (n =? 0) && (_pointer p =? 0) then 2 else 0
    end.

Definition run_inv (n : Z) (p : UrlParser) : Prop :=
  rewind_ok p /\ _pointer p <= n + 1.

(** Everything of a URL but its credentials, host and path. *)
Definition same_scheme_port (u v : Url) : Prop :=
  scheme v = scheme u /\ port v = port u /\ query v = query u
  /\ fragment v = fragment u /\ cannot_be_base_url v = cannot_be_base_url u.

Definition port_ok (u : Url) : Prop :=
  forall n, port u = Some n -> special_get (scheme u) <> Some n.

Definition base_port_ok (b : option Url) : Prop :=
  match b with Some bu => port_ok bu | None => True end.

(** The invariant of the loops behind [port_ok]: the port is still absent
    while the scheme can change, and in the relative states the scheme is
    the base's as soon as the port may be. *)
Definition port_inv (p : UrlParser) : Prop :=
  state_override p = None
  /\ base_port_ok (base p)
  /\ port_ok (url p)
  /\ match _state p with
     | SCHEME_START | SCHEME | NO_SCHEME | SPECIAL_RELATIVE_OR_AUTHORITY =>
         port (url p) = None
     | RELATIVE =>
         port (url p) = None
         \/ exists b, base p = Some b /\ scheme (url p) = scheme b
     | RELATIVE_SLASH =>
         exists b, base p = Some b /\ scheme (url p) = scheme b
     | _ => True
     end.

Definition result_of (s : signal) : option UrlParser :=
  match s with
  | Normal p => Some p
  | _UrlParserReturn p => Some p
  | _ => None
  end.

(** The URL records that [parse] can return: parsed without a base, or
    against a base that was itself returned by [parse]. *)
Inductive producible (L : Libs) : Url -> Prop :=
| producible_alone data enc p :
    parse_url L data None enc = Some (Returned p) -> producible L (url p)
| producible_against data b enc p :
    producible L b ->
    parse_url L data (Some b) enc = Some (Returned p) -> producible L (url p).

(** The code points that end the port: a path delimiter, the end of the
    input, or [\] in a special scheme. *)
Definition port_terminator (c : pychar) (p : UrlParser) : bool :=
  str_in (cstr c) PATH_DELIMITERS
  || (is_c c "\" && in_special (scheme (url p))).

(** The URL has the scheme [file] and [seg], an ASCII letter followed by
    [:], as its first path segment. *)
Definition drive_letter_first (u : Url) (seg : str) : Prop :=
  opt_is (scheme u) "file" = true
  /\ (exists a, seg = [a; 58] /\ mem a ASCII_ALPHA = true)
  /\ exists rest, _path u = seg :: rest.

Definition heads_agree (l1 l2 : list str) : Prop :=
  match l1, l2 with
  | [], _ => True
  | x :: _, y :: _ => x = y
  | _ :: _, [] => False
  end.

Definition base_not_file (p : UrlParser) : Prop :=
  match base p with
  | Some b => opt_is (scheme b) "file" = false
  | None => True
  end.

(** Where the path of the URL under construction can still be replaced:
    before any state that builds it, the path is empty, or the scheme is
    not [file], or (in the file state) the path came from the base. *)
Definition drive_inv (p : UrlParser) : Prop :=
  state_override p = None
  /\ match _state p with
     | SCHEME_START | SCHEME | NO_SCHEME => _path (url p) = []
     | SPECIAL_RELATIVE_OR_AUTHORITY =>
         _path (url p) = [] /\ base_not_file p
     | RELATIVE =>
         base_not_file p
         /\ (_path (url p) = [] \/ opt_is (scheme (url p)) "file" = false)
     | FILE =>
         match base p with
         | Some b => heads_agree (_path (url p)) (_path b)
         | None => _path (url p) = []
         end
     | CANNOT_BE_BASE_URL => opt_is (scheme (url p)) "file" = false
     | _ => True
     end.

(** The states whose handlers leave the scheme and the path alone. *)
Definition path_frozen (s : ParserState) : bool :=
  match s with
  | SCHEME_START | SPECIAL_RELATIVE_OR_AUTHORITY | PATH_OR_AUTHORITY
  | RELATIVE_SLASH | SPECIAL_AUTHORITY_SLASHES
  | SPECIAL_AUTHORITY_IGNORE_SLASHES | AUTHORITY | HOST | HOSTNAME | PORT
  | FILE_HOST | PATH_START | QUERY | FRAGMENT => true
  | _ => false
  end.

(** [reaches L data lp p lp' p']: the loops of [parse], standing at [lp]
    with the parser [p], get to [lp'] with the parser [p'] after some
    number of tests. *)
Inductive reaches (L : Libs) (data : str)
  : loop_point -> UrlParser -> loop_point -> UrlParser -> Prop :=
| reaches_here lp p : reaches L data lp p lp p
| reaches_tick lp p lp1 p1 lp2 p2 :
    tick L data lp p = Running lp1 p1 ->
    reaches L data lp1 p1 lp2 p2 ->
    reaches L data lp p lp2 p2.

(** The parser after [k] tests of the loops, when they are still running. *)
Fixpoint advance (L : Libs) (k : nat) (data : str) (lp : loop_point)
    (p : UrlParser) : option (loop_point * UrlParser) :=
  match k with
  | O => Some (lp, p)
  | S k' =>
      match tick L data lp p with
      | Running lp' p' => advance L k' data lp' p'
      | Finished _ => None
      end
  end.

Definition map_signal (f : UrlParser -> UrlParser) (s : signal) : signal :=
  match s with
  | Normal p => Normal (f p)
  | _UrlParserReturn p => _UrlParserReturn (f p)
  | UrlParserError => UrlParserError
  | PyError => PyError
  end.

Definition map_result (f : UrlParser -> UrlParser) (r : parse_result)
    : parse_result :=
  match r with
  | Returned p => Returned (f p)
  | Failed => Failed
  | Crashed => Crashed
  end.

Definition is_tab_or_newline (x : codepoint) : bool :=
  (x =? 9) || (x =? 10) || (x =? 13).

(** [ws_inserted w w']: [w'] is [w] with ASCII tabs, line feeds and
    carriage returns inserted at any positions. *)
Inductive ws_inserted : str -> str -> Prop :=
| ws_done : ws_inserted [] []
| ws_keep x w w' : ws_inserted w w' -> ws_inserted (x :: w) (x :: w')
| ws_add x w w' :
    is_tab_or_newline x = true -> ws_inserted w w' -> ws_inserted w (x :: w').

(** The result of a parse as the caller sees it: the URL returned. *)
Definition returned_url (r : option parse_result) : option Url :=
  match r with Some (Returned p) => Some (url p) | _ => None end.

(** A part of a host that [ipaddress.IPv4Address] does not take for an
    octet: the empty part, a part that holds anything but ASCII digits (as
    the [x] of a [0x] prefix), a part of more than three digits, a part
    with a leading zero (the octal indicator), and a number above 255. *)
Definition not_an_octet (part : str) : Prop :=
  part = []
  \/ existsb (fun x => negb (mem x ASCII_DIGITS)) part = true
  \/ (3 < length part)%nat
  \/ ((1 < length part)%nat /\ hd 0 part = 48)
  \/ exists n, py_int part = Some n /\ 255 < n.

(** [ends L data lp p r]: the loops of [parse], standing at [lp] with the
    parser [p], end with the outcome [r]. *)
Definition ends (L : Libs) (data : str) (lp : loop_point) (p : UrlParser)
    (r : parse_result) : Prop :=
  exists fuel, run L fuel data lp p = Some r.

(** The outcome of the loops when no handler moves the pointer: every code
    point of [rest] is handed to the handler of the current state, then the
    end of the input. *)
Fixpoint feed (L : Libs) (rest : str) (p : UrlParser) : parse_result :=
  match rest with
  | x :: rest' =>
      match handler L (_state p) (Some x) rest' p with
      | Normal p' => feed L rest' (move 1 p')
      | _UrlParserReturn p' => Returned p'
      | UrlParserError => Failed
      | PyError => Crashed
      end
  | [] =>
      match handler L (_state p) None [] p with
      | Normal p' => Returned (move 1 p')
      | _UrlParserReturn p' => Returned p'
      | UrlParserError => Failed
      | PyError => Crashed
      end
  end.

(** The states that read the rest of a URL without a host. *)
Definition tail_state (s : ParserState) : bool :=
  match s with
  | PATH | CANNOT_BE_BASE_URL | QUERY | FRAGMENT => true
  | _ => false
  end.

Definition tail_ok (p : UrlParser) : Prop :=
  state_override p = None
  /\ in_special (scheme (url p)) = false
  /\ tail_state (_state p) = true.

(** The outcome that a handler call which does not fall off its end gives
    the run. *)
Definition leaves (s : signal) (r : parse_result) : Prop :=
  match s with
  | Normal _ => False
  | _UrlParserReturn p => r = Returned p
  | UrlParserError => r = Failed
  | PyError => r = Crashed
  end.

Definition ends_after (L : Libs) (data : str) (s : signal) (r : parse_result)
    : Prop :=
  match s with
  | Normal p' => ends L data InnerTest (move 1 p') r
  | _ => leaves s r
  end.

(** The parser of [parse_url] with no base before the first handler call,
    and while it reads the scheme: [pre] is the part of the input read so
    far. *)
Definition start_at (enc : str) (ve : bool) : UrlParser :=
  mkParser Url_default None enc None ve SCHEME_START 0 [] false false false.

Definition scheme_at (enc : str) (ve : bool) (pre : str) : UrlParser :=
  mkParser Url_default None enc None ve SCHEME (Z.of_nat (length pre))
           (map ascii_lower pre) false false false.

Definition special_inv (p : UrlParser) : Prop :=
  8 <= state_value (_state p) /\ in_special (scheme (url p)) = true.

Definition past_host (s : ParserState) : bool :=
  match s with
  | PORT | PATH_START | PATH | QUERY | FRAGMENT => true
  | _ => false
  end.

Definition before_host (s : ParserState) : bool :=
  match s with
  | SPECIAL_AUTHORITY_SLASHES | SPECIAL_AUTHORITY_IGNORE_SLASHES
  | AUTHORITY | HOST => true
  | _ => false
  end.

Definition host_known (p : UrlParser) : Prop :=
  state_override p = None
  /\ opt_is (scheme (url p)) "file" = false
  /\ past_host (_state p) = true
  /\ hostname (url p) <> None.

(** The end of a path segment when the scheme is not [file]: no drive
    letter, and [shorten_url_path] drops the last segment. *)
Definition path_flush_plain (slash : bool) (p : UrlParser) : UrlParser :=
  if str_in (_buffer p) DOUBLE_DOT_PATH_SEGMENTS then
    let p := on_url (fun u => with_path (removelast (_path u)) u) p in
    if negb slash then on_url (fun u => with_path (_path u ++ [[]]) u) p else p
  else if str_in (_buffer p) SINGLE_DOT_PATH_SEGMENTS && negb slash then
    on_url (fun u => with_path (_path u ++ [[]]) u) p
  else if negb (str_in (_buffer p) SINGLE_DOT_PATH_SEGMENTS) then
    on_url (fun u => with_path (_path u ++ [_buffer p]) u) p
  else p.

(** In the states before the host the pointer never runs past the end of
    the input, so the loops cannot end before the host is parsed. *)
Definition host_bound (data : str) (lp : loop_point) (p : UrlParser) : Prop :=
  host_known p
  \/ (state_override p = None /\ opt_is (scheme (url p)) "file" = false
      /\ before_host (_state p) = true
      /\ match lp with
         | InnerTest => _pointer p <= Z.of_nat (length data)
         | OuterTest => _pointer p < Z.of_nat (length data)
         end).

Definition path_start_at (enc : str) (ve : bool) (sch : str) (ptr : Z)
    : UrlParser :=
  mkParser (mkUrl (Some sch) None None None None None None [] false)
           None enc None ve PATH ptr [] false false false.

Definition cbb_start_at (enc : str) (ve : bool) (sch : str) (ptr : Z)
    : UrlParser :=
  mkParser (mkUrl (Some sch) None None None None None None [[]] true)
           None enc None ve CANNOT_BE_BASE_URL ptr [] false false false.

Definition scheme_text (pre : str) : Prop :=
  exists a mid, pre = a :: mid /\ mem a ASCII_ALPHA = true
                /\ Forall (fun x => mem x SCHEME_CHARS = true) mid.

(** What percent-encoding writes: [%] and upper-case hexadecimal digits. *)
Definition escape_char (x : codepoint) : bool :=
  (x =? 37) || ((48 <=? x) && (x <=? 57)) || ((65 <=? x) && (x <=? 70)).

(** The code points that the path state leaves as they are. *)
Definition path_char (x : codepoint) : bool :=
  (x <=? 0x7e) && negb (mem x PATH_PERCENT_ENCODE) && negb (x =? 47).

Definition segment_ok (seg : str) : bool :=
  forallb path_char seg
  && negb (str_in seg DOUBLE_DOT_PATH_SEGMENTS)
  && negb (str_in seg SINGLE_DOT_PATH_SEGMENTS).

Definition query_char (x : codepoint) : bool :=
  (0x21 <=? x) && (x <=? 0x7e)
  && negb ((x =? 0x22) || (x =? 0x23) || (x =? 0x3c) || (x =? 0x3e)).

Definition fragment_char (x : codepoint) : bool :=
  (x <=? 0x7e) && negb (mem x FRAGMENT_PERCENT_ENCODE).

(** The code points that the cannot-be-a-base-URL state leaves as they
    are. *)
Definition opaque_char (x : codepoint) : bool :=
  (x <=? 0x7e) && negb (mem x C0_PERCENT_ENCODE)
  && negb (x =? 63) && negb (x =? 35).

Definition opt_forall (f : codepoint -> bool) (o : option str) : bool :=
  match o with Some s => forallb f s | None => true end.

(** The URL records with a scheme that is not special and no host that
    [parse] returns when it is given no base. *)
Definition hostless_shape (u : Url) : Prop :=
  (exists sch, scheme u = Some sch /\ scheme_text sch
               /\ map ascii_lower sch = sch
               /\ in_special (Some sch) = false)
  /\ hostname u = None /\ port u = None
  /\ username u = None /\ password u = None
  /\ opt_forall query_char (query u) = true
  /\ opt_forall fragment_char (fragment u) = true
  /\ if cannot_be_base_url u then
       exists s, _path u = [s] /\ forallb opaque_char s = true
                 /\ startswith s (lit "/") = false
                 /\ (query u = None -> fragment u = None -> last s 0 <> 32)
     else _path u <> [] /\ forallb segment_ok (_path u) = true.

Definition scheme_ok (u : Url) : Prop :=
  exists sch, scheme u = Some sch /\ scheme_text sch
              /\ map ascii_lower sch = sch
              /\ in_special (Some sch) = false.

Definition no_authority (u : Url) : Prop :=
  hostname u = None /\ port u = None
  /\ username u = None /\ password u = None.

Definition path_done (u : Url) : Prop :=
  if cannot_be_base_url u then
    exists s, _path u = [s] /\ forallb opaque_char s = true
              /\ startswith s (lit "/") = false
  else _path u <> [] /\ forallb segment_ok (_path u) = true.

(** [rest] is the input that is still to be read. *)
Definition tail_shape (rest : str) (p : UrlParser) : Prop :=
  state_override p = None /\ scheme_ok (url p) /\ no_authority (url p)
  /\ match _state p with
     | PATH =>
         cannot_be_base_url (url p) = false
         /\ query (url p) = None /\ fragment (url p) = None
         /\ forallb segment_ok (_path (url p)) = true
         /\ forallb path_char (_buffer p) = true
     | CANNOT_BE_BASE_URL =>
         cannot_be_base_url (url p) = true
         /\ query (url p) = None /\ fragment (url p) = None
         /\ exists s, _path (url p) = [s] /\ forallb opaque_char s = true
                      /\ startswith s (lit "/") = false
                      /\ (s = [] -> startswith rest (lit "/") = false)
                      /\ (rest = [] -> last s 0 <> 32)
     | QUERY =>
         (exists q, query (url p) = Some q /\ forallb query_char q = true)
         /\ fragment (url p) = None /\ path_done (url p)
     | FRAGMENT =>
         opt_forall query_char (query (url p)) = true
         /\ (exists f, fragment (url p) = Some f
                       /\ forallb fragment_char f = true)
         /\ path_done (url p)
     | _ => False
     end.

(** The outcome is a returned parser whose record is [u]. *)
Definition returns (r : parse_result) (u : Url) : Prop :=
  match r with Returned q => url q = u | _ => False end.

Definition query_text (o : option str) : str :=
  match o with Some q => 63 :: q | None => [] end.

Definition fragment_text (o : option str) : str :=
  match o with Some f => 35 :: f | None => [] end.

(** [visible_end l]: [l] does not end with a C0 control or a space. *)
Definition visible_end (l : str) : Prop :=
  l <> [] -> _is_c0_control_or_space (last l 0) = false.



(** A cannot-be-a-base URL has the one path segment that [path] reads, and
    a port is a 16-bit number. *)
Definition url_ok (u : Url) : Prop :=
  (cannot_be_base_url u = true -> _path u <> [])
  /\ (forall n, port u = Some n -> 0 <= n <= 65535).

Definition base_ok (b : option Url) : Prop :=
  match b with Some bu => url_ok bu | None => True end.

(** The invariant of the loops behind [url_ok]: what a state appends to is
    there, and only the last three states see a cannot-be-a-base URL. *)
Definition attributes_ready (p : UrlParser) : Prop :=
  (_state p = QUERY -> query (url p) <> None)
  /\ (_state p = FRAGMENT -> fragment (url p) <> None)
  /\ (_state p = CANNOT_BE_BASE_URL -> cannot_be_base_url (url p) = true)
  /\ (cannot_be_base_url (url p) = true ->
      _state p = CANNOT_BE_BASE_URL \/ _state p = QUERY \/ _state p = FRAGMENT).

Definition ready_inv (p : UrlParser) : Prop :=
  state_override p = None /\ base_ok (base p) /\ url_ok (url p)
  /\ attributes_ready p.

(** Once the scheme state is left with no base to fall back on, the scheme
    stays what it is; only the file state writes it again, and that state
    is only entered with the scheme [file]. *)
Definition scheme_kept (sch : str) (p : UrlParser) : Prop :=
  base p = None
  /\ 4 <= state_value (_state p)
  /\ scheme (url p) = Some sch
  /\ (_state p = FILE -> sch = lit "file").

(** The states before the scheme is known, and the [file] states. *)
Definition fresh_state (s : ParserState) : bool :=
  match s with
  | SCHEME_START | SCHEME | NO_SCHEME | FILE | FILE_SLASH | FILE_HOST => true
  | _ => false
  end.

(** The states before the scheme is known, and those that read an authority
    or take one from the base. *)
Definition authority_route (s : ParserState) : bool :=
  match s with
  | SCHEME_START | SCHEME | NO_SCHEME
  | SPECIAL_RELATIVE_OR_AUTHORITY | PATH_OR_AUTHORITY | RELATIVE
  | RELATIVE_SLASH | SPECIAL_AUTHORITY_SLASHES
  | SPECIAL_AUTHORITY_IGNORE_SLASHES | AUTHORITY | HOST | HOSTNAME | PORT => true
  | _ => false
  end.

Definition bare (u : Url) : Prop :=
  port u = None /\ username u = None /\ password u = None.

Definition file_inv (p : UrlParser) : Prop :=
  state_override p = None
  /\ (fresh_state (_state p) = true -> bare (url p))
  /\ (authority_route (_state p) = true ->
      opt_is (scheme (url p)) "file" = false)
  /\ (_state p = RELATIVE \/ _state p = SPECIAL_RELATIVE_OR_AUTHORITY ->
      forall b, base p = Some b -> opt_is (scheme b) "file" = false)
  /\ (opt_is (scheme (url p)) "file" = true -> bare (url p)).

Definition same_userinfo (u v : Url) : Prop :=
  username v = username u /\ password v = password u.

(** * Properties *)

(** ** Equality tests *)

Lemma str_eqb_eq (a b : str) : str_eqb a b = true <-> a = b.
Proof.
  revert b; induction a as [|x a IH]; intros [|y b]; simpl; split;
    try congruence; try reflexivity.
  - intros H. apply andb_true_iff in H as [H1 H2].
    apply Z.eqb_eq in H1. apply IH in H2. congruence.
  - intros H. injection H as -> ->. rewrite Z.eqb_refl. simpl. now apply IH.
Qed.

Lemma str_eqb_refl (a : str) : str_eqb a a = true.
Proof. now apply str_eqb_eq. Qed.

Lemma mem_In (x : codepoint) (S : list codepoint) : mem x S = true <-> In x S.
Proof.
  unfold mem. rewrite existsb_exists. split.
  - intros [y [Hy He]]. apply Z.eqb_eq in He. now subst.
  - intros H. exists x. split; [assumption | apply Z.eqb_refl].
Qed.

Lemma has_forbidden_In (s : str) :
  has_forbidden s = true <->
  exists c, In c s /\ In c FORBIDDEN_HOST_CODE_POINTS.
Proof.
  unfold has_forbidden. rewrite existsb_exists.
  split; intros [c [H1 H2]]; exists c; split; try assumption; now apply mem_In.
Qed.

(** ** Case analysis on handlers *)

Ltac unfold_handlers :=
  unfold handler, _on_scheme_start, _on_scheme, _on_no_scheme,
    _on_special_relative_or_authority, _on_path_or_authority, _on_relative,
    _on_relative_slash, _on_special_authority_slashes,
    _on_special_authority_ignore_slashes, _on_authority, _on_host_or_hostname,
    _on_port, _on_file, _on_file_slash, _on_file_host, _on_path_start, _on_path,
    _on_cannot_be_base_url, _on_query, _on_fragment in *.

Ltac unfold_updates :=
  unfold flag_error_if, flag_error, on_url, move, overridden, state_override_is,
    with_host, or_raise, copy_authority, copy_file_base,
    set_url, set_encoding, set_validation_error, set_state, set_pointer,
    set_buffer, set_at_flag, set_square_brace_flag,
    set_password_token_seen_flag,
    with_scheme, with_hostname, with_port, with_username, with_password,
    with_query, with_fragment, with_path, with_cannot_be_base_url in *.

Ltac proj :=
  cbn [url base encoding state_override validation_error _state
       _pointer _buffer _at_flag _square_brace_flag _password_token_seen_flag
       scheme hostname port username password query fragment _path
       cannot_be_base_url] in *.

Ltac atomic b :=
  lazymatch b with
  | context [if _ then _ else _] => fail
  | context [match _ with _ => _ end] => fail
  | _ => idtac
  end.

(** Split on the innermost test of the goal or of a hypothesis about a
    handler's result. *)
Ltac split_on x := tryif is_var x then destruct x else destruct x eqn:?.
Ltac brk :=
  match goal with
  | |- context [if ?b then _ else _] => atomic b; split_on b
  | |- context [match ?x with _ => _ end] => atomic x; split_on x
  | H : context [if ?b then _ else _] |- _ => atomic b; split_on b
  | H : context [match ?x with _ => _ end] |- _ => atomic x; split_on x
  end.

(** Split on the innermost test of a hypothesis. *)
Ltac brk_in H :=
  match type of H with
  | context [if ?b then _ else _] => atomic b; split_on b
  | context [match ?x with _ => _ end] => atomic x; split_on x
  end.

Ltac inv_signal :=
  match goal with
  | H : Normal _ = Normal _ |- _ => injection H; clear H; intros; subst
  | H : _UrlParserReturn _ = _UrlParserReturn _ |- _ =>
      injection H; clear H; intros; subst
  | H : Normal _ = _ |- _ => discriminate H
  | H : _UrlParserReturn _ = _ |- _ => discriminate H
  | H : UrlParserError = _ |- _ => discriminate H
  | H : PyError = _ |- _ => discriminate H
  | H : Some _ = Some _ |- _ => injection H; clear H; intros; subst
  | H : Some _ = None |- _ => discriminate H
  | H : None = Some _ |- _ => discriminate H
  end.

Lemma authority_loop_control chars : forall p q,
  authority_loop chars p = Some q ->
  same_control p q /\ _buffer q = _buffer p
  /\ validation_error q = validation_error p.
Proof.
  induction chars as [|ch rest IH]; intros p q H; cbn [authority_loop] in H.
  - inv_signal. unfold same_control. tauto.
  - repeat brk; try inv_signal; apply IH in H;
      destruct p as [u b enc so ve st ptr buf af sq pw];
      unfold same_control in *; unfold_updates; proj; tauto.
Qed.

Lemma path_drive_letter_control p :
  same_control p (path_drive_letter p).
Proof.
  destruct p as [u b enc so ve st ptr buf af sq pw].
  unfold path_drive_letter, same_control; unfold_updates; proj.
  repeat brk; proj; tauto.
Qed.

Lemma path_flush_control slash p : same_control p (path_flush slash p).
Proof.
  unfold path_flush.
  pose proof (path_drive_letter_control p) as Hd.
  destruct (path_drive_letter p) as [u' b' enc' so' ve' st' ptr' buf' af' sq' pw'].
  destruct p as [u b enc so ve st ptr buf af sq pw].
  unfold same_control in *; unfold_updates; proj.
  repeat brk; proj; tauto.
Qed.

Lemma path_trim_file_control c p : same_control p (path_trim_file c p).
Proof.
  destruct p as [u b enc so ve st ptr buf af sq pw].
  unfold path_trim_file, same_control; unfold_updates; proj.
  repeat brk; proj; tauto.
Qed.

Lemma path_trim_file_buffer c p : _buffer (path_trim_file c p) = _buffer p.
Proof.
  destruct p as [u b enc so ve st ptr buf af sq pw].
  unfold path_trim_file; unfold_updates; proj.
  repeat brk; proj; reflexivity.
Qed.

Ltac split_ands :=
  repeat match goal with
  | H : _ && _ = true |- _ => apply andb_true_iff in H; destruct H
  | H : _ /\ _ |- _ => destruct H
  end.

Lemma startswith_nonempty r (s : string) :
  startswith r (lit s) = true -> lit s <> [] -> r <> [].
Proof. intros H Hs ->. destruct (lit s); [congruence | discriminate]. Qed.

Ltac progress_goal :=
  unfold rewind_ok, buffer_free in *; proj; split_ands;
  repeat match goal with
  | H : ?a = ?a -> _ |- _ => specialize (H eq_refl)
  end;
  subst;
  repeat match goal with
  | H : startswith ?r (lit "/") = true |- _ =>
      first [ is_var r; destruct r; [simpl in H; discriminate H | clear H]
            | simpl in H; discriminate H
            | clear H ]
  end;
  repeat split; intros; split_ands; cbn [length];
  try discriminate; try reflexivity; try congruence;
  try lia; try (left; split; [reflexivity | lia]); try (right; cbn; lia).

Lemma handler_progress L c r p p' :
  rewind_ok p ->
  handler L (_state p) c r p = Normal p' ->
  rewind_ok (move 1 p')
  /\ _pointer p' <= _pointer p + match r with [] => 0 | _ => 1 end
  /\ ((_state p' = _state p /\ _pointer p <= _pointer p')
      \/ state_value (_state p) < state_value (_state p')).
Proof.
  intros Hinv H.
  destruct (_state p) eqn:Hst; cbn [handler] in H.
  18: {
    unfold _on_path in H.
    repeat match type of H with
    | context [if ?b then _ else _] => destruct b eqn:?
    end.
    all: try (destruct c; [|discriminate H]; unfold or_raise in H;
              destruct (percent_encode _ _); [|discriminate H]).
    all: inv_signal.
    all: try match goal with
      |- context [path_trim_file ?c ?x] =>
        pose proof (path_trim_file_control c x);
        destruct (path_trim_file c x);
        match goal with
        | H : context [path_flush ?s ?y] |- _ =>
            pose proof (path_flush_control s y);
            destruct (path_flush s y)
        end
      end.
    all: destruct p as [u b enc so ve st ptr buf af sq pw];
      unfold same_control in *; unfold_updates; proj; subst.
    all: repeat (brk; proj); split_ands; subst; progress_goal.
    all: rewrite length_app; cbn; lia.
  }
  all: destruct p as [u b enc so ve st ptr buf af sq pw];
    unfold_handlers; unfold_updates; proj; subst.
  10: {
    repeat (brk_in H; proj); try inv_signal; proj;
    try match goal with
    | H : authority_loop _ _ = Some ?q |- _ =>
        apply authority_loop_control in H; unfold same_control in H;
        tryif is_var q then destruct q else idtac; proj; split_ands; subst
    end;
    repeat (brk; proj);
    progress_goal; try (rewrite length_app; destruct c; cbn; lia).
  }
  all: repeat (brk_in H; proj); try inv_signal; proj; repeat (brk; proj);
    progress_goal.
Qed.

(** ** Termination of the driver *)

Lemma state_value_bounds s : 1 <= state_value s <= 21.
Proof. destruct s; cbn; lia. Qed.

Lemma py_slice_from_nonempty data i x rest :
  0 <= i -> py_slice_from data i = x :: rest ->
  i < Z.of_nat (length data).
Proof.
  unfold py_slice_from. intros Hi H.
  destruct (i <? 0) eqn:E; [apply Z.ltb_lt in E; lia|].
  destruct (Z_lt_ge_dec i (Z.of_nat (length data))) as [Hlt|Hge]; [assumption|].
  rewrite skipn_all2 in H by lia. discriminate.
Qed.

Lemma measure_step n sv sv' ptr ptr' :
  1 <= sv <= 21 -> 1 <= sv' <= 21 ->
  0 <= n -> 0 <= ptr <= n + 1 -> 0 <= ptr' <= n + 1 ->
  (sv' = sv /\ ptr + 1 <= ptr') \/ sv < sv' ->
  (21 - sv') * (n + 2) + (n + 1 - ptr') + 1
  <= (21 - sv) * (n + 2) + (n + 1 - ptr).
Proof.
  intros Hs Hs' Hn Hp Hp' [[-> H]|H]; [lia|].
  assert ((21 - sv') * (n + 2) <= (21 - sv - 1) * (n + 2))
    by (apply Z.mul_le_mono_nonneg_r; lia).
  lia.
Qed.

Lemma tick_decreases L data lp p lp' p' :
  run_inv (Z.of_nat (length data)) p ->
  tick L data lp p = Running lp' p' ->
  run_inv (Z.of_nat (length data)) p'
  /\ 0 <= loop_measure (Z.of_nat (length data)) lp' p'
          < loop_measure (Z.of_nat (length data)) lp p.
Proof.
  set (n := Z.of_nat (length data)).
  assert (Hn : 0 <= n) by (unfold n; lia).
  intros [Hok Hle] H.
  assert (Hptr : 0 <= _pointer p) by (destruct Hok; assumption).
  pose proof (state_value_bounds (_state p)) as Hsv.
  unfold tick in H. fold n in H.
  destruct lp.
  - destruct ((_pointer p <? n) || ((n =? 0) && (_pointer p =? 0))) eqn:Hc;
      [|discriminate].
    destruct (0 <? n) eqn:Hpos.
    + apply Z.ltb_lt in Hpos.
      assert (Hlt : _pointer p < n).
      { apply orb_true_iff in Hc as [Hc|Hc]; [now apply Z.ltb_lt in Hc|].
        apply andb_true_iff in Hc as [Hc _]. apply Z.eqb_eq in Hc. lia. }
      destruct (py_index data (_pointer p)); [|discriminate].
      destruct (handler L (_state p) (Some c)
                  (py_slice_from data (_pointer p + 1)) p) eqn:Hh;
        try discriminate.
      cbn [after_call] in H. injection H as <- <-.
      destruct (handler_progress _ _ _ _ _ Hok Hh) as [Hok' [Hup Hprog]].
      assert (Hup' : _pointer p0 + 1 <= n).
      { destruct (py_slice_from data (_pointer p + 1)) eqn:Hs; [lia|].
        apply py_slice_from_nonempty in Hs; [fold n in Hs; lia | lia]. }
      pose proof (state_value_bounds (_state p0)) as Hsv'.
      assert (Hq : _pointer (move 1 p0) = _pointer p0 + 1)
        by (destruct p0; reflexivity).
      assert (Hqs : _state (move 1 p0) = _state p0) by (destruct p0; reflexivity).
      assert (Hq0 : 0 <= _pointer (move 1 p0)) by (destruct Hok'; assumption).
      split; [split; [assumption | lia]|].
      unfold loop_measure. rewrite Hq, Hqs.
      pose proof (measure_step n (state_value (_state p))
                    (state_value (_state p0)) (_pointer p) (_pointer p0 + 1)
                    Hsv Hsv' Hn) as Hm.
      assert (Hstep : (state_value (_state p0) = state_value (_state p)
                       /\ _pointer p + 1 <= _pointer p0 + 1)
                      \/ state_value (_state p) < state_value (_state p0)).
      { destruct Hprog as [[E1 E2]|E]; [left; rewrite E1; lia | right; lia]. }
      specialize (Hm ltac:(lia) ltac:(lia) Hstep).
      assert (0 <= (21 - state_value (_state p0)) * (n + 2))
        by (apply Z.mul_nonneg_nonneg; lia).
      destruct ((n =? 0) && (_pointer p =? 0)); lia.
    + apply Z.ltb_ge in Hpos. assert (n = 0) by lia.
      injection H as <- <-.
      assert (_pointer p = 0).
      { apply orb_true_iff in Hc as [Hc|Hc]; [apply Z.ltb_lt in Hc; lia|].
        apply andb_true_iff in Hc as [_ Hc]. now apply Z.eqb_eq in Hc. }
      split; [split; assumption|].
      unfold loop_measure.
      assert (0 <= (21 - state_value (_state p)) * (n + 2))
        by (apply Z.mul_nonneg_nonneg; lia).
      replace ((n =? 0) && (_pointer p =? 0)) with true
        by (symmetry; apply andb_true_iff; split; apply Z.eqb_eq; assumption).
      lia.
  - destruct (_pointer p =? n) eqn:Hc.
    + apply Z.eqb_eq in Hc.
      destruct (handler L (_state p) None [] p) eqn:Hh; try discriminate.
      cbn [after_call] in H. injection H as <- <-.
      destruct (handler_progress _ _ _ _ _ Hok Hh) as [Hok' [Hup Hprog]].
      pose proof (state_value_bounds (_state p0)) as Hsv'.
      assert (Hq : _pointer (move 1 p0) = _pointer p0 + 1)
        by (destruct p0; reflexivity).
      assert (Hqs : _state (move 1 p0) = _state p0) by (destruct p0; reflexivity).
      assert (Hq0 : 0 <= _pointer (move 1 p0)) by (destruct Hok'; assumption).
      split; [split; [assumption | lia]|].
      unfold loop_measure. rewrite Hq, Hqs.
      pose proof (measure_step n (state_value (_state p))
                    (state_value (_state p0)) (_pointer p) (_pointer p0 + 1)
                    Hsv Hsv' Hn) as Hm.
      assert (Hstep : (state_value (_state p0) = state_value (_state p)
                       /\ _pointer p + 1 <= _pointer p0 + 1)
                      \/ state_value (_state p) < state_value (_state p0)).
      { destruct Hprog as [[E1 E2]|E]; [left; rewrite E1; lia | right; lia]. }
      specialize (Hm ltac:(lia) ltac:(lia) Hstep).
      assert (0 <= (21 - state_value (_state p0)) * (n + 2))
        by (apply Z.mul_nonneg_nonneg; lia).
      lia.
    + apply Z.eqb_neq in Hc. injection H as <- <-.
      split; [split; assumption|].
      unfold loop_measure.
      assert (0 <= (21 - state_value (_state p)) * (n + 2))
        by (apply Z.mul_nonneg_nonneg; lia).
      destruct ((n =? 0) && (_pointer p =? 0)) eqn:E; [|lia].
      apply andb_true_iff in E as [E1 E2].
      apply Z.eqb_eq in E1, E2. lia.
Qed.

Lemma run_within_measure L data : forall fuel lp p,
  run_inv (Z.of_nat (length data)) p ->
  loop_measure (Z.of_nat (length data)) lp p < Z.of_nat fuel ->
  exists r, run L fuel data lp p = Some r.
Proof.
  induction fuel as [|fuel IH]; intros lp p Hinv Hm.
  - exfalso.
    assert (0 <= loop_measure (Z.of_nat (length data)) lp p).
    { destruct Hinv as [[H0 _] H1].
      pose proof (state_value_bounds (_state p)).
      unfold loop_measure.
      assert (0 <= (21 - state_value (_state p)) * (Z.of_nat (length data) + 2))
        by (apply Z.mul_nonneg_nonneg; lia).
      destruct lp; [destruct (_ && _)|]; lia. }
    lia.
  - cbn [run]. destruct (tick L data lp p) eqn:Ht.
    + destruct (tick_decreases _ _ _ _ _ _ Hinv Ht) as [Hinv' Hdec].
      apply IH; [assumption | lia].
    + eexists; reflexivity.
Qed.

Lemma run_more_fuel L data : forall fuel fuel' lp p r,
  run L fuel data lp p = Some r -> (fuel <= fuel')%nat ->
  run L fuel' data lp p = Some r.
Proof.
  induction fuel as [|fuel IH]; intros fuel' lp p r H Hle; [discriminate|].
  destruct fuel' as [|fuel']; [lia|].
  cbn [run] in *. destruct (tick L data lp p); [|assumption].
  apply IH with (fuel' := fuel') in H; [assumption | lia].
Qed.

Lemma parse_start_inv p data enc override :
  let '(d, p0) := parse_start p data enc override in
  run_inv (Z.of_nat (length d)) p0
  /\ (loop_measure (Z.of_nat (length d)) OuterTest p0
      < Z.of_nat (parse_fuel d)).
Proof.
  unfold parse_start. destruct (preprocess data) as [d err].
  set (n := Z.of_nat (length d)).
  assert (Hn : 0 <= n) by (unfold n; lia).
  destruct p as [u b e so ve st ptr buf af sq pw].
  unfold reset, flag_error_if, flag_error, set_encoding, set_validation_error.
  cbn [url base encoding state_override validation_error _state _pointer
       _buffer _at_flag _square_brace_flag _password_token_seen_flag].
  assert (Hgoal : forall q, _pointer q = 0 -> _buffer q = [] ->
            run_inv n q /\ loop_measure n OuterTest q < Z.of_nat (parse_fuel d)).
  { intros q Hq Hb. split.
    - unfold run_inv, rewind_ok. rewrite Hq, Hb. cbn [length].
      repeat split; intros; try reflexivity; lia.
    - unfold loop_measure, parse_fuel. fold n. rewrite Hq.
      pose proof (state_value_bounds (_state q)).
      rewrite Z2Nat.id by lia.
      assert ((21 - state_value (_state q)) * (n + 2) <= 20 * (n + 2))
        by (apply Z.mul_le_mono_nonneg_r; lia).
      destruct ((n =? 0) && (0 =? 0)); lia. }
  destruct err; apply Hgoal; reflexivity.
Qed.

Lemma parse_total L p data enc override :
  exists r, parse L p data enc override = Some r.
Proof.
  unfold parse. pose proof (parse_start_inv p data enc override) as H.
  destruct (parse_start p data enc override) as [d p0].
  destruct H as [Hinv Hm]. now apply run_within_measure.
Qed.

(** ** What the blocks of the handlers leave of the URL *)

Lemma authority_loop_url chars : forall p q,
  authority_loop chars p = Some q ->
  same_scheme_port (url p) (url q)
  /\ hostname (url q) = hostname (url p) /\ _path (url q) = _path (url p).
Proof.
  induction chars as [|ch rest IH]; intros p q H; cbn [authority_loop] in H.
  - inv_signal. unfold same_scheme_port. tauto.
  - repeat brk_in H; try inv_signal; apply IH in H;
      destruct p as [u b enc so ve st ptr buf af sq pw]; destruct u;
      unfold same_scheme_port in *; unfold_updates; proj; tauto.
Qed.

Lemma shorten_url_path_scheme_port u :
  same_scheme_port u (shorten_url_path u)
  /\ hostname (shorten_url_path u) = hostname u.
Proof.
  destruct u. unfold shorten_url_path, same_scheme_port; unfold_updates; proj.
  repeat (brk; proj); tauto.
Qed.

Lemma path_drive_letter_url p :
  same_scheme_port (url p) (url (path_drive_letter p))
  /\ _path (url (path_drive_letter p)) = _path (url p).
Proof.
  destruct p as [u b enc so ve st ptr buf af sq pw]; destruct u.
  unfold path_drive_letter, same_scheme_port; unfold_updates; proj.
  repeat (brk; proj); tauto.
Qed.

Lemma path_flush_url slash p :
  same_scheme_port (url p) (url (path_flush slash p)).
Proof.
  unfold path_flush.
  pose proof (path_drive_letter_url p) as [Hd _].
  destruct (path_drive_letter p) as [u' b' enc' so' ve' st' ptr' buf' af' sq' pw'].
  destruct p as [u b enc so ve st ptr buf af sq pw].
  proj.
  pose proof (shorten_url_path_scheme_port u) as [Hs _].
  unfold_updates; proj.
  destruct (shorten_url_path u), u, u'.
  unfold same_scheme_port in *; proj.
  repeat (brk; proj); tauto.
Qed.

Lemma path_trim_file_url c p :
  same_scheme_port (url p) (url (path_trim_file c p))
  /\ hostname (url (path_trim_file c p)) = hostname (url p).
Proof.
  destruct p as [u b enc so ve st ptr buf af sq pw]; destruct u.
  unfold path_trim_file, same_scheme_port; unfold_updates; proj.
  repeat (brk; proj); tauto.
Qed.

(** ** The stored port is never the default port *)

Lemma port_ok_none u : port u = None -> port_ok u.
Proof. intros H n Hn. congruence. Qed.

Lemma port_ok_same u v :
  scheme v = scheme u -> port v = port u -> port_ok u -> port_ok v.
Proof. intros Hs Hp H n Hn. rewrite Hs. apply H. congruence. Qed.

Lemma port_ok_file u : opt_is (scheme u) "file" = true -> port_ok u.
Proof.
  unfold opt_is. destruct (scheme u) as [s|] eqn:E; [|discriminate].
  intros H n _. apply str_eqb_eq in H. subst s. unfold special_get.
  rewrite E. cbn. discriminate.
Qed.

Lemma opt_Z_eqb_eq a b : opt_Z_eqb a b = true <-> a = b.
Proof.
  destruct a, b; cbn; split; try congruence; try reflexivity.
  - intros H. apply Z.eqb_eq in H. congruence.
  - intros H. injection H as ->. apply Z.eqb_refl.
Qed.

Ltac port_goal :=
  unfold port_inv, port_ok, base_port_ok in *; proj; split_ands; subst;
  repeat split; intros; proj;
  try congruence; try tauto; try (eauto; fail).

Lemma handler_port_inv L c r p q :
  port_inv p ->
  result_of (handler L (_state p) c r p) = Some q ->
  port_inv q.
Proof.
  intros Hinv H.
  destruct (_state p) eqn:Hst; cbn [handler] in H.
  18: {
    assert (Hq : (scheme (url q) = scheme (url p)
                  /\ port (url q) = port (url p)) /\ base q = base p
                 /\ state_override q = state_override p
                 /\ state_value (_state q) >= 18).
    { unfold _on_path in H.
      repeat match type of H with
      | context [if ?b then _ else _] => destruct b eqn:?
      end.
      all: try (destruct c; [|discriminate H]; unfold or_raise in H;
                destruct (percent_encode _ _); [|discriminate H]).
      all: cbn [result_of] in H; inv_signal.
      all: try match goal with
        |- context [path_trim_file ?c ?x] =>
          pose proof (path_trim_file_control c x);
          pose proof (path_trim_file_url c x) as [? _];
          destruct (path_trim_file c x);
          match goal with
          | H : context [path_flush ?s ?y] |- _ =>
              pose proof (path_flush_control s y);
              pose proof (path_flush_url s y);
              destruct (path_flush s y)
          end
        end.
      all: destruct p as [u b enc so ve st ptr buf af sq pw];
        unfold same_control, same_scheme_port in *; unfold_updates; proj; subst.
      all: repeat (brk; proj); split_ands; subst; proj;
        repeat match goal with u : Url |- _ => destruct u end; proj;
        repeat split; try congruence; cbn; lia. }
    destruct Hq as [[Hs Hp] [Hb [Ho Hv]]].
    destruct Hinv as [I1 [I2 [I3 _]]].
    unfold port_inv. rewrite Ho, Hb. repeat split; try assumption.
    - eapply port_ok_same; eassumption.
    - destruct (_state q); cbn in Hv; try lia; exact I.
  }
  all: destruct p as [u b enc so ve st ptr buf af sq pw]; destruct u;
    unfold_handlers; unfold_updates; proj; subst.
  all: repeat (brk_in H; proj); cbn [result_of] in H; try inv_signal; proj.
  all: try match goal with
    | H : authority_loop _ _ = Some ?q |- _ =>
        pose proof (authority_loop_control _ _ _ H) as Hc;
        apply authority_loop_url in H; unfold same_control in Hc;
        unfold same_scheme_port in H; proj; split_ands
    end.
  all: repeat match goal with u : Url |- _ => destruct u end; proj.
  all: try match goal with
    | |- context [shorten_url_path ?u] =>
        destruct (shorten_url_path_scheme_port u) as [[Hs [Hp _]] _];
        destruct (shorten_url_path u); proj
    end.
  all: port_goal.
  all: try (cbn; discriminate).
  all: try match goal with
    | H : forall n, ?pt = Some n -> _ |- _ <> Some ?m => apply H; congruence
    end.
  all: try match goal with
    | H : opt_Z_eqb (Some ?n) ?d = false |- ?d <> Some ?m =>
        intros E; rewrite E in H;
        assert (m = n) by congruence; subst;
        cbn in H; rewrite Z.eqb_refl in H; discriminate
    end.
  all: try match goal with
    | H : _ \/ _ |- _ => destruct H as [H|H]; [congruence|]
    end.
  all: try match goal with
    | H : exists b, Some _ = Some b /\ _ |- _ =>
        destruct H as [b' [Hb' Hs']]; injection Hb' as <-; proj; subst
    end.
  all: try match goal with
    | H : forall n, ?pt = Some n -> _ |- _ <> Some ?m => apply H; congruence
    end.
  all: match goal with
    | H : port_ok _ |- _ => unfold port_ok in H; proj; apply H; reflexivity
    end.
Qed.

Lemma tick_port_inv L data lp p :
  port_inv p ->
  match tick L data lp p with
  | Running _ q => port_inv q
  | Finished (Returned q) => port_inv q
  | Finished _ => True
  end.
Proof.
  intros Hinv.
  assert (Hmove : forall q, port_inv q -> port_inv (move 1 q)).
  { intros q Hq. destruct q. exact Hq. }
  assert (Hcall : forall c r,
            match after_call (handler L (_state p) c r p) with
            | Running _ q => port_inv q
            | Finished (Returned q) => port_inv q
            | Finished _ => True
            end).
  { intros c r.
    pose proof (handler_port_inv L c r p) as H.
    destruct (handler L (_state p) c r p) as [q|q| |]; cbn [after_call];
      try exact I; [apply Hmove|]; apply H; try assumption; reflexivity. }
  unfold tick. destruct lp.
  - destruct (_ || _); [|assumption].
    destruct (0 <? _); [|assumption].
    destruct (py_index data (_pointer p)); [apply Hcall | exact I].
  - destruct (_ =? _); [apply Hcall | assumption].
Qed.

Lemma run_port_inv L data : forall fuel lp p q,
  port_inv p -> run L fuel data lp p = Some (Returned q) -> port_inv q.
Proof.
  induction fuel as [|fuel IH]; intros lp p q Hinv H; [discriminate|].
  cbn [run] in H. pose proof (tick_port_inv L data lp p Hinv) as Ht.
  destruct (tick L data lp p) as [lp' p'|[q'| |]].
  - eapply IH; eassumption.
  - now injection H as <-.
  - discriminate.
  - discriminate.
Qed.

Lemma parse_url_port_ok L data b enc p :
  base_port_ok b ->
  parse_url L data b enc = Some (Returned p) ->
  port_ok (url p).
Proof.
  intros Hb H. unfold parse_url, parse, parse_start in H.
  destruct (preprocess data) as [d e].
  apply run_port_inv in H; [now destruct H as [_ [_ [H _]]]|].
  destruct e; cbn; repeat split; try assumption;
    intros n Hn; discriminate.
Qed.

Lemma producible_port_ok L u : producible L u -> port_ok u.
Proof.
  induction 1 as [data enc p H|data b enc p Hb IH H].
  - eapply parse_url_port_ok; [|eassumption]. exact I.
  - eapply parse_url_port_ok; [|eassumption]. exact IH.
Qed.

Lemma py_int_snoc s x n :
  py_int s = Some n -> mem x ASCII_DIGITS = true ->
  Z.of_nat (length s) < 4300 ->
  py_int (s ++ [x]) = Some (10 * n + (x - 48)).
Proof.
  unfold py_int. intros H Hx Hlen.
  destruct s as [|y s]; [discriminate|].
  cbn [app]. destruct (forallb _ (y :: s)) eqn:E; [|discriminate].
  cbn [andb] in H. destruct (_ <=? 4300); [|discriminate].
  injection H as <-.
  change (y :: s ++ [x]) with ((y :: s) ++ [x]).
  rewrite forallb_app, E. cbn [forallb]. rewrite Hx. cbn [andb].
  replace (Z.of_nat (length ((y :: s) ++ [x])) <=? 4300) with true.
  - now rewrite fold_left_app.
  - symmetry. apply Z.leb_le. rewrite length_app. cbn [length] in *. lia.
Qed.

Lemma py_int_too_long s :
  4300 < Z.of_nat (length s) -> py_int s = None.
Proof.
  intros H. unfold py_int. destruct s as [|y s]; [reflexivity|].
  replace (Z.of_nat (length (y :: s)) <=? 4300) with false
    by (symmetry; apply Z.leb_gt; exact H).
  now rewrite andb_false_r.
Qed.

Lemma port_terminator_not_digit c p :
  port_terminator c p = true -> cin c ASCII_DIGITS = false.
Proof.
  unfold port_terminator. intros H.
  destruct c as [x|]; [|reflexivity].
  cbn [cin]. destruct (mem x ASCII_DIGITS) eqn:E; [|reflexivity].
  exfalso. apply mem_In in E.
  apply orb_true_iff in H as [H|H].
  - unfold str_in, PATH_DELIMITERS in H. cbn in H.
    cbn in E.
    repeat (destruct E as [E|E]; [subst x; discriminate H|]). exact E.
  - apply andb_true_iff in H as [H _]. cbn in H, E.
    repeat (destruct E as [E|E]; [subst x; discriminate H|]). exact E.
Qed.

(** C7: in the port state a digit is appended to the buffer; on a
    terminator the buffer is read as a base-10 integer; a buffer that
    [int] refuses (more than 4300 digits) and a value above 65535 are the
    parser error; any other value is stored unless it is the default port
    of the scheme (21 for [ftp], 70 for [gopher], 80 for [http] and [ws],
    443 for [https] and [wss]), in which case the port is absent; and no
    URL that [parse] returns stores the default port of its scheme. *)
Theorem C7_port_state_and_default_port :
  forall L,
    (forall x p,
        mem x ASCII_DIGITS = true ->
        _on_port (Some x) p = Normal (set_buffer (_buffer p ++ [x]) p))
    /\ (forall x, mem x ASCII_DIGITS = true -> py_int [x] = Some (x - 48))
    /\ (forall s x n,
          py_int s = Some n -> mem x ASCII_DIGITS = true ->
          Z.of_nat (length s) < 4300 ->
          py_int (s ++ [x]) = Some (10 * n + (x - 48)))
    /\ (forall s, 4300 < Z.of_nat (length s) -> py_int s = None)
    /\ (forall c p,
          port_terminator c p = true ->
          _buffer p <> [] ->
          py_int (_buffer p) = None ->
          _on_port c p = UrlParserError)
    /\ (forall c p n,
          port_terminator c p = true ->
          py_int (_buffer p) = Some n ->
          65535 < n ->
          _on_port c p = UrlParserError)
    /\ (forall c p n,
          state_override p = None ->
          port_terminator c p = true ->
          py_int (_buffer p) = Some n ->
          n <= 65535 ->
          _on_port c p
          = Normal
              (move (-1)
                 (set_state PATH_START
                    (set_buffer []
                       (on_url
                          (with_port
                             (if opt_Z_eqb (Some n)
                                   (special_get (scheme (url p)))
                              then None else Some n)) p)))))
    /\ (special_get (Some (lit "ftp")) = Some 21
        /\ special_get (Some (lit "gopher")) = Some 70
        /\ special_get (Some (lit "http")) = Some 80
        /\ special_get (Some (lit "https")) = Some 443
        /\ special_get (Some (lit "ws")) = Some 80
        /\ special_get (Some (lit "wss")) = Some 443
        /\ special_get (Some (lit "file")) = None
        /\ forall s, in_special s = false -> special_get s = None)
    /\ (forall u,
          producible L u ->
          forall n, port u = Some n -> special_get (scheme u) <> Some n).
Proof.
  intros L.
  assert (Hcall : forall c p,
            port_terminator c p = true -> _buffer p <> [] ->
            _on_port c p
            = match py_int (_buffer p) with
              | None => UrlParserError
              | Some n =>
                  if 65535 <? n then UrlParserError
                  else
                    (fun q => if overridden q then _UrlParserReturn q
                              else Normal (move (-1) (set_state PATH_START q)))
                      (set_buffer []
                         (on_url
                            (with_port
                               (if opt_Z_eqb (Some n)
                                     (special_get (scheme (url p)))
                                then None else Some n)) p))
              end).
  { intros c p Ht Hne. unfold _on_port.
    rewrite (port_terminator_not_digit c p Ht).
    unfold port_terminator in Ht. rewrite Ht. cbn [orb].
    assert (Hb : str_eqb (_buffer p) [] = false).
    { destruct (_buffer p); [congruence | reflexivity]. }
    rewrite Hb. cbn [negb]. change (2 ^ 16 - 1) with 65535. reflexivity. }
  assert (Hsome : forall p n, py_int (_buffer p) = Some n -> _buffer p <> []).
  { intros p n H E. rewrite E in H. discriminate H. }
  repeat split.
  - intros x p Hx. unfold _on_port. cbn [cin cstr]. now rewrite Hx.
  - intros x Hx. unfold py_int. cbn [forallb]. rewrite Hx. cbn.
    first [reflexivity | f_equal; lia].
  - apply py_int_snoc.
  - apply py_int_too_long.
  - intros c p Ht Hne Hn. now rewrite (Hcall c p Ht Hne), Hn.
  - intros c p n Ht Hn Hbig. rewrite (Hcall c p Ht (Hsome p n Hn)), Hn.
    now replace (65535 <? n) with true by (symmetry; apply Z.ltb_lt; exact Hbig).
  - intros c p n Ho Ht Hn Hle. rewrite (Hcall c p Ht (Hsome p n Hn)), Hn.
    replace (65535 <? n) with false by (symmetry; apply Z.ltb_ge; exact Hle).
    destruct p as [u b enc so ve st ptr buf af sq pw]. cbn in Ho. subst so.
    reflexivity.
  - intros [s|] H; [|reflexivity]. unfold in_special in H. unfold special_get.
    now destruct (dict_find s SPECIAL_SCHEMES).
  - intros u Hu. exact (producible_port_ok L u Hu).
Qed.

Lemma C7_port_state_and_default_port_witness :
  py_int (lit "8" ++ [48]) = Some 80
  /\ py_int (repeat 48 4301) = None
  /\ _on_port None
       (set_buffer (lit "65536") (UrlParser_init Url_default None (lit "utf-8")))
     = UrlParserError
  /\ _on_port (Some 47)
       (set_buffer (lit "80")
          (UrlParser_init (with_scheme (Some (lit "http")) Url_default) None
             (lit "utf-8")))
     = Normal
         (mkParser (with_scheme (Some (lit "http")) Url_default) None
            (lit "utf-8") None false PATH_START (-1) [] false false false)
  /\ _on_port (Some 47)
       (set_buffer (lit "81")
          (UrlParser_init (with_scheme (Some (lit "http")) Url_default) None
             (lit "utf-8")))
     = Normal
         (mkParser
            (with_port (Some 81) (with_scheme (Some (lit "http")) Url_default))
            None (lit "utf-8") None false PATH_START (-1) [] false false false)
  /\ special_get (Some (lit "http")) <> Some 81.
Proof.
  destruct (C7_port_state_and_default_port ascii_libs)
    as [_ [_ [H3 [H4 [_ [H6 [H7 [_ H9]]]]]]]].
  split; [|split; [|split; [|split; [|split]]]].
  - apply (H3 (lit "8") 48 8); reflexivity.
  - apply H4. reflexivity.
  - apply (H6 None
             (set_buffer (lit "65536")
                (UrlParser_init Url_default None (lit "utf-8"))) 65536);
      reflexivity.
  - rewrite (H7 (Some 47)
               (set_buffer (lit "80")
                  (UrlParser_init (with_scheme (Some (lit "http")) Url_default)
                     None (lit "utf-8"))) 80);
      first [reflexivity | discriminate].
  - rewrite (H7 (Some 47)
               (set_buffer (lit "81")
                  (UrlParser_init (with_scheme (Some (lit "http")) Url_default)
                     None (lit "utf-8"))) 81);
      first [reflexivity | discriminate].
  - apply (H9 (match parse_url ascii_libs (lit "http://h:81/") None None with
               | Some (Returned p) => url p
               | _ => Url_default
               end)).
    + apply (producible_alone ascii_libs (lit "http://h:81/") None
               (match parse_url ascii_libs (lit "http://h:81/") None None with
                | Some (Returned p) => p
                | _ => UrlParser_init Url_default None []
                end)).
      vm_compute. reflexivity.
    + vm_compute. reflexivity.
Defined.

(** ** Drive letters survive path shortening *)

Lemma removelast_cons_cons {A} (x y : A) l :
  removelast (x :: y :: l) = x :: removelast (y :: l).
Proof. reflexivity. Qed.

Lemma shorten_url_path_drive u seg :
  drive_letter_first u seg -> drive_letter_first (shorten_url_path u) seg.
Proof.
  intros [Hf [[a [-> Ha]] [rest Hp]]].
  destruct u as [sc ho po us pw qu fr pa cb]. cbn in Hf, Hp. subst pa.
  unfold shorten_url_path, drive_letter_first. proj.
  cbn [length Nat.eqb hd]. rewrite Hf.
  destruct rest as [|y rest].
  - cbn [length Nat.eqb andb NORMALIZED_WINDOWS_DRIVE_LETTER].
    rewrite Ha. cbn. repeat split; eauto.
  - cbn [length Nat.eqb andb]. unfold with_path. proj.
    rewrite removelast_cons_cons. repeat split; eauto.
Qed.

Lemma shorten_url_path_heads u :
  heads_agree (_path (shorten_url_path u)) (_path u).
Proof.
  destruct u as [sc ho po us pw qu fr pa cb].
  unfold shorten_url_path, with_path. proj.
  destruct pa as [|x [|y pa]]; cbn [length Nat.eqb].
  - exact I.
  - destruct (_ && _); cbn; [reflexivity | exact I].
  - rewrite andb_false_r. cbn [andb]. proj.
    rewrite removelast_cons_cons. reflexivity.
Qed.

Lemma pop_leading_empty_drive seg rest :
  seg <> [] -> pop_leading_empty (seg :: rest) = seg :: rest.
Proof. destruct seg; [congruence | reflexivity]. Qed.

Lemma path_trim_file_drive c p seg :
  drive_letter_first (url p) seg ->
  drive_letter_first (url (path_trim_file c p)) seg.
Proof.
  intros [Hf [[a [-> Ha]] [rest Hp]]].
  destruct p as [u b enc so ve st ptr buf af sq pw].
  destruct u as [sc ho po us pw' qu fr pa cb]. cbn in Hf, Hp. subst pa.
  unfold path_trim_file, drive_letter_first; unfold_updates; proj.
  rewrite pop_leading_empty_drive by discriminate.
  repeat (brk; proj); repeat split; eauto.
Qed.

Lemma path_flush_drive slash p seg :
  drive_letter_first (url p) seg ->
  drive_letter_first (url (path_flush slash p)) seg.
Proof.
  intros Hd. unfold path_flush.
  assert (Happ : forall q x, drive_letter_first (url q) seg ->
            drive_letter_first
              (url (on_url (fun u => with_path (_path u ++ [x]) u) q)) seg).
  { intros q x [Hf [Hs [rest Hp]]].
    destruct q as [u b enc so ve st ptr buf af sq pw].
    destruct u as [sc ho po us pw' qu fr pa cb]. cbn in Hf, Hp. subst pa.
    unfold drive_letter_first; unfold_updates; proj. cbn [app].
    repeat split; eauto. }
  assert (Hsh : drive_letter_first (url (on_url shorten_url_path p)) seg).
  { destruct p. apply shorten_url_path_drive. exact Hd. }
  assert (Hdl : drive_letter_first (url (path_drive_letter p)) seg).
  { destruct (path_drive_letter_url p) as [[Hs _] Hp].
    destruct Hd as [Hf [Hseg [rest Hr]]].
    unfold drive_letter_first. rewrite Hs, Hp. eauto. }
  repeat brk; auto.
Qed.

Ltac drive_goal :=
  unfold drive_inv, drive_letter_first, base_not_file, heads_agree in *;
  proj; split_ands; subst; proj;
  repeat split; intros; split_ands; subst; proj;
  try congruence; try tauto; try (eauto; fail).

Lemma handler_path_frozen L c r p q :
  state_override p = None ->
  path_frozen (_state p) = true ->
  result_of (handler L (_state p) c r p) = Some q ->
  scheme (url q) = scheme (url p) /\ _path (url q) = _path (url p)
  /\ state_override q = None /\ base q = base p
  /\ match _state p with
     | SCHEME_START =>
         match _state q with SCHEME | NO_SCHEME => True | _ => False end
     | SPECIAL_RELATIVE_OR_AUTHORITY =>
         match _state q with
         | RELATIVE | SPECIAL_AUTHORITY_IGNORE_SLASHES => True
         | _ => False
         end
     | _ =>
         match _state q with
         | SPECIAL_AUTHORITY_IGNORE_SLASHES | AUTHORITY | HOST | HOSTNAME
         | PORT | FILE_HOST | PATH_START | PATH | QUERY | FRAGMENT => True
         | _ => False
         end
     end.
Proof.
  intros Ho Hf H.
  destruct (_state p) eqn:Hst; try discriminate Hf; cbn [handler] in H.
  all: destruct p as [u b enc so ve st ptr buf af sq pw]; destruct u;
    unfold_handlers; unfold_updates; proj; subst.
  all: repeat (brk_in H; proj); cbn [result_of] in H; try inv_signal; proj.
  all: try match goal with
    | H : authority_loop _ _ = Some ?q |- _ =>
        pose proof (authority_loop_control _ _ _ H) as Hc;
        apply authority_loop_url in H; unfold same_control in Hc;
        unfold same_scheme_port in H; proj; split_ands
    end.
  all: repeat match goal with u : Url |- _ => destruct u end; proj.
  all: subst; proj; repeat (brk; proj); repeat split; try congruence.
Qed.

Lemma drive_letter_first_same u v seg :
  scheme v = scheme u -> _path v = _path u ->
  drive_letter_first u seg -> drive_letter_first v seg.
Proof. intros Hs Hp [H1 [H2 H3]]. unfold drive_letter_first. now rewrite Hs, Hp. Qed.

Lemma no_drive_empty u seg : _path u = [] -> ~ drive_letter_first u seg.
Proof. intros Hp [_ [_ [rest Hr]]]. congruence. Qed.

Lemma no_drive_not_file u seg :
  opt_is (scheme u) "file" = false -> ~ drive_letter_first u seg.
Proof. intros Hs [Hf _]. congruence. Qed.

Lemma heads_agree_refl l : heads_agree l l.
Proof. destruct l; cbn; auto. Qed.

Lemma opt_str_eqb_eq a b : opt_str_eqb a b = true -> a = b.
Proof.
  destruct a, b; cbn; try discriminate; try reflexivity.
  intros H. apply str_eqb_eq in H. congruence.
Qed.

Lemma opt_is_file : opt_is (Some (lit "file")) "file" = true.
Proof. reflexivity. Qed.

(** Closes the drive-letter goal of a branch: the new URL has the scheme
    [file] and a path that is the old one, the base's, or either of them
    shortened or extended. *)
Ltac drive_branch :=
  let seg := fresh "seg" in
  let Hd := fresh "Hd" in
  intros seg Hd;
  match goal with
  | |- drive_letter_first (shorten_url_path _) _ =>
      apply shorten_url_path_drive
  | _ => idtac
  end;
  destruct Hd as [? [? [? Hr]]]; proj;
  first
    [ discriminate Hr
    | subst; unfold drive_letter_first; proj;
      split; [first [assumption | reflexivity]|];
      split; [assumption|];
      cbn [app];
      first
        [ eexists; reflexivity
        | match goal with
          | Hk : heads_agree _ ?l |- _ =>
              unfold heads_agree in Hk;
              destruct l; [contradiction | subst; eexists; reflexivity]
          end ] ].

Lemma handler_drive L c r p q :
  drive_inv p ->
  result_of (handler L (_state p) c r p) = Some q ->
  drive_inv q
  /\ forall seg, drive_letter_first (url p) seg ->
                 drive_letter_first (url q) seg.
Proof.
  intros Hinv H.
  destruct (path_frozen (_state p)) eqn:Hfz.
  { destruct Hinv as [Ho Hk].
    destruct (handler_path_frozen L c r p q Ho Hfz H)
      as [Hs [Hp [Ho' [Hb Hq]]]].
    split.
    - unfold drive_inv, base_not_file in *. rewrite Hs, Hp, Hb.
      split; [assumption|].
      destruct (_state p), (_state q); try discriminate Hfz;
        try contradiction; try exact I; tauto.
    - intros seg. now apply drive_letter_first_same. }
  destruct (_state p) eqn:Hst; try discriminate Hfz; cbn [handler] in H.
  6: {
    unfold _on_path in H.
    assert (Hfl : forall slash b seg,
              drive_letter_first (url p) seg ->
              drive_letter_first
                (url (path_trim_file c
                        (set_buffer [] (path_flush slash (flag_error_if b p)))))
                seg).
    { intros slash b seg Hd. apply path_trim_file_drive.
      assert (Hx : forall x, drive_letter_first (url x) seg ->
                drive_letter_first (url (set_buffer [] x)) seg)
        by (intros x Hx; destruct x; exact Hx).
      apply Hx, path_flush_drive. destruct p, b; exact Hd. }
    assert (Hso : forall slash b,
              state_override (path_trim_file c
                 (set_buffer [] (path_flush slash (flag_error_if b p))))
              = state_override p
              /\ _state (path_trim_file c
                 (set_buffer [] (path_flush slash (flag_error_if b p))))
              = PATH).
    { intros slash b.
      destruct (path_trim_file_control c
                  (set_buffer [] (path_flush slash (flag_error_if b p))))
        as [_ [_ [H1 [H2 _]]]].
      rewrite H1, H2.
      destruct (path_flush_control slash (flag_error_if b p))
        as [_ [_ [H3 [H4 _]]]].
      destruct (path_flush slash (flag_error_if b p)); proj.
      cbn in H3, H4 |- *. rewrite H3, H4. destruct p, b; cbn in *; tauto. }
    destruct Hinv as [Ho _].
    repeat match type of H with
    | context [if ?b then _ else _] => destruct b eqn:?
    end.
    all: try (destruct c; [|discriminate H]; unfold or_raise in H;
              destruct (percent_encode _ _); [|discriminate H]).
    all: cbn [result_of] in H; inv_signal.
    1-3: match goal with
      |- context [path_trim_file ?cc (set_buffer [] (path_flush ?s (flag_error_if ?b ?pp)))] =>
        specialize (Hfl s b); specialize (Hso s b);
        destruct (path_trim_file cc (set_buffer [] (path_flush s (flag_error_if b pp))))
          as [u' ? ? ? ? ? ? ? ? ? ?]; destruct u'
      end; proj; destruct Hso as [-> ->];
      unfold drive_inv; unfold_updates; proj; (split; [tauto|]);
      intros seg Hd; specialize (Hfl seg Hd);
      unfold drive_letter_first in *; proj; exact Hfl.
    destruct p as [u b enc so ve st ptr buf af sq pw].
    unfold drive_inv; unfold_updates; proj; subst.
    repeat (brk; proj); (split; [tauto|]); intros seg Hd; exact Hd.
  }
  all: unfold drive_inv in Hinv; rewrite Hst in Hinv.
  (* SCHEME, NO_SCHEME, RELATIVE, CANNOT_BE_BASE_URL: no drive letter yet *)
  1-3, 6: (split;
    [| intros seg Hd; exfalso; destruct Hinv as [_ Hk];
       first [ eapply no_drive_empty; [|exact Hd]; exact Hk
             | eapply no_drive_not_file; [|exact Hd]; exact Hk
             | destruct Hk as [_ [Hk|Hk]];
               [ eapply no_drive_empty; [|exact Hd]; exact Hk
               | eapply no_drive_not_file; [|exact Hd]; exact Hk ] ] ]).
  all: destruct Hinv as [Ho Hk].
  all: destruct p as [u b enc so ve st ptr buf af sq pw]; destruct u;
    unfold_handlers; unfold_updates; proj; subst.
  all: repeat (brk_in H; proj); cbn [result_of] in H; try inv_signal; proj.
  all: unfold drive_inv, base_not_file in *; proj.
  all: repeat match goal with
    | H : _ && _ = true |- _ => apply andb_true_iff in H; destruct H
    | H : opt_str_eqb _ _ = true |- _ => apply opt_str_eqb_eq in H
    | H : negb _ = true |- _ => apply negb_true_iff in H
    | H : _ /\ _ |- _ => destruct H
    end; proj.
  all: try (split; [reflexivity|]).
  all: try exact I.
  all: try reflexivity.
  all: try assumption.
  all: try (destruct b; [exact I | reflexivity]).
  all: try (split; [reflexivity | first [exact I | congruence]]).
  all: try (split; [assumption | first [left; reflexivity | right; assumption]]).
  all: try (split; [split; [reflexivity|] | drive_branch]).
  all: try exact I.
  all: try apply heads_agree_refl.
  all: try apply (shorten_url_path_heads
                    (mkUrl (Some (lit "file")) _ _ _ _ _ _ _ _)).
  all: try assumption.
  all: try (split; [assumption | right; assumption]).
Qed.

Lemma tick_drive L data lp p :
  drive_inv p ->
  match tick L data lp p with
  | Running _ q | Finished (Returned q) =>
      drive_inv q
      /\ forall seg, drive_letter_first (url p) seg ->
                     drive_letter_first (url q) seg
  | Finished _ => True
  end.
Proof.
  intros Hinv.
  assert (Hmove : forall q, drive_inv q -> drive_inv (move 1 q))
    by (intros q Hq; destruct q; exact Hq).
  assert (Hurl : forall q, url (move 1 q) = url q)
    by (intros q; destruct q; reflexivity).
  assert (Hcall : forall c r,
            match after_call (handler L (_state p) c r p) with
            | Running _ q | Finished (Returned q) =>
                drive_inv q
                /\ forall seg, drive_letter_first (url p) seg ->
                               drive_letter_first (url q) seg
            | Finished _ => True
            end).
  { intros c r.
    pose proof (handler_drive L c r p) as H.
    destruct (handler L (_state p) c r p) as [q|q| |]; cbn [after_call];
      try exact I; destruct (H q Hinv eq_refl) as [H1 H2].
    - rewrite Hurl. split; [apply Hmove|]; assumption.
    - split; assumption. }
  unfold tick. destruct lp.
  - destruct (_ || _); [|split; auto].
    destruct (0 <? _); [|split; auto].
    destruct (py_index data (_pointer p)); [apply Hcall | exact I].
  - destruct (_ =? _); [apply Hcall | split; auto].
Qed.

Lemma reaches_drive L data lp p lp' p' :
  reaches L data lp p lp' p' ->
  drive_inv p ->
  drive_inv p'
  /\ forall seg, drive_letter_first (url p) seg ->
                 drive_letter_first (url p') seg.
Proof.
  induction 1 as [|lp p lp1 p1 lp2 p2 Ht _ IH]; intros Hinv; [auto|].
  pose proof (tick_drive L data lp p Hinv) as H. rewrite Ht in H.
  destruct H as [H1 H2]. destruct (IH H1) as [H3 H4]. auto.
Qed.

Lemma run_drive L data : forall fuel lp p q,
  drive_inv p ->
  run L fuel data lp p = Some (Returned q) ->
  forall seg, drive_letter_first (url p) seg ->
              drive_letter_first (url q) seg.
Proof.
  induction fuel as [|fuel IH]; intros lp p q Hinv H; [discriminate|].
  cbn [run] in H. pose proof (tick_drive L data lp p Hinv) as Ht.
  destruct (tick L data lp p) as [lp' p'|[q'| |]]; try discriminate.
  - destruct Ht as [H1 H2]. intros seg Hd. eapply IH; eauto.
  - injection H as <-. now destruct Ht.
Qed.

Lemma parse_start_drive_inv u b enc0 data enc :
  _path u = [] ->
  drive_inv (snd (parse_start (UrlParser_init u b enc0) data enc None)).
Proof.
  intros Hu. unfold parse_start. destruct (preprocess data) as [d e].
  destruct e; cbn; split; auto.
Qed.

(** C8: path shortening keeps a first segment that is a normalized drive
    letter of a [file] URL; and once the URL under construction has the
    scheme [file] and such a first segment, every later state of the parse,
    and the URL returned, still has that segment first. *)
Theorem C8_drive_letter_is_kept :
  (forall u seg,
      drive_letter_first u seg -> drive_letter_first (shorten_url_path u) seg)
  /\ forall L data b enc d p0,
       parse_start (UrlParser_init Url_default b (lit "utf-8")) data enc None
       = (d, p0) ->
       forall lp p seg,
         reaches L d OuterTest p0 lp p ->
         drive_letter_first (url p) seg ->
         (forall lp' p',
             reaches L d lp p lp' p' -> drive_letter_first (url p') seg)
         /\ (forall fuel q,
                run L fuel d lp p = Some (Returned q) ->
                drive_letter_first (url q) seg).
Proof.
  split; [exact shorten_url_path_drive|].
  intros L data b enc d p0 Hs lp p seg Hr Hd.
  assert (H0 : drive_inv p0).
  { pose proof (parse_start_drive_inv Url_default b (lit "utf-8") data enc
                  eq_refl) as H.
    now rewrite Hs in H. }
  destruct (reaches_drive _ _ _ _ _ _ Hr H0) as [Hp _].
  split.
  - intros lp' p' Hr'. destruct (reaches_drive _ _ _ _ _ _ Hr' Hp) as [_ H].
    now apply H.
  - intros fuel q Hq. eapply run_drive; eassumption.
Qed.

Lemma advance_reaches L data : forall k lp p lp' p',
  advance L k data lp p = Some (lp', p') -> reaches L data lp p lp' p'.
Proof.
  induction k as [|k IH]; intros lp p lp' p' H; cbn [advance] in H.
  - injection H as <- <-. constructor.
  - destruct (tick L data lp p) as [lp1 p1|] eqn:Ht; [|discriminate].
    econstructor; [exact Ht | now apply IH].
Qed.

Lemma C8_drive_letter_is_kept_witness :
  match parse_url ascii_libs (lit "file:C|/..") None None with
  | Some (Returned q) =>
      drive_letter_first (url q) (lit "C:")
      /\ _path (url q) = [lit "C:"; lit ""]
  | _ => False
  end.
Proof.
  pose (s0 := parse_start (UrlParser_init Url_default None (lit "utf-8"))
                (lit "file:C|/..") None None).
  pose (mid := match advance ascii_libs 17 (fst s0) OuterTest (snd s0) with
               | Some (lp, p) => (lp, p)
               | None => (OuterTest, snd s0)
               end).
  destruct C8_drive_letter_is_kept as [_ H].
  destruct (H ascii_libs (lit "file:C|/..") None None (fst s0) (snd s0)
              eq_refl (fst mid) (snd mid) (lit "C:")) as [_ Hrun].
  - apply (advance_reaches ascii_libs (fst s0) 17). vm_compute. reflexivity.
  - vm_compute. repeat split; [exists 67; split; reflexivity | eexists; reflexivity].
  - specialize (Hrun 40%nat
                  (match parse_url ascii_libs (lit "file:C|/..") None None with
                   | Some (Returned q) => q
                   | _ => snd s0
                   end)).
    assert (Hq : parse_url ascii_libs (lit "file:C|/..") None None
                 = Some (Returned
                           (match parse_url ascii_libs (lit "file:C|/..") None None with
                            | Some (Returned q) => q
                            | _ => snd s0
                            end)))
      by (vm_compute; reflexivity).
    rewrite Hq. split; [|vm_compute; reflexivity].
    apply Hrun. vm_compute. reflexivity.
Defined.

(** ** The validation flag is write-only *)

Lemma path_drive_letter_flag p :
  path_drive_letter (flag_error p) = flag_error (path_drive_letter p).
Proof.
  destruct p as [u b enc so ve st ptr buf af sq pw].
  unfold path_drive_letter; unfold_updates; proj.
  repeat (brk; proj); reflexivity.
Qed.

Lemma path_flush_flag slash p :
  path_flush slash (flag_error p) = flag_error (path_flush slash p).
Proof.
  unfold path_flush. rewrite path_drive_letter_flag.
  destruct (path_drive_letter p) as [u' b' enc' so' ve' st' ptr' buf' af' sq' pw'].
  destruct p as [u b enc so ve st ptr buf af sq pw].
  unfold_updates; proj.
  repeat (brk; proj); reflexivity.
Qed.

Lemma path_trim_file_flag c p :
  path_trim_file c (flag_error p) = flag_error (path_trim_file c p).
Proof.
  destruct p as [u b enc so ve st ptr buf af sq pw].
  unfold path_trim_file; unfold_updates; proj.
  repeat (brk; proj); reflexivity.
Qed.

Lemma flag_error_if_flag b p :
  flag_error_if b (flag_error p) = flag_error (flag_error_if b p).
Proof. destruct p, b; reflexivity. Qed.

Lemma set_buffer_flag v p :
  set_buffer v (flag_error p) = flag_error (set_buffer v p).
Proof. destruct p; reflexivity. Qed.

Lemma handler_flag L s c r p :
  handler L s c r (flag_error p) = map_signal flag_error (handler L s c r p).
Proof.
  destruct s; cbn [handler].
  18: {
    unfold _on_path.
    replace (url (flag_error p)) with (url p) by (destruct p; reflexivity).
    replace (overridden (flag_error p)) with (overridden p)
      by (destruct p; reflexivity).
    destruct (is_c c "" || is_c c "/" || _ || _).
    - rewrite flag_error_if_flag, path_flush_flag, set_buffer_flag,
        path_trim_file_flag.
      destruct (path_trim_file c _) as [u b enc so ve st ptr buf af sq pw].
      unfold_updates; proj. repeat (brk; proj); reflexivity.
    - destruct c as [x|]; [|reflexivity].
      destruct p as [u b enc so ve st ptr buf af sq pw].
      unfold_updates; proj. repeat (brk; proj); reflexivity.
  }
  all: destruct p as [u b enc so ve st ptr buf af sq pw];
    unfold_handlers; unfold_updates; proj.
  10: {
    repeat (brk; proj); cbn [map_signal]; try reflexivity;
    match goal with
    | H : authority_loop _ _ = Some _ |- _ =>
        apply authority_loop_control in H; proj;
        destruct H as [_ [_ H]]; subst; reflexivity
    end.
  }
  all: repeat (brk; proj); reflexivity.
Qed.

Lemma tick_flag L data lp p :
  tick L data lp (flag_error p)
  = match tick L data lp p with
    | Running lp' p' => Running lp' (flag_error p')
    | Finished r => Finished (map_result flag_error r)
    end.
Proof.
  unfold tick.
  replace (_pointer (flag_error p)) with (_pointer p) by (destruct p; reflexivity).
  replace (_state (flag_error p)) with (_state p) by (destruct p; reflexivity).
  assert (Hcall : forall s,
            after_call (map_signal flag_error s)
            = match after_call s with
              | Running lp' p' => Running lp' (flag_error p')
              | Finished r => Finished (map_result flag_error r)
              end).
  { intros [q|q| |]; try reflexivity. destruct q; reflexivity. }
  destruct lp.
  - destruct (_ || _); [|reflexivity].
    destruct (0 <? _); [|reflexivity].
    destruct (py_index data (_pointer p)); [|reflexivity].
    rewrite handler_flag. apply Hcall.
  - destruct (_ =? _); [|reflexivity].
    rewrite handler_flag. apply Hcall.
Qed.

Lemma run_flag L data : forall fuel lp p,
  run L fuel data lp (flag_error p)
  = option_map (map_result flag_error) (run L fuel data lp p).
Proof.
  induction fuel as [|fuel IH]; intros lp p; [reflexivity|].
  cbn [run]. rewrite tick_flag.
  destruct (tick L data lp p); [apply IH | reflexivity].
Qed.

(** ** Preparing the input *)

Lemma remove_tab_newline_cons x s :
  remove_tab_newline (x :: s)
  = if is_tab_or_newline x then remove_tab_newline s
    else x :: remove_tab_newline s.
Proof.
  unfold remove_tab_newline, is_tab_or_newline. cbn [filter].
  destruct (x =? 9); cbn [negb orb filter]; [reflexivity|].
  destruct (x =? 10); cbn [negb orb filter]; [reflexivity|].
  destruct (x =? 13); reflexivity.
Qed.

Lemma remove_tab_newline_app a b :
  remove_tab_newline (a ++ b) = remove_tab_newline a ++ remove_tab_newline b.
Proof. unfold remove_tab_newline. now rewrite !filter_app. Qed.

Lemma remove_tab_newline_rev s :
  remove_tab_newline (rev s) = rev (remove_tab_newline s).
Proof.
  induction s as [|x s IH]; [reflexivity|].
  cbn [rev]. rewrite remove_tab_newline_app, IH, !remove_tab_newline_cons.
  destruct (is_tab_or_newline x); cbn [remove_tab_newline rev filter].
  - unfold remove_tab_newline. cbn. now rewrite app_nil_r.
  - reflexivity.
Qed.

Lemma tab_is_c0 x :
  is_tab_or_newline x = true -> _is_c0_control_or_space x = true.
Proof.
  unfold is_tab_or_newline, _is_c0_control_or_space. intros H.
  apply orb_true_iff in H as [H|H]; [apply orb_true_iff in H as [H|H]|];
    apply Z.eqb_eq in H; subst; reflexivity.
Qed.

Lemma remove_lstrip s :
  remove_tab_newline (lstrip_c0 s) = lstrip_c0 (remove_tab_newline s).
Proof.
  induction s as [|x s IH]; [reflexivity|].
  cbn [lstrip_c0]. rewrite remove_tab_newline_cons.
  destruct (_is_c0_control_or_space x) eqn:Hc.
  - rewrite IH. destruct (is_tab_or_newline x); [reflexivity|].
    cbn [lstrip_c0]. now rewrite Hc.
  - destruct (is_tab_or_newline x) eqn:Ht.
    + apply tab_is_c0 in Ht. congruence.
    + rewrite remove_tab_newline_cons, Ht. cbn [lstrip_c0]. now rewrite Hc.
Qed.

Lemma remove_rstrip s :
  remove_tab_newline (rstrip_c0 s) = rstrip_c0 (remove_tab_newline s).
Proof.
  unfold rstrip_c0.
  now rewrite remove_tab_newline_rev, remove_lstrip, remove_tab_newline_rev.
Qed.

Lemma ws_inserted_remove w w' :
  ws_inserted w w' -> remove_tab_newline w' = remove_tab_newline w.
Proof.
  induction 1 as [|x w w' _ IH|x w w' Hx _ IH]; [reflexivity| |].
  - rewrite !remove_tab_newline_cons, IH. reflexivity.
  - rewrite remove_tab_newline_cons, Hx. exact IH.
Qed.

Lemma ws_inserted_length w w' :
  ws_inserted w w' -> (length w <= length w')%nat.
Proof. induction 1; cbn [length]; lia. Qed.

Lemma lstrip_c0_length s : (length (lstrip_c0 s) <= length s)%nat.
Proof.
  induction s as [|x s IH]; [reflexivity|]. cbn [lstrip_c0].
  destruct (_is_c0_control_or_space x); cbn [length]; lia.
Qed.

Lemma rstrip_c0_length s : (length (rstrip_c0 s) <= length s)%nat.
Proof.
  unfold rstrip_c0. rewrite length_rev.
  pose proof (lstrip_c0_length (rev s)) as H. now rewrite length_rev in H.
Qed.

Lemma remove_tab_newline_length s :
  (length (remove_tab_newline s) <= length s)%nat.
Proof.
  unfold remove_tab_newline.
  repeat (etransitivity; [apply filter_length_le|]). reflexivity.
Qed.

Lemma preprocess_ws_inserted w w' :
  ws_inserted w w' ->
  fst (preprocess w') = fst (preprocess w)
  /\ ((length w < length w')%nat -> snd (preprocess w') = true).
Proof.
  intros H. unfold preprocess. cbn [fst snd]. split.
  - rewrite !remove_rstrip, !remove_lstrip. now rewrite (ws_inserted_remove w w').
  - intros Hlt.
    destruct (length (lstrip_c0 w') <? length w')%nat eqn:E1; [reflexivity|].
    destruct (length (rstrip_c0 (lstrip_c0 w')) <? length (lstrip_c0 w'))%nat
      eqn:E2; [reflexivity|].
    destruct (length (remove_tab_newline (rstrip_c0 (lstrip_c0 w')))
              <? length (rstrip_c0 (lstrip_c0 w')))%nat eqn:E3; [reflexivity|].
    exfalso.
    apply Nat.ltb_ge in E1, E2, E3.
    assert (Heq : remove_tab_newline (rstrip_c0 (lstrip_c0 w'))
                  = remove_tab_newline (rstrip_c0 (lstrip_c0 w))).
    { rewrite !remove_rstrip, !remove_lstrip.
      now rewrite (ws_inserted_remove w w'). }
    rewrite Heq in E3.
    pose proof (remove_tab_newline_length (rstrip_c0 (lstrip_c0 w))).
    pose proof (rstrip_c0_length (lstrip_c0 w)).
    pose proof (lstrip_c0_length w).
    lia.
Qed.

Lemma parse_start_flag p data enc override :
  parse_start p data enc override
  = (fst (preprocess data),
     flag_error_if (snd (preprocess data))
       (snd (parse_start p [] enc override))).
Proof.
  unfold parse_start. destruct (preprocess data) as [d e]. reflexivity.
Qed.

(** C9: tabs, line feeds and carriage returns inserted anywhere into an
    input that parses leave the URL record as it is, and the parse of the
    longer input records a validation error. *)
Theorem C9_whitespace_resilience :
  forall L w w' b enc p,
    ws_inserted w w' ->
    parse_url L w b enc = Some (Returned p) ->
    exists p',
      parse_url L w' b enc = Some (Returned p')
      /\ url p' = url p
      /\ ((length w < length w')%nat -> validation_error p' = true).
Proof.
  intros L w w' b enc p Hins Hp.
  destruct (preprocess_ws_inserted w w' Hins) as [Hd He].
  unfold parse_url, parse in *.
  rewrite parse_start_flag in Hp. rewrite parse_start_flag, Hd.
  set (d := fst (preprocess w)) in *.
  set (p0 := snd (parse_start _ [] enc None)) in *.
  assert (Hrun : forall e,
            run L (parse_fuel d) d OuterTest (flag_error_if e p0)
            = option_map (map_result (flag_error_if e))
                (run L (parse_fuel d) d OuterTest p0)).
  { intros [|]; cbn [flag_error_if]; [apply run_flag|].
    destruct (run L (parse_fuel d) d OuterTest p0) as [[q| |]|]; reflexivity. }
  rewrite Hrun in Hp. rewrite Hrun.
  destruct (run L (parse_fuel d) d OuterTest p0) as [[q| |]|];
    try discriminate.
  cbn [option_map map_result] in *. injection Hp as <-.
  assert (Hu : forall e, url (flag_error_if e q) = url q)
    by (intros [|]; destruct q; reflexivity).
  eexists. split; [reflexivity|]. split.
  - now rewrite !Hu.
  - intros Hlt. rewrite (He Hlt). destruct q; reflexivity.
Qed.

Lemma C9_whitespace_resilience_witness :
  exists p',
    parse_url ascii_libs [104; 9; 116; 116; 112; 58; 47; 10; 47; 97; 47; 13; 98]
      None None = Some (Returned p')
    /\ href (url p') = Some (lit "http://a/b")
    /\ validation_error p' = true.
Proof.
  destruct (C9_whitespace_resilience ascii_libs (lit "http://a/b")
              [104; 9; 116; 116; 112; 58; 47; 10; 47; 97; 47; 13; 98]
              None None
              (match parse_url ascii_libs (lit "http://a/b") None None with
               | Some (Returned p) => p
               | _ => UrlParser_init Url_default None []
               end))
    as [p' [H1 [H2 H3]]].
  - repeat (first [ apply ws_done
                  | apply ws_add; [reflexivity|]
                  | apply ws_keep ]).
  - vm_compute. reflexivity.
  - exists p'. split; [exact H1|]. split.
    + rewrite H2. vm_compute. reflexivity.
    + apply H3. vm_compute. lia.
Defined.

(** ** The file state and the drive letter scenario *)

(** C2 (as the code behaves): the file state compares the single code point
    [c] with the two-character string ["//"], which never holds, so
    ["file:///C|/WINDOWS/"] is read by the path state alone: the host stays
    absent, the first segment stays ["C|"], and the serialization is the
    input again. *)
Theorem C2_file_drive_letter_observed :
  (forall c, is_c c "//" = false)
  /\ forall L,
       match parse_url L (lit "file:///C|/WINDOWS/") None None with
       | Some (Returned p) =>
           scheme (url p) = Some (lit "file")
           /\ hostname (url p) = None
           /\ _path (url p) = [lit "C|"; lit "WINDOWS"; lit ""]
           /\ href (url p) = Some (lit "file:///C|/WINDOWS/")
       | _ => False
       end.
Proof.
  split.
  - intros [x|]; [|reflexivity]. unfold is_c. simpl.
    now rewrite andb_false_r.
  - intros L. vm_compute. repeat split.
Qed.

(** ** The host parser *)

(** C3 (counterexample): U+007C is not in [FORBIDDEN_HOST_CODE_POINTS]; the
    host ["a|b"] is accepted both as an opaque host and as a domain. *)
Lemma C3_bar_is_accepted :
  mem 124 FORBIDDEN_HOST_CODE_POINTS = false
  /\ parse_host ascii_libs (lit "a|b") true = HostOk (lit "a|b")
  /\ parse_host ascii_libs (lit "a|b") false = HostOk (lit "a|b").
Proof. repeat split; vm_compute; reflexivity. Qed.

(** C3 (amended): the forbidden host code points are NUL, TAB, LF, CR, SPACE
    and [# % / : ? @ [ \ ]], without U+007C.  A host that is not an IPv6
    literal fails with the parser error when, as an opaque host, it holds
    one of them other than [%], and when, as a domain, its lower-cased
    ASCII form holds one of them. *)
Theorem C3_forbidden_host_code_points :
  forall L host,
    startswith host (lit "[") = false ->
    ((exists c, In c host /\ c <> 37 /\ In c FORBIDDEN_HOST_CODE_POINTS) ->
     parse_host L host true = HostParserError)
    /\ (forall bs domain a,
          string_percent_decode host = Some bs ->
          utf8_decode L bs = Some domain ->
          domain_to_ascii L domain = IdnaOk a ->
          (exists c, In c (map ascii_lower a)
                     /\ In c FORBIDDEN_HOST_CODE_POINTS) ->
          parse_host L host false = HostParserError)
    /\ FORBIDDEN_HOST_CODE_POINTS
       = [0; 9; 10; 13; 32; 35; 37; 47; 58; 63; 64; 91; 92; 93].
Proof.
  intros L host Hb. unfold parse_host. rewrite Hb. repeat split.
  - intros [c [Hin [Hne Hf]]].
    assert (H : has_forbidden (filter (fun c => negb (c =? 37)) host) = true).
    { apply has_forbidden_In. exists c. split; [|assumption].
      apply filter_In. split; [assumption|].
      apply negb_true_iff. now apply Z.eqb_neq. }
    now rewrite H.
  - intros bs domain a H1 H2 H3 H4. rewrite H1, H2, H3.
    apply has_forbidden_In in H4. now rewrite H4.
Qed.

Lemma C3_forbidden_host_code_points_witness :
  parse_host ascii_libs (lit "a b") true = HostParserError
  /\ parse_host ascii_libs (lit "a%20b") false = HostParserError.
Proof.
  destruct (C3_forbidden_host_code_points ascii_libs (lit "a b") eq_refl)
    as [H1 _].
  destruct (C3_forbidden_host_code_points ascii_libs (lit "a%20b") eq_refl)
    as [_ [H2 _]].
  split.
  - apply H1. exists 32. repeat split; [simpl; tauto | discriminate | simpl; tauto].
  - apply (H2 (lit "a b") (lit "a b") (lit "a b")); try reflexivity.
    exists 32. split; simpl; tauto.
Defined.

(** ** The fragment and query states *)

(** C5 (counterexample): a NUL inside a fragment is not appended; it is
    dropped, so ["a:#x\x00y"] has the fragment ["xy"]. *)
Lemma C5_nul_is_dropped :
  option_map fragment
    (returned_url (parse_url ascii_libs (lit "a:#x" ++ [0] ++ lit "y") None None))
  = Some (Some (lit "xy")).
Proof. vm_compute. reflexivity. Qed.

(** C5 (amended): in the fragment state the end of input changes nothing; a
    NUL sets [validation_error] and is dropped; every other code point is
    appended to the fragment percent-encoded with the fragment set and
    nothing else of the parser but [validation_error] changes; and a [%]
    that is not followed by two ASCII hex digits sets [validation_error]. *)
Theorem C5_fragment_state :
  forall remaining p,
    _on_fragment None remaining p = Normal p
    /\ _on_fragment (Some 0) remaining p = Normal (flag_error p)
    /\ forall x f e,
         x <> 0 ->
         fragment (url p) = Some f ->
         percent_encode x FRAGMENT_PERCENT_ENCODE = Some e ->
         exists v,
           _on_fragment (Some x) remaining p
           = Normal (set_validation_error v
                       (on_url (with_fragment (Some (f ++ e))) p))
           /\ (x = 37 -> TWO_ASCII_HEX remaining = false -> v = true)
           /\ (validation_error p = true -> v = true).
Proof.
  intros remaining p. repeat split.
  intros x f e Hx Hf He. unfold _on_fragment.
  apply Z.eqb_neq in Hx. rewrite Hx.
  destruct p as [u b enc so ve st ptr buf af sq pw].
  unfold flag_error_if, flag_error, is_c; simpl in *.
  destruct (negb ((x =? 37) && true) && _is_url_codepoint x) eqn:E1;
    destruct ((x =? 37) && true && negb (TWO_ASCII_HEX remaining)) eqn:E2;
    simpl; rewrite Hf, He; simpl;
    (eexists; split; [reflexivity|]); split; try reflexivity; intros;
      subst; simpl in *; try congruence.
  all: match goal with H : TWO_ASCII_HEX _ = false |- _ => rewrite H in * end;
    simpl in *; discriminate.
Qed.

Lemma C5_fragment_state_witness :
  exists v,
    _on_fragment (Some 37) [] (UrlParser_init (with_fragment (Some []) Url_default)
                                 None (lit "utf-8"))
    = Normal (set_validation_error v
                (on_url (with_fragment (Some (lit "%")))
                   (UrlParser_init (with_fragment (Some []) Url_default)
                      None (lit "utf-8"))))
    /\ v = true.
Proof.
  destruct (C5_fragment_state []
              (UrlParser_init (with_fragment (Some []) Url_default) None (lit "utf-8")))
    as [_ [_ H]].
  destruct (H 37 [] (lit "%")) as [v [H1 [H2 _]]];
    [discriminate | reflexivity | reflexivity |].
  exists v. split; [exact H1 | apply H2; reflexivity].
Defined.

(** C6 (as the code behaves): started in the query state on a URL whose
    query is absent, the first append is [None += str], a [TypeError] that
    nothing catches. *)
Theorem C6_query_override_on_absent_query :
  forall L,
    query Url_default = None
    /\ parse L (UrlParser_init Url_default None (lit "utf-8")) (lit "a") None
         (Some QUERY)
       = Some Crashed.
Proof. intros L. split; [reflexivity | vm_compute; reflexivity]. Qed.

(** ** IPv4 addresses in the host parser *)

Lemma not_an_octet_refused part : not_an_octet part -> ascii_octet part = None.
Proof.
  unfold ascii_octet. intros [H|[H|[H|[H|H]]]].
  - now subst.
  - assert (E : py_int part = None).
    { unfold py_int. destruct part as [|y s]; [reflexivity|].
      replace (forallb (fun x => mem x ASCII_DIGITS) (y :: s)) with false;
        [reflexivity|].
      symmetry. apply not_true_iff_false. intros F.
      apply existsb_exists in H. destruct H as [x [Hin Hx]].
      rewrite forallb_forall in F. rewrite (F x Hin) in Hx. discriminate. }
    now rewrite E.
  - destruct (py_int part); [|reflexivity].
    replace (length part <=? 3)%nat with false; [reflexivity|].
    symmetry. apply Nat.leb_gt. exact H.
  - destruct H as [Hl Hh]. destruct (py_int part); [|reflexivity].
    replace (1 <? length part)%nat with true
      by (symmetry; apply Nat.ltb_lt; exact Hl).
    destruct part as [|x s]; [cbn in Hl; lia|]. cbn [hd] in Hh. subst x.
    match goal with |- context [startswith ?u ?v] =>
      replace (startswith u v) with true by (destruct s; reflexivity)
    end.
    cbn [andb negb]. now rewrite andb_false_r.
  - destruct H as [n [Hn Hbig]]. rewrite Hn.
    replace (n <=? 255) with false by (symmetry; apply Z.leb_gt; exact Hbig).
    now rewrite andb_false_r.
Qed.

Lemma refused_part_refuses_address (s : str) :
  (length (split_on [46] s) <> 4%nat
   \/ exists part, In part (split_on [46] s) /\ ascii_octet part = None) ->
  ascii_ipv4_address s = None.
Proof.
  unfold ascii_ipv4_address.
  destruct (split_on [46] s) as [|a [|b [|c [|d [|e l]]]]]; cbn [map length];
    intros H.
  5: { destruct H as [H|[part [Hin Hp]]]; [exfalso; apply H; reflexivity|].
       cbn [In] in Hin.
       destruct Hin as [<-|[<-|[<-|[<-|[]]]]]; rewrite Hp;
         repeat match goal with
         | |- context [match ?o with Some _ => _ | None => _ end] =>
             destruct o
         end; reflexivity. }
  all: repeat match goal with
       | |- context [match ?o with Some _ => _ | None => _ end] => destruct o
       end; reflexivity.
Qed.

Lemma split_on_plain (seps : list codepoint) (a : str) :
  forallb (fun x => negb (mem x seps)) a = true -> split_on seps a = [a].
Proof.
  induction a as [|x a IH]; [reflexivity|].
  cbn [forallb split_on]. intros H. apply andb_true_iff in H as [Hx Ha].
  apply negb_true_iff in Hx. now rewrite Hx, (IH Ha).
Qed.

Lemma split_on_app (seps : list codepoint) (a rest : str) (sep : codepoint) :
  forallb (fun x => negb (mem x seps)) a = true ->
  mem sep seps = true ->
  split_on seps (a ++ sep :: rest) = a :: split_on seps rest.
Proof.
  intros Ha Hs. induction a as [|x a IH].
  - cbn [app split_on]. now rewrite Hs.
  - cbn [forallb] in Ha. apply andb_true_iff in Ha as [Hx Ha].
    apply negb_true_iff in Hx.
    cbn [app split_on]. now rewrite Hx, (IH Ha).
Qed.

(** The decimal text of an octet is an octet, and holds no dot. *)
Lemma octet_text n :
  0 <= n <= 255 ->
  ascii_octet (str_of_int n) = Some n
  /\ forallb (fun x => negb (mem x [46])) (str_of_int n) = true.
Proof.
  intros Hn.
  assert (H : forallb
                (fun k =>
                   match ascii_octet (str_of_int (Z.of_nat k)) with
                   | Some m => m =? Z.of_nat k
                   | None => false
                   end
                   && forallb (fun x => negb (mem x [46]))
                        (str_of_int (Z.of_nat k)))
                (seq 0 256) = true) by (vm_compute; reflexivity).
  rewrite forallb_forall in H.
  specialize (H (Z.to_nat n)).
  rewrite Z2Nat.id in H by lia.
  assert (Hin : In (Z.to_nat n) (seq 0 256)) by (apply in_seq; lia).
  apply H in Hin. apply andb_true_iff in Hin as [H1 H2].
  split; [|exact H2].
  destruct (ascii_octet (str_of_int n)) as [m|]; [|discriminate].
  apply Z.eqb_eq in H1. now subst.
Qed.

Lemma dotted_quad_accepted a b c d :
  0 <= a <= 255 -> 0 <= b <= 255 -> 0 <= c <= 255 -> 0 <= d <= 255 ->
  ascii_ipv4_address (join [46] (map str_of_int [a; b; c; d]))
  = Some (join [46] (map str_of_int [a; b; c; d])).
Proof.
  intros Ha Hb Hc Hd.
  destruct (octet_text a Ha) as [Oa Pa], (octet_text b Hb) as [Ob Pb],
    (octet_text c Hc) as [Oc Pc], (octet_text d Hd) as [Od Pd].
  unfold ascii_ipv4_address.
  assert (Hs : split_on [46] (join [46] (map str_of_int [a; b; c; d]))
               = [str_of_int a; str_of_int b; str_of_int c; str_of_int d]).
  { change (join [46] (map str_of_int [a; b; c; d]))
      with (str_of_int a ++ 46 :: str_of_int b ++ 46 :: str_of_int c
              ++ 46 :: str_of_int d).
    rewrite (split_on_app [46] (str_of_int a) _ 46 Pa eq_refl).
    rewrite (split_on_app [46] (str_of_int b) _ 46 Pb eq_refl).
    rewrite (split_on_app [46] (str_of_int c) _ 46 Pc eq_refl).
    now rewrite (split_on_plain [46] (str_of_int d) Pd). }
  rewrite Hs. cbn [map]. rewrite Oa, Ob, Oc, Od. reflexivity.
Qed.

(** C4 (counterexample): ["0x7f.1"] is not read as an IPv4 address; it comes
    back as the domain ["0x7f.1"], not as ["127.0.0.1"]. *)
Lemma C4_hex_ipv4_is_a_domain :
  parse_host ascii_libs (lit "0x7f.1") false = HostOk (lit "0x7f.1")
  /\ lit "0x7f.1" <> lit "127.0.0.1".
Proof. split; [vm_compute; reflexivity | discriminate]. Qed.

(** C4 (amended): with [ipaddress.IPv4Address] the strict parser that it is
    in the standard library, for a host that is not an IPv6 literal and
    whose lower-cased ASCII form holds no forbidden code point: the host
    string as written is returned when it is a dotted quad (four decimal
    octets in their shortest form), and every other host is returned as the
    lower-cased ASCII domain; so is a host of fewer or more than four
    parts, and a host with a part that is empty, has a [0x] prefix or
    another code point that is no digit, has more than three digits, a
    leading zero or a value above 255. *)
Theorem C4_ipv4_only_through_strict_parser :
  forall L host bs domain a,
    (forall s, ipv4_address L s = ascii_ipv4_address s) ->
    startswith host (lit "[") = false ->
    string_percent_decode host = Some bs ->
    utf8_decode L bs = Some domain ->
    domain_to_ascii L domain = IdnaOk a ->
    has_forbidden (map ascii_lower a) = false ->
    parse_host L host false
    = HostOk (match ascii_ipv4_address host with
              | Some quad => quad
              | None => map ascii_lower a
              end)
    /\ (forall o1 o2 o3 o4,
          0 <= o1 <= 255 -> 0 <= o2 <= 255 ->
          0 <= o3 <= 255 -> 0 <= o4 <= 255 ->
          host = join [46] (map str_of_int [o1; o2; o3; o4]) ->
          parse_host L host false = HostOk host)
    /\ (length (split_on [46] host) <> 4%nat
        \/ (exists part, In part (split_on [46] host) /\ not_an_octet part) ->
        parse_host L host false = HostOk (map ascii_lower a)).
Proof.
  intros L host bs domain a HL Hb H1 H2 H3 H4.
  assert (Hmain : parse_host L host false
                  = HostOk (match ascii_ipv4_address host with
                            | Some quad => quad
                            | None => map ascii_lower a
                            end)).
  { unfold parse_host. rewrite Hb, H1, H2, H3, H4, HL.
    now destruct (ascii_ipv4_address host). }
  split; [exact Hmain|]. split.
  - intros o1 o2 o3 o4 R1 R2 R3 R4 E. rewrite Hmain, E.
    now rewrite (dotted_quad_accepted o1 o2 o3 o4 R1 R2 R3 R4).
  - intros H. rewrite Hmain.
    rewrite (refused_part_refuses_address host); [reflexivity|].
    destruct H as [H|[part [Hin Hp]]]; [now left|].
    right. exists part. split; [exact Hin|].
    now apply not_an_octet_refused.
Qed.

Lemma C4_ipv4_only_through_strict_parser_witness :
  parse_host ascii_libs (lit "1.2.3.4") false = HostOk (lit "1.2.3.4")
  /\ parse_host ascii_libs (lit "0x7F.1") false = HostOk (lit "0x7f.1")
  /\ parse_host ascii_libs (lit "0177.0.0.1") false = HostOk (lit "0177.0.0.1")
  /\ parse_host ascii_libs (lit "Example.COM") false = HostOk (lit "example.com").
Proof.
  split; [|split; [|split]].
  - destruct (C4_ipv4_only_through_strict_parser ascii_libs (lit "1.2.3.4")
                (lit "1.2.3.4") (lit "1.2.3.4") (lit "1.2.3.4")
                (fun s => eq_refl) eq_refl eq_refl eq_refl eq_refl eq_refl)
      as [_ [H _]].
    apply (H 1 2 3 4); first [lia | reflexivity].
  - destruct (C4_ipv4_only_through_strict_parser ascii_libs (lit "0x7F.1")
                (lit "0x7F.1") (lit "0x7F.1") (lit "0x7f.1")
                (fun s => eq_refl) eq_refl eq_refl eq_refl eq_refl eq_refl)
      as [_ [_ H]].
    apply H. left. vm_compute. discriminate.
  - destruct (C4_ipv4_only_through_strict_parser ascii_libs (lit "0177.0.0.1")
                (lit "0177.0.0.1") (lit "0177.0.0.1") (lit "0177.0.0.1")
                (fun s => eq_refl) eq_refl eq_refl eq_refl eq_refl eq_refl)
      as [_ [_ H]].
    apply H. right. exists (lit "0177"). split; [vm_compute; tauto|].
    right. right. right. left. split; [vm_compute; lia | reflexivity].
  - destruct (C4_ipv4_only_through_strict_parser ascii_libs (lit "Example.COM")
                (lit "Example.COM") (lit "Example.COM") (lit "example.com")
                (fun s => eq_refl) eq_refl eq_refl eq_refl eq_refl eq_refl)
      as [_ [_ H]].
    apply H. left. vm_compute. discriminate.
Defined.

(** ** The outcome of a run, without fuel *)

Lemma ends_running L data lp p lp' p' r :
  tick L data lp p = Running lp' p' ->
  (ends L data lp p r <-> ends L data lp' p' r).
Proof.
  intros Ht. split; intros [fuel H].
  - destruct fuel as [|fuel]; [discriminate|]. cbn [run] in H.
    rewrite Ht in H. now exists fuel.
  - exists (S fuel). cbn [run]. now rewrite Ht.
Qed.

Lemma ends_finished L data lp p r' r :
  tick L data lp p = Finished r' ->
  (ends L data lp p r <-> r = r').
Proof.
  intros Ht. split.
  - intros [fuel H]. destruct fuel as [|fuel]; [discriminate|].
    cbn [run] in H. rewrite Ht in H. congruence.
  - intros ->. exists 1%nat. cbn [run]. now rewrite Ht.
Qed.

Lemma ends_unique L data lp p r1 r2 :
  ends L data lp p r1 -> ends L data lp p r2 -> r1 = r2.
Proof.
  intros [f1 H1] [f2 H2].
  apply run_more_fuel with (fuel' := Nat.max f1 f2) in H1; [|lia].
  apply run_more_fuel with (fuel' := Nat.max f1 f2) in H2; [|lia].
  congruence.
Qed.

Lemma parse_ends L p data enc override r :
  parse L p data enc override = Some r <->
  ends L (fst (parse_start p data enc override)) OuterTest
    (snd (parse_start p data enc override)) r.
Proof.
  unfold parse. destruct (parse_start p data enc override) as [d p0] eqn:E.
  cbn [fst snd]. split.
  - intros H. now exists (parse_fuel d).
  - intros He.
    destruct (parse_total L p data enc override) as [r' Hr'].
    unfold parse in Hr'. rewrite E in Hr'.
    assert (r = r') by (eapply ends_unique; [exact He | now exists (parse_fuel d)]).
    congruence.
Qed.

(** ** Reading the input one code point at a time *)

Lemma skipn_cons_inv {A} : forall n (l : list A) x rest,
  skipn n l = x :: rest ->
  nth_error l n = Some x /\ skipn (S n) l = rest /\ (n < length l)%nat.
Proof.
  induction n as [|n IH]; intros [|y l] x rest H; cbn in H; try discriminate.
  - injection H as -> ->. cbn. repeat split. lia.
  - destruct (IH l x rest H) as [H1 [H2 H3]]. cbn [nth_error length].
    repeat split; [assumption.. | lia].
Qed.

Lemma py_index_skipn data i x rest :
  0 <= i -> skipn (Z.to_nat i) data = x :: rest ->
  py_index data i = Some x
  /\ py_slice_from data (i + 1) = rest
  /\ i < Z.of_nat (length data).
Proof.
  intros Hi Hs.
  destruct (skipn_cons_inv _ _ _ _ Hs) as [Hx [Hr Hlt]].
  repeat split; [| |lia].
  - unfold py_index.
    replace ((0 <=? i) && (i <? Z.of_nat (length data))) with true; [exact Hx|].
    symmetry. apply andb_true_iff. split; [apply Z.leb_le | apply Z.ltb_lt]; lia.
  - unfold py_slice_from.
    replace (i + 1 <? 0) with false by (symmetry; apply Z.ltb_ge; lia).
    replace (Z.to_nat (i + 1)) with (S (Z.to_nat i)) by lia.
    exact Hr.
Qed.

Lemma tail_step L c r p :
  tail_ok p ->
  match handler L (_state p) c r p with
  | Normal p' => tail_ok p' /\ _pointer p' = _pointer p
  | PyError => True
  | _ => False
  end.
Proof.
  intros [Ho [Hs Ht]]. unfold tail_ok.
  destruct (_state p) eqn:Hst; try discriminate Ht; cbn [handler].
  - (* PATH *)
    unfold _on_path.
    destruct (is_c c "" || is_c c "/" || _ || _).
    + set (x := path_trim_file c _).
      assert (Hx : state_override x = None /\ scheme (url x) = scheme (url p)
                   /\ _state x = PATH /\ _pointer x = _pointer p).
      { subst x.
        match goal with |- context [path_trim_file c ?y] =>
          destruct (path_trim_file_control c y) as [_ [_ [H1 [H2 [H3 _]]]]];
          destruct (path_trim_file_url c y) as [[H4 _] _];
          rewrite H1, H2, H3, H4
        end.
        match goal with |- context [path_flush ?s ?y] =>
          destruct (path_flush_control s y) as [_ [_ [H5 [H6 [H7 _]]]]];
          destruct (path_flush_url s y) as [H8 _];
          destruct (path_flush s y) as [u' ? ? ? ? ? ? ? ? ? ?]
        end.
        cbn in H5, H6, H7, H8 |- *.
        rewrite H5, H6, H7, H8.
        destruct p as [u b enc so ve st ptr buf af sq pw].
        cbn in *. destruct (_ && _); cbn; auto. }
      destruct Hx as [X1 [X2 [X3 X4]]].
      destruct x as [u' ? ? ? ? ? ? ? ? ? ?]; destruct u'. cbn in *.
      rewrite <- X2 in Hs. subst.
      repeat (brk; proj); unfold_updates; proj; auto.
    + destruct c as [x|]; [|exact I].
      destruct p as [u b enc so ve st ptr buf af sq pw].
      unfold_updates; proj. cbn in Ho, Hs. subst.
      repeat (brk; proj); cbn; auto.
  - destruct p as [u b enc so ve st ptr buf af sq pw]; destruct u.
    unfold_handlers; unfold_updates; proj; cbn in Ho, Hs; subst.
    repeat (brk; proj); cbn; auto.
  - destruct p as [u b enc so ve st ptr buf af sq pw]; destruct u.
    unfold_handlers; unfold_updates; proj; cbn in Ho, Hs; subst.
    repeat (brk; proj); cbn; auto.
  - destruct p as [u b enc so ve st ptr buf af sq pw]; destruct u.
    unfold_handlers; unfold_updates; proj; cbn in Ho, Hs; subst.
    repeat (brk; proj); cbn; auto.
Qed.

Lemma ends_feed L data : forall rest p,
  tail_ok p ->
  0 <= _pointer p ->
  skipn (Z.to_nat (_pointer p)) data = rest ->
  (_pointer p <= Z.of_nat (length data)) ->
  ends L data InnerTest p (feed L rest p).
Proof.
  set (n := Z.of_nat (length data)).
  induction rest as [|x rest IH]; intros p Hok Hp Hs Hn.
  - assert (Hpn : _pointer p = n).
    { destruct (Z_lt_ge_dec (_pointer p) n) as [Hlt|Hge]; [|lia].
      exfalso. assert (H : (length (skipn (Z.to_nat (_pointer p)) data) > 0)%nat)
        by (rewrite length_skipn; unfold n in Hlt; lia).
      rewrite Hs in H. cbn in H. lia. }
    assert (Ht : tick L data InnerTest p = after_call (handler L (_state p) None [] p)).
    { unfold tick. fold n. now rewrite Hpn, Z.eqb_refl. }
    cbn [feed]. pose proof (tail_step L None [] p Hok) as Hstep.
    destruct (handler L (_state p) None [] p) as [p'| | |]; try contradiction.
    + destruct Hstep as [_ Hptr]. cbn [after_call] in Ht.
      apply (ends_running _ _ _ _ _ _ _ Ht).
      assert (Hq : _pointer (move 1 p') = n + 1) by (destruct p'; cbn in *; lia).
      assert (Ht2 : tick L data InnerTest (move 1 p')
                    = Running OuterTest (move 1 p')).
      { unfold tick. fold n. rewrite Hq.
        replace (n + 1 =? n) with false by (symmetry; apply Z.eqb_neq; lia).
        reflexivity. }
      apply (ends_running _ _ _ _ _ _ _ Ht2).
      apply ends_finished with (r' := Returned (move 1 p')); [|reflexivity].
      unfold tick. fold n. rewrite Hq.
      replace (n + 1 <? n) with false by (symmetry; apply Z.ltb_ge; lia).
      replace (n + 1 =? 0) with false
        by (symmetry; apply Z.eqb_neq; unfold n; lia).
      now rewrite andb_false_r.
    + cbn [after_call] in Ht. now apply ends_finished with (r' := Crashed).
  - destruct (py_index_skipn data (_pointer p) x rest Hp Hs) as [Hi [Hsl Hlt]].
    fold n in Hlt.
    assert (Ht : tick L data InnerTest p = Running OuterTest p).
    { unfold tick. fold n.
      replace (_pointer p =? n) with false by (symmetry; apply Z.eqb_neq; lia).
      reflexivity. }
    apply (ends_running _ _ _ _ _ _ _ Ht).
    assert (Ht2 : tick L data OuterTest p
                  = after_call (handler L (_state p) (Some x) rest p)).
    { unfold tick. fold n.
      replace (_pointer p <? n) with true by (symmetry; apply Z.ltb_lt; lia).
      cbn [orb].
      replace (0 <? n) with true by (symmetry; apply Z.ltb_lt; lia).
      now rewrite Hi, Hsl. }
    cbn [feed]. pose proof (tail_step L (Some x) rest p Hok) as Hstep.
    destruct (handler L (_state p) (Some x) rest p) as [p'| | |];
      try contradiction.
    + destruct Hstep as [Hok' Hptr]. cbn [after_call] in Ht2.
      apply (ends_running _ _ _ _ _ _ _ Ht2).
      assert (Hq : _pointer (move 1 p') = _pointer p + 1)
        by (destruct p'; cbn in *; lia).
      apply IH.
      * destruct p'; exact Hok'.
      * lia.
      * rewrite Hq. replace (Z.to_nat (_pointer p + 1))
          with (S (Z.to_nat (_pointer p))) by lia.
        destruct (skipn_cons_inv _ _ _ _ Hs) as [_ [H _]]. exact H.
      * rewrite Hq. fold n. lia.
    + cbn [after_call] in Ht2. now apply ends_finished with (r' := Crashed).
Qed.

(** ** One handler call at a time *)

Lemma ends_after_call L data lp p s r :
  tick L data lp p = after_call s ->
  (ends L data lp p r <-> ends_after L data s r).
Proof.
  intros Ht. destruct s as [p'| p'| |]; cbn [after_call ends_after leaves] in *.
  - now apply ends_running.
  - now apply ends_finished.
  - now apply ends_finished.
  - now apply ends_finished.
Qed.

Lemma ends_char L data p x rest r :
  0 <= _pointer p ->
  skipn (Z.to_nat (_pointer p)) data = x :: rest ->
  (ends L data InnerTest p r <->
   ends_after L data (handler L (_state p) (Some x) rest p) r).
Proof.
  intros Hp Hs.
  destruct (py_index_skipn data (_pointer p) x rest Hp Hs) as [Hi [Hsl Hlt]].
  assert (Ht : tick L data InnerTest p = Running OuterTest p).
  { unfold tick.
    replace (_pointer p =? Z.of_nat (length data)) with false
      by (symmetry; apply Z.eqb_neq; lia).
    reflexivity. }
  rewrite (ends_running _ _ _ _ _ _ r Ht).
  apply ends_after_call. unfold tick.
  replace (_pointer p <? Z.of_nat (length data)) with true
    by (symmetry; apply Z.ltb_lt; lia).
  cbn [orb].
  replace (0 <? Z.of_nat (length data)) with true
    by (symmetry; apply Z.ltb_lt; lia).
  now rewrite Hi, Hsl.
Qed.

Lemma ends_eof L data p r :
  _pointer p = Z.of_nat (length data) ->
  (ends L data InnerTest p r <->
   ends_after L data (handler L (_state p) None [] p) r).
Proof.
  intros Hp. apply ends_after_call. unfold tick.
  now rewrite Hp, Z.eqb_refl.
Qed.

Lemma ends_exit L data p r :
  Z.of_nat (length data) < _pointer p ->
  (ends L data InnerTest p r <-> r = Returned p).
Proof.
  intros Hp.
  assert (Ht : tick L data InnerTest p = Running OuterTest p).
  { unfold tick.
    replace (_pointer p =? Z.of_nat (length data)) with false
      by (symmetry; apply Z.eqb_neq; lia).
    reflexivity. }
  rewrite (ends_running _ _ _ _ _ _ r Ht).
  apply ends_finished. unfold tick.
  replace (_pointer p <? Z.of_nat (length data)) with false
    by (symmetry; apply Z.ltb_ge; lia).
  replace (_pointer p =? 0) with false by (symmetry; apply Z.eqb_neq; lia).
  now rewrite andb_false_r.
Qed.

Lemma ends_start L data p r :
  _pointer p = 0 ->
  (ends L data OuterTest p r <-> ends L data InnerTest p r).
Proof.
  intros Hp. destruct data as [|x data].
  - apply ends_running. unfold tick. rewrite Hp. reflexivity.
  - symmetry. apply ends_running. unfold tick. rewrite Hp. reflexivity.
Qed.

Lemma skipn_all_nil {A} (l : list A) n :
  (length l <= n)%nat -> skipn n l = [].
Proof. intros H. now apply skipn_all2. Qed.

(** ** A parser without a base fails in the no-scheme state *)

Lemma no_scheme_fails L data p r :
  base p = None -> _state p = NO_SCHEME -> _pointer p = 0 ->
  ends L data InnerTest p r -> r = Failed.
Proof.
  intros Hb Hs Hp He.
  destruct data as [|x rest].
  - apply ends_eof in He; [|now rewrite Hp].
    rewrite Hs in He. cbn [handler] in He. unfold _on_no_scheme in He.
    rewrite Hb in He. exact He.
  - apply (ends_char L (x :: rest) p x rest) in He;
      [|lia | now rewrite Hp].
    rewrite Hs in He. cbn [handler] in He. unfold _on_no_scheme in He.
    rewrite Hb in He. exact He.
Qed.

(** ** The scheme of a URL parsed without a base *)

Lemma parse_url_start s enc :
  parse_start (UrlParser_init Url_default None (lit "utf-8")) s enc None
  = (fst (preprocess s),
     start_at (match enc with Some e => e | None => lit "utf-8" end)
              (snd (preprocess s))).
Proof.
  unfold parse_start. destruct (preprocess s) as [d e]. cbn [fst snd].
  unfold start_at. destruct e; reflexivity.
Qed.

Lemma skipn_app_exact {A} (a b : list A) : skipn (length a) (a ++ b) = b.
Proof. induction a; cbn; auto. Qed.

Lemma scheme_start_alpha L enc ve a rest r :
  mem a ASCII_ALPHA = true ->
  (ends L (a :: rest) InnerTest (start_at enc ve) r <->
   ends L (a :: rest) InnerTest (scheme_at enc ve [a]) r).
Proof.
  intros Ha.
  rewrite (ends_char L (a :: rest) (start_at enc ve) a rest);
    [|cbn; lia | reflexivity].
  cbn [start_at _state handler]. unfold _on_scheme_start.
  cbn [cin]. rewrite Ha. reflexivity.
Qed.

Lemma scheme_start_other L enc ve data r :
  match data with a :: _ => mem a ASCII_ALPHA = false | [] => True end ->
  ends L data InnerTest (start_at enc ve) r -> r = Failed.
Proof.
  intros Ha He. destruct data as [|a rest].
  - apply ends_eof in He; [|reflexivity].
    cbn in He. eapply no_scheme_fails; [| | |exact He]; reflexivity.
  - apply (ends_char L (a :: rest) _ a rest) in He; [|cbn; lia | reflexivity].
    cbn [start_at _state handler] in He. unfold _on_scheme_start in He.
    cbn [cin] in He. rewrite Ha in He. cbn in He.
    eapply no_scheme_fails; [| | |exact He]; reflexivity.
Qed.

Lemma scheme_at_snoc enc ve pre x :
  move 1 (set_buffer (_buffer (scheme_at enc ve pre) ++ map ascii_lower [x])
            (scheme_at enc ve pre))
  = scheme_at enc ve (pre ++ [x]).
Proof.
  unfold scheme_at, move, set_buffer, set_pointer. cbn.
  rewrite map_app, length_app. cbn. f_equal. lia.
Qed.

Lemma scheme_scan L enc ve r : forall mid pre rest,
  Forall (fun x => mem x SCHEME_CHARS = true) mid ->
  (ends L (pre ++ mid ++ rest) InnerTest (scheme_at enc ve pre) r <->
   ends L (pre ++ mid ++ rest) InnerTest (scheme_at enc ve (pre ++ mid)) r).
Proof.
  induction mid as [|x mid IH]; intros pre rest Hm.
  - now rewrite app_nil_r.
  - inversion Hm as [|? ? Hx Hm']; subst.
    rewrite (ends_char L _ (scheme_at enc ve pre) x (mid ++ rest)).
    + cbn [scheme_at _state handler]. unfold _on_scheme at 1.
      cbn [cin]. rewrite Hx. cbn [ends_after].
      match goal with |- ends _ _ _ ?q _ <-> _ =>
        replace q with (scheme_at enc ve (pre ++ [x]))
          by (symmetry; exact (scheme_at_snoc enc ve pre x))
      end.
      replace (pre ++ (x :: mid) ++ rest) with ((pre ++ [x]) ++ mid ++ rest)
        by (rewrite <- app_assoc; reflexivity).
      rewrite (IH (pre ++ [x]) rest Hm').
      replace ((pre ++ [x]) ++ mid) with (pre ++ x :: mid)
        by (rewrite <- app_assoc; reflexivity).
      reflexivity.
    + cbn. lia.
    + cbn [scheme_at _pointer]. rewrite Nat2Z.id. apply skipn_app_exact.
Qed.

Lemma scheme_stop L enc ve pre rest r :
  match rest with
  | y :: _ => mem y SCHEME_CHARS = false /\ y <> 58
  | [] => True
  end ->
  ends L (pre ++ rest) InnerTest (scheme_at enc ve pre) r -> r = Failed.
Proof.
  intros Hy He. destruct rest as [|y rest].
  - apply ends_eof in He; [|cbn; now rewrite app_nil_r].
    cbn in He. eapply no_scheme_fails; [| | |exact He]; reflexivity.
  - destruct Hy as [Hy Hc].
    apply (ends_char L _ _ y rest) in He;
      [|cbn; lia | cbn [scheme_at _pointer]; rewrite Nat2Z.id;
                   apply skipn_app_exact].
    cbn [scheme_at _state handler] in He. unfold _on_scheme in He.
    cbn [cin] in He. rewrite Hy in He.
    replace (is_c (Some y) ":") with false in He.
    + cbn in He. eapply no_scheme_fails; [| | |exact He]; reflexivity.
    + symmetry. unfold is_c. cbn. rewrite andb_true_r. now apply Z.eqb_neq.
Qed.

(** ** Termination of [parse] *)

Lemma ends_advance L data r : forall k lp p lp' p',
  advance L k data lp p = Some (lp', p') ->
  (ends L data lp p r <-> ends L data lp' p' r).
Proof.
  induction k as [|k IH]; intros lp p lp' p' H; cbn [advance] in H.
  - injection H as <- <-. reflexivity.
  - destruct (tick L data lp p) as [lp1 p1|] eqn:Ht; [|discriminate].
    rewrite (ends_running L data lp p lp1 p1 r Ht). now apply IH.
Qed.

(** C10 (as the code behaves): for every parser object, input, encoding and
    state override the loops of [parse] stop within [parse_fuel] tests of
    their conditions, whatever the handlers do to the pointer, and more
    fuel does not change the outcome.  But the outcome can be neither a URL
    nor the parser error: on ["http://a..b/"], with libraries that answer
    there as the real ones do, the [UnicodeError] that [ToASCII] raises on
    the empty label escapes from [parse_host], which catches
    [idna.IDNAError] only; the [IDNAError] that [domain_to_ascii] raises
    itself for an empty label is never reached. *)
Theorem C10_library_exception_escapes :
  forall L,
    (forall p data enc override,
      exists r,
        parse L p data enc override = Some r
        /\ forall fuel,
             (parse_fuel (fst (parse_start p data enc override)) <= fuel)%nat ->
             run L fuel (fst (parse_start p data enc override)) OuterTest
               (snd (parse_start p data enc override))
             = Some r)
    /\ (utf8_decode L (lit "a..b") = Some (lit "a..b") ->
        uts46_remap L (lit "a..b") = Some (lit "a..b") ->
        ToASCII L (lit "a") = Some (lit "a") ->
        ToASCII L [] = None ->
        parse_url L (lit "http://a..b/") None None = Some Crashed).
Proof.
  intros L. split.
  - intros p data enc override.
    destruct (parse_total L p data enc override) as [r Hr].
    exists r. split; [exact Hr|].
    intros fuel Hle. unfold parse in Hr.
    destruct (parse_start p data enc override) as [d p0]. cbn [fst snd].
    eapply run_more_fuel; eassumption.
  - intros H1 H2 H3 H4.
    assert (Hh : parse_host L (lit "a..b") false = HostPyError).
    { unfold parse_host.
      change (startswith (lit "a..b") (lit "[")) with false. cbv iota.
      change (string_percent_decode (lit "a..b")) with (Some (lit "a..b")).
      cbv iota. rewrite H1. unfold domain_to_ascii. rewrite H2.
      change (split_on IDNA_DOTS (lit "a..b")) with [lit "a"; []; lit "b"].
      cbv iota. cbn [last removelast].
      change (str_eqb (lit "b") []) with false. cbv iota.
      cbn [to_ascii_list]. rewrite H3, H4. reflexivity. }
    unfold parse_url. apply parse_ends.
    assert (Hs : parse_start (UrlParser_init Url_default None (lit "utf-8"))
                   (lit "http://a..b/") None None
                 = (lit "http://a..b/",
                    mkParser Url_default None (lit "utf-8") None false
                      SCHEME_START 0 [] false false false))
      by (vm_compute; reflexivity).
    rewrite Hs. cbn [fst snd].
    apply (ends_advance L (lit "http://a..b/") Crashed 32 OuterTest _ OuterTest
             (mkParser
                (mkUrl (Some (lit "http")) None None None None None None []
                   false)
                None (lit "utf-8") None false HOST 11 (lit "a..b") false false
                false));
      [vm_compute; reflexivity|].
    apply (ends_finished L _ _ _ Crashed); [|reflexivity].
    unfold tick.
    change (_pointer _ <? Z.of_nat (length (lit "http://a..b/"))) with true.
    cbn [orb]. change (0 <? Z.of_nat (length (lit "http://a..b/"))) with true.
    cbv iota.
    change (py_index (lit "http://a..b/") _) with (Some 47).
    cbv iota. cbn [_state handler]. unfold _on_host_or_hostname.
    cbn [overridden state_override andb].
    change (is_c (Some 47) ":") with false. cbn [andb].
    change (str_in (cstr (Some 47)) PATH_DELIMITERS) with true. cbn [orb].
    cbv iota. unfold_updates; proj.
    change (in_special (Some (lit "http"))) with true.
    change (str_eqb (lit "a..b") []) with false. cbn [andb negb].
    cbv iota. rewrite Hh. reflexivity.
Qed.

Lemma C10_library_exception_escapes_witness :
  parse_url ascii_libs (lit "http://a..b/") None None = Some Crashed.
Proof.
  apply (proj2 (C10_library_exception_escapes ascii_libs)); reflexivity.
Defined.

(** ** Invariants of the loops that do not depend on the pointer *)

Lemma ends_invariant L data (I : UrlParser -> Prop) :
  (forall p, I p -> I (move 1 p)) ->
  (forall c r p q, I p ->
     result_of (handler L (_state p) c r p) = Some q -> I q) ->
  forall lp p q, I p -> ends L data lp p (Returned q) -> I q.
Proof.
  intros Hmove Hstep lp p q Hp [fuel H]. revert lp p Hp H.
  induction fuel as [|fuel IH]; intros lp p Hp H; [discriminate|].
  cbn [run] in H.
  assert (Hcall : forall c r,
            match after_call (handler L (_state p) c r p) with
            | Running _ p' => I p'
            | Finished (Returned p') => I p'
            | Finished _ => True
            end).
  { intros c r. pose proof (Hstep c r p) as Hs.
    destruct (handler L (_state p) c r p) as [p'|p'| |]; cbn [after_call];
      try exact I0; try exact Logic.I;
      [apply Hmove|]; apply Hs; try assumption; reflexivity. }
  assert (Ht : match tick L data lp p with
               | Running _ p' => I p'
               | Finished (Returned p') => I p'
               | Finished _ => True
               end).
  { unfold tick. destruct lp.
    - destruct (_ || _); [|assumption].
      destruct (0 <? _); [|assumption].
      destruct (py_index data (_pointer p)); [apply Hcall | exact Logic.I].
    - destruct (_ =? _); [apply Hcall | assumption]. }
  destruct (tick L data lp p) as [lp' p'|[q'| |]]; try discriminate.
  - eapply IH; eassumption.
  - now injection H as <-.
Qed.

(** ** A special scheme stays special *)

Lemma special_kept L c r p q :
  special_inv p ->
  result_of (handler L (_state p) c r p) = Some q ->
  special_inv q.
Proof.
  intros [Hv Hsp] H. unfold special_inv.
  destruct (_state p) eqn:Hst; cbn in Hv; try lia; cbn [handler] in H.
  11: {
    assert (Hq : scheme (url q) = scheme (url p)
                 /\ state_value (_state q) >= 18).
    { unfold _on_path in H.
      repeat match type of H with
      | context [if ?b then _ else _] => destruct b eqn:?
      end.
      all: try (destruct c; [|discriminate H]; unfold or_raise in H;
                destruct (percent_encode _ _); [|discriminate H]).
      all: cbn [result_of] in H; inv_signal.
      all: try match goal with
        |- context [path_trim_file ?c ?x] =>
          pose proof (path_trim_file_control c x);
          pose proof (path_trim_file_url c x) as [? _];
          destruct (path_trim_file c x);
          match goal with
          | H : context [path_flush ?s ?y] |- _ =>
              pose proof (path_flush_control s y);
              pose proof (path_flush_url s y);
              destruct (path_flush s y)
          end
        end.
      all: destruct p as [u b enc so ve st ptr buf af sq pw];
        unfold same_control, same_scheme_port in *; unfold_updates; proj; subst.
      all: repeat (brk; proj); split_ands; subst; proj;
        repeat match goal with u : Url |- _ => destruct u end; proj;
        repeat split; try congruence; cbn; lia. }
    destruct Hq as [Hs Hv']. rewrite Hs. split; [lia | assumption].
  }
  all: destruct p as [u b enc so ve st ptr buf af sq pw]; destruct u;
    unfold_handlers; unfold_updates; proj; subst.
  all: repeat (brk_in H; proj); cbn [result_of] in H; try inv_signal; proj.
  all: try match goal with
    | H : authority_loop _ _ = Some ?q |- _ =>
        pose proof (authority_loop_control _ _ _ H) as Hc;
        apply authority_loop_url in H; unfold same_control in Hc;
        unfold same_scheme_port in H; proj; split_ands
    end.
  all: repeat match goal with u : Url |- _ => destruct u end; proj.
  all: try match goal with
    | |- context [shorten_url_path ?u] =>
        destruct (shorten_url_path_scheme_port u) as [[Hs [Hp _]] _];
        destruct (shorten_url_path u); proj
    end.
  all: proj; subst; split; try (cbn; lia); try assumption; try reflexivity;
    try congruence.
Qed.

(** ** After the authority, the host is present *)

Lemma in_special_file o : in_special o = false -> opt_is o "file" = false.
Proof.
  destruct o as [s|]; [|reflexivity]. unfold in_special, opt_is.
  destruct (str_eqb s (lit "file")) eqn:E; [|reflexivity].
  apply str_eqb_eq in E. subst s. discriminate.
Qed.

Lemma shorten_url_path_other u :
  opt_is (scheme u) "file" = false ->
  shorten_url_path u = with_path (removelast (_path u)) u.
Proof.
  intros H. unfold shorten_url_path. rewrite H. cbn [andb].
  destruct u as [sc ho po us pw qu fr pa cb]. cbn.
  destruct pa; reflexivity.
Qed.

Lemma path_flush_other slash p :
  opt_is (scheme (url p)) "file" = false ->
  path_flush slash p = path_flush_plain slash p.
Proof.
  intros H. unfold path_flush, path_flush_plain, path_drive_letter.
  rewrite H. cbn [andb].
  destruct p as [u b enc so ve st ptr buf af sq pw].
  unfold on_url, set_url. cbn [url _buffer] in *.
  now rewrite shorten_url_path_other.
Qed.

Lemma path_flush_plain_frame slash p :
  let q := path_flush_plain slash p in
  scheme (url q) = scheme (url p) /\ hostname (url q) = hostname (url p)
  /\ port (url q) = port (url p) /\ username (url q) = username (url p)
  /\ password (url q) = password (url p) /\ query (url q) = query (url p)
  /\ fragment (url q) = fragment (url p)
  /\ cannot_be_base_url (url q) = cannot_be_base_url (url p)
  /\ base q = base p /\ encoding q = encoding p
  /\ state_override q = state_override p /\ _state q = _state p
  /\ _pointer q = _pointer p /\ _buffer q = _buffer p
  /\ validation_error q = validation_error p.
Proof.
  destruct p as [u b enc so ve st ptr buf af sq pw]; destruct u.
  unfold path_flush_plain; unfold_updates; proj.
  repeat (brk; proj); cbn; repeat split.
Qed.

(** The path state at the end of a segment, for a scheme other than
    [file]. *)
Lemma path_end_other c slash e p :
  opt_is (scheme (url p)) "file" = false ->
  path_trim_file c (set_buffer [] (path_flush slash (flag_error_if e p)))
  = set_buffer [] (path_flush_plain slash (flag_error_if e p)).
Proof.
  intros H.
  assert (H1 : opt_is (scheme (url (flag_error_if e p))) "file" = false)
    by (destruct e, p; exact H).
  rewrite (path_flush_other _ _ H1).
  unfold path_trim_file.
  destruct (path_flush_plain_frame slash (flag_error_if e p)) as [Hs _].
  destruct (path_flush_plain slash (flag_error_if e p)).
  cbn in Hs |- *. rewrite Hs, H1. reflexivity.
Qed.

Lemma on_path_other c r p :
  opt_is (scheme (url p)) "file" = false ->
  _on_path c r p =
  let cond := is_c c "\" && in_special (scheme (url p)) in
  if is_c c "" || is_c c "/" || cond
     || (negb (overridden p) && (is_c c "?" || is_c c "#")) then
    let p := set_buffer []
               (path_flush_plain (is_c c "/" || cond) (flag_error_if cond p)) in
    if is_c c "?" then Normal (set_state QUERY (on_url (with_query (Some [])) p))
    else if is_c c "#" then
      Normal (set_state FRAGMENT (on_url (with_fragment (Some [])) p))
    else Normal p
  else
    match c with
    | None => PyError
    | Some x =>
        let p := flag_error_if (negb (is_c c "%") && negb (_is_url_codepoint x)) p in
        let p := flag_error_if (is_c c "%" && negb (TWO_ASCII_HEX r)) p in
        or_raise (percent_encode x PATH_PERCENT_ENCODE) (fun e =>
        Normal (set_buffer (_buffer p ++ e) p))
    end.
Proof.
  intros H. unfold _on_path. cbv zeta.
  now rewrite (path_end_other c _ _ p H).
Qed.

Lemma host_known_kept L c r p q :
  host_known p ->
  result_of (handler L (_state p) c r p) = Some q ->
  host_known q.
Proof.
  intros [Ho [Hf [Hst Hh]]] H. unfold host_known.
  destruct (_state p) eqn:Est; try discriminate Hst; cbn [handler] in H.
  3: {
    rewrite (on_path_other c r p Hf) in H. cbv zeta in H.
    destruct p as [u b enc so ve st ptr buf af sq pw]; destruct u.
    revert H. unfold path_flush_plain; unfold_updates; proj.
    cbn in Ho, Hh. subst. intros H.
    repeat (brk_in H; proj); cbn [result_of] in H; try inv_signal;
      unfold_updates; proj; repeat split; auto; discriminate.
  }
  all: destruct p as [u b enc so ve st ptr buf af sq pw]; destruct u;
    unfold_handlers; unfold_updates; proj; cbn in Ho, Hh; subst.
  all: repeat (brk_in H; proj); cbn [result_of] in H; try inv_signal; proj.
  all: try congruence.
  all: repeat split; auto; discriminate.
Qed.

Lemma before_host_step L n c r p :
  state_override p = None ->
  opt_is (scheme (url p)) "file" = false ->
  before_host (_state p) = true ->
  (r <> [] -> _pointer p + 2 <= n) ->
  match c with Some _ => _pointer p < n | None => _pointer p = n end ->
  match handler L (_state p) c r p with
  | Normal q =>
      host_known q
      \/ (state_override q = None /\ opt_is (scheme (url q)) "file" = false
          /\ before_host (_state q) = true
          /\ _pointer q + 1 <= n)
  | _UrlParserReturn _ => False
  | _ => True
  end.
Proof.
  intros Ho Hf Hst Hr Hc. unfold host_known.
  destruct (_state p) eqn:Est; try discriminate Hst; cbn [handler].
  - unfold _on_special_authority_slashes.
    destruct p as [u b enc so ve st ptr buf af sq pw]; destruct u.
    unfold_updates; proj. cbn in Ho. subst.
    destruct (is_c c "/" && startswith r (lit "/")) eqn:E.
    + right. apply andb_true_iff in E. destruct E as [_ E].
      assert (Hne : r <> []) by (intros ->; discriminate E).
      specialize (Hr Hne). cbn. repeat split; auto. lia.
    + right. cbn. repeat split; auto. destruct c; lia.
  - unfold _on_special_authority_ignore_slashes.
    destruct p as [u b enc so ve st ptr buf af sq pw]; destruct u.
    unfold_updates; proj. cbn in Ho. subst.
    destruct c as [x|]; cbn [cstr];
      repeat (brk; proj); right; cbn; repeat split; auto;
      try lia; cbn in *; discriminate.
  - unfold _on_authority.
    destruct (is_c c "@") eqn:Hat.
    + cbv zeta. unfold or_raise.
      destruct (authority_loop _ _) as [q|] eqn:Hl; [|exact I].
      pose proof (authority_loop_control _ _ _ Hl) as [Hctl _].
      apply authority_loop_url in Hl. destruct Hl as [[Hs _] _].
      right. destruct q as [u' b' enc' so' ve' st' ptr' buf' af' sq' pw'].
      destruct p as [u b enc so ve st ptr buf af sq pw].
      destruct c as [x|]; [|discriminate Hat].
      unfold same_control in Hctl. revert Hs Hctl. unfold_updates; proj.
      repeat (brk; proj); cbn; intros; split_ands; subst;
        repeat split; try congruence; try lia.
    + destruct p as [u b enc so ve st ptr buf af sq pw]; destruct u.
      unfold_updates; proj. cbn in Ho, Est. subst.
      destruct c as [x|]; cbn [cstr];
        repeat (brk; proj); cbn; auto; right; repeat split;
        try congruence; try lia.
      all: try (cbn in *; discriminate).
      all: pose proof (Zle_0_nat (length buf)); lia.
  - destruct p as [u b enc so ve st ptr buf af sq pw]; destruct u.
    unfold_handlers; unfold_updates; proj. cbn in Ho, Est. subst.
    destruct c as [x|]; cbn [cstr];
      repeat (brk; proj); cbn; auto; try discriminate;
      try (left; repeat split; auto; congruence);
      try (right; repeat split; auto; try congruence; lia).
Qed.

Lemma host_known_move k p : host_known p -> host_known (move k p).
Proof. destruct p. exact (fun H => H). Qed.

Lemma host_bound_tick L data lp p :
  host_bound data lp p ->
  match tick L data lp p with
  | Running lp' p' => host_bound data lp' p'
  | Finished (Returned q) => hostname (url q) <> None
  | Finished _ => True
  end.
Proof.
  intros [Hk | [Ho [Hsp [Hst Hptr]]]].
  - assert (Hcall : forall c r,
              match after_call (handler L (_state p) c r p) with
              | Running lp' p' => host_bound data lp' p'
              | Finished (Returned q) => hostname (url q) <> None
              | Finished _ => True
              end).
    { intros c r. pose proof (host_known_kept L c r p) as H.
      destruct (handler L (_state p) c r p) as [q|q| |]; cbn [after_call];
        try exact I.
      - left. apply host_known_move. now apply H.
      - now apply H. }
    unfold tick. destruct lp.
    + destruct (_ || _); [|apply Hk].
      destruct (0 <? _); [|now left].
      destruct (py_index data (_pointer p)); [apply Hcall | exact I].
    + destruct (_ =? _); [apply Hcall | now left].
  - assert (Hcall : forall c r,
              (r <> [] -> _pointer p + 2 <= Z.of_nat (length data)) ->
              match c with
              | Some _ => _pointer p < Z.of_nat (length data)
              | None => _pointer p = Z.of_nat (length data)
              end ->
              match after_call (handler L (_state p) c r p) with
              | Running lp' p' => host_bound data lp' p'
              | Finished (Returned q) => hostname (url q) <> None
              | Finished _ => True
              end).
    { intros c r Hr Hc.
      pose proof (before_host_step L (Z.of_nat (length data)) c r p
                    Ho Hsp Hst Hr Hc) as H.
      destruct (handler L (_state p) c r p) as [q|q| |]; cbn [after_call];
        try exact I; try contradiction.
      destruct H as [H | [H1 [H2 [H3 H4]]]].
      - left. now apply host_known_move.
      - right. destruct q as [u' b' enc' so' ve' st' ptr' buf' af' sq' pw'].
        cbn in H1, H3, H4 |- *. repeat split; try assumption. }
    unfold tick. destruct lp.
    + replace (_pointer p <? Z.of_nat (length data)) with true
        by (symmetry; apply Z.ltb_lt; lia).
      cbn [orb].
      destruct (0 <? Z.of_nat (length data)).
      * destruct (py_index data (_pointer p)); [|exact I].
        apply Hcall; [|exact Hptr].
        intros Hne.
        destruct (py_slice_from data (_pointer p + 1)) as [|x rest] eqn:Es;
          [contradiction|].
        destruct (Z_lt_ge_dec (_pointer p + 1) 0) as [Hneg|Hpos]; [lia|].
        apply py_slice_from_nonempty in Es; lia.
      * right. repeat split; try assumption. lia.
    + destruct (_pointer p =? Z.of_nat (length data)) eqn:E.
      * apply Z.eqb_eq in E. apply Hcall; [intros Hne; contradiction | exact E].
      * apply Z.eqb_neq in E. right. repeat split; try assumption. lia.
Qed.

Lemma host_bound_ends L data lp p q :
  host_bound data lp p ->
  ends L data lp p (Returned q) -> hostname (url q) <> None.
Proof.
  intros Hb [fuel H]. revert lp p Hb H.
  induction fuel as [|fuel IH]; intros lp p Hb H; [discriminate|].
  cbn [run] in H. pose proof (host_bound_tick L data lp p Hb) as Ht.
  destruct (tick L data lp p) as [lp' p'|[q'| |]]; try discriminate.
  - eapply IH; eassumption.
  - now injection H as <-.
Qed.

(** ** The colon after the scheme *)

Lemma on_scheme_colon_special L r enc ve pre :
  in_special (Some (map ascii_lower pre)) = true ->
  exists q,
    handler L SCHEME (Some 58) r (scheme_at enc ve pre) = Normal q
    /\ special_inv q.
Proof.
  intros Hsp. cbn [handler]. unfold _on_scheme, scheme_at.
  change (cin (Some 58) SCHEME_CHARS) with false.
  change (is_c (Some 58) ":") with true.
  unfold_updates; proj. cbn [andb orb negb Url_default].
  unfold_updates; proj. unfold special_inv.
  repeat match goal with |- context [in_special ?a] =>
    replace (in_special a) with true by (symmetry; exact Hsp)
  end.
  cbn [andb].
  destruct (opt_is _ "file"); [destruct (negb _)|];
    eexists; (split; [reflexivity|]);
    cbn [_state url scheme state_value]; (split; [lia | assumption]).
Qed.

Lemma on_scheme_colon_other L r enc ve pre :
  in_special (Some (map ascii_lower pre)) = false ->
  handler L SCHEME (Some 58) r (scheme_at enc ve pre)
  = if startswith r (lit "/") then
      Normal (mkParser
                (mkUrl (Some (map ascii_lower pre)) None None None None None
                       None [] false)
                None enc None ve PATH_OR_AUTHORITY
                (Z.of_nat (length pre) + 1) [] false false false)
    else
      Normal (cbb_start_at enc ve (map ascii_lower pre)
                (Z.of_nat (length pre))).
Proof.
  intros Hsp. cbn [handler]. unfold _on_scheme, scheme_at, cbb_start_at.
  change (cin (Some 58) SCHEME_CHARS) with false.
  change (is_c (Some 58) ":") with true.
  unfold_updates; proj. cbn [andb orb negb Url_default].
  unfold_updates; proj.
  repeat match goal with |- context [in_special ?a] =>
    replace (in_special a) with false by (symmetry; exact Hsp)
  end.
  repeat match goal with |- context [opt_is ?a "file"] =>
    replace (opt_is a "file") with false
      by (symmetry; exact (in_special_file _ Hsp))
  end.
  cbn [andb].
  destruct (startswith r (lit "/")); reflexivity.
Qed.

Lemma scheme_at_skipn enc ve pre rest :
  skipn (Z.to_nat (_pointer (scheme_at enc ve pre))) (pre ++ rest) = rest.
Proof. cbn. rewrite Nat2Z.id. apply skipn_app_exact. Qed.

Lemma skipn_app_plus {A} (a b c : list A) :
  skipn (length a + length b) (a ++ b ++ c) = c.
Proof.
  rewrite app_assoc, <- length_app. apply skipn_app_exact.
Qed.

Lemma tail_ok_path_start enc ve sch ptr :
  in_special (Some sch) = false -> tail_ok (path_start_at enc ve sch ptr).
Proof. intros H. repeat split. exact H. Qed.

Lemma tail_ok_cbb_start enc ve sch ptr :
  in_special (Some sch) = false -> tail_ok (cbb_start_at enc ve sch ptr).
Proof. intros H. repeat split. exact H. Qed.

(** A scheme that is not special, then [:] and no [/]: the rest is read in
    the cannot-be-a-base-URL state. *)
Lemma colon_cbb L enc ve pre rest :
  in_special (Some (map ascii_lower pre)) = false ->
  startswith rest (lit "/") = false ->
  ends L (pre ++ 58 :: rest) InnerTest (scheme_at enc ve pre)
    (feed L rest (cbb_start_at enc ve (map ascii_lower pre)
                    (Z.of_nat (length pre) + 1))).
Proof.
  intros Hsp Hr.
  apply (ends_char L _ _ 58 rest); [cbn; lia | apply scheme_at_skipn |].
  match goal with |- ends_after _ _ ?h _ =>
    replace h with (Normal (cbb_start_at enc ve (map ascii_lower pre)
                              (Z.of_nat (length pre))))
      by (symmetry; etransitivity;
          [exact (on_scheme_colon_other L rest enc ve pre Hsp)
          |rewrite Hr; reflexivity])
  end.
  cbn [ends_after].
  apply ends_feed.
  - now apply tail_ok_cbb_start.
  - cbn. lia.
  - cbn. replace (Z.to_nat (Z.of_nat (length pre) + 1))
      with (length pre + length [58])%nat by (cbn; lia).
    apply (skipn_app_plus pre [58] rest).
  - cbn. rewrite length_app. cbn [length]. lia.
Qed.

(** A scheme that is not special, then [:/] and no second [/]: the rest is
    read in the path state. *)
Lemma colon_path L enc ve pre rest :
  in_special (Some (map ascii_lower pre)) = false ->
  startswith rest (lit "/") = false ->
  ends L (pre ++ 58 :: 47 :: rest) InnerTest (scheme_at enc ve pre)
    (feed L rest (path_start_at enc ve (map ascii_lower pre)
                    (Z.of_nat (length pre) + 2))).
Proof.
  intros Hsp Hr.
  apply (ends_char L _ _ 58 (47 :: rest)); [cbn; lia | apply scheme_at_skipn |].
  match goal with |- ends_after _ _ ?h _ =>
    replace h with
      (Normal (mkParser
                 (mkUrl (Some (map ascii_lower pre)) None None None None None
                        None [] false)
                 None enc None ve PATH_OR_AUTHORITY
                 (Z.of_nat (length pre) + 1) [] false false false))
      by (symmetry; etransitivity;
          [exact (on_scheme_colon_other L (47 :: rest) enc ve pre Hsp)
          |destruct rest; reflexivity])
  end.
  cbn [ends_after].
  assert (Hskip : skipn (Z.to_nat (Z.of_nat (length pre) + 2))
                    (pre ++ 58 :: 47 :: rest) = rest).
  { replace (Z.to_nat (Z.of_nat (length pre) + 2))
      with (length pre + length [58; 47])%nat by (cbn; lia).
    apply (skipn_app_plus pre [58; 47] rest). }
  assert (Hlen : Z.of_nat (length (pre ++ 58 :: 47 :: rest))
                 = Z.of_nat (length pre) + 2 + Z.of_nat (length rest)).
  { rewrite length_app. cbn [length]. lia. }
  assert (Hnext : ends L (pre ++ 58 :: 47 :: rest) InnerTest
            (path_start_at enc ve (map ascii_lower pre)
               (Z.of_nat (length pre) + 2))
            (feed L rest (path_start_at enc ve (map ascii_lower pre)
                            (Z.of_nat (length pre) + 2)))).
  { apply ends_feed.
    - now apply tail_ok_path_start.
    - cbn. lia.
    - exact Hskip.
    - cbn [path_start_at _pointer]. lia. }
  destruct rest as [|x rest'].
  - apply ends_eof.
    + cbn [move set_pointer _pointer]. rewrite Hlen. cbn [length]. lia.
    + cbn [move set_pointer _pointer _state handler].
      unfold _on_path_or_authority.
      change (is_c None "/") with false. cbv iota. cbn [ends_after].
      unfold move, set_state, set_pointer; proj.
      replace (Z.of_nat (length pre) + 1 + 1 + -1 + 1)
        with (Z.of_nat (length pre) + 2) by lia.
      exact Hnext.
  - apply (ends_char L _ _ x rest').
    + cbn. lia.
    + cbn [move set_pointer _pointer].
      replace (Z.of_nat (length pre) + 1 + 1)
        with (Z.of_nat (length pre) + 2) by lia.
      exact Hskip.
    + cbn [move set_pointer _pointer _state handler].
      unfold _on_path_or_authority.
      replace (is_c (Some x) "/") with false.
      * cbv iota. cbn [ends_after].
        unfold move, set_state, set_pointer; proj.
        replace (Z.of_nat (length pre) + 1 + 1 + -1 + 1)
          with (Z.of_nat (length pre) + 2) by lia.
        exact Hnext.
      * unfold is_c. cbn in Hr |- *. destruct (x =? 47); [|reflexivity].
        destruct rest'; discriminate Hr.
Qed.

(** ** The two ways to a URL without a host *)

Lemma span_scheme_chars : forall l : str,
  exists mid rest, l = mid ++ rest
    /\ Forall (fun x => mem x SCHEME_CHARS = true) mid
    /\ match rest with
       | y :: _ => mem y SCHEME_CHARS = false
       | [] => True
       end.
Proof.
  induction l as [|x l [mid [rest [E [Hm Hr]]]]].
  - exists [], []. repeat split. constructor.
  - destruct (mem x SCHEME_CHARS) eqn:Hx.
    + exists (x :: mid), rest. subst l. repeat split; [|exact Hr].
      now constructor.
    + exists [], (x :: l). repeat split; [constructor | exact Hx].
Qed.

Lemma colon_host L enc ve pre rest q :
  in_special (Some (map ascii_lower pre)) = false ->
  ends L (pre ++ 58 :: 47 :: 47 :: rest) InnerTest (scheme_at enc ve pre)
    (Returned q) ->
  hostname (url q) <> None.
Proof.
  intros Hsp He.
  apply (ends_char L _ _ 58 (47 :: 47 :: rest)) in He;
    [|cbn; lia | apply scheme_at_skipn].
  match type of He with ends_after _ _ ?h _ =>
    replace h with
      (Normal (mkParser
                 (mkUrl (Some (map ascii_lower pre)) None None None None None
                        None [] false)
                 None enc None ve PATH_OR_AUTHORITY
                 (Z.of_nat (length pre) + 1) [] false false false)) in He
      by (symmetry; etransitivity;
          [exact (on_scheme_colon_other L (47 :: 47 :: rest) enc ve pre Hsp)
          |reflexivity])
  end.
  cbn [ends_after] in He.
  apply (ends_char L _ _ 47 rest) in He.
  - cbn in He. eapply host_bound_ends; [|exact He].
    right. cbn [state_override url scheme _state before_host _pointer].
    repeat split; [exact (in_special_file _ Hsp)|].
    rewrite length_app. cbn [length]. lia.
  - cbn. lia.
  - cbn [move set_pointer _pointer].
    replace (Z.to_nat (Z.of_nat (length pre) + 1 + 1))
      with (length pre + length [58; 47])%nat by (cbn; lia).
    apply (skipn_app_plus pre [58; 47] (47 :: rest)).
Qed.

Lemma colon_special L enc ve pre rest q :
  in_special (Some (map ascii_lower pre)) = true ->
  ends L (pre ++ 58 :: rest) InnerTest (scheme_at enc ve pre) (Returned q) ->
  in_special (scheme (url q)) = true.
Proof.
  intros Hsp He.
  apply (ends_char L _ _ 58 rest) in He;
    [|cbn; lia | apply scheme_at_skipn].
  destruct (on_scheme_colon_special L rest enc ve pre Hsp) as [q0 [E Hq0]].
  match type of He with ends_after _ _ ?h _ =>
    replace h with (Normal q0) in He by (symmetry; exact E)
  end.
  cbn [ends_after] in He.
  apply (ends_invariant L _ special_inv) in He.
  - apply He.
  - intros p Hp. destruct p. exact Hp.
  - intros c r p p'. apply special_kept.
  - destruct q0. exact Hq0.
Qed.

Lemma startswith_slash (s : str) :
  startswith s (lit "/") = true -> exists s', s = 47 :: s'.
Proof.
  destruct s as [|x s']; [discriminate|]. cbn.
  destruct (x =? 47) eqn:E; [|discriminate].
  apply Z.eqb_eq in E. subst x. now exists s'.
Qed.

Lemma hostless_routes L s enc q :
  parse_url L s None enc = Some (Returned q) ->
  in_special (scheme (url q)) = false ->
  hostname (url q) = None ->
  exists pre rest enc' ve,
    fst (preprocess s) = pre ++ 58 :: rest
    /\ scheme_text pre
    /\ in_special (Some (map ascii_lower pre)) = false
    /\ ((exists rest', rest = 47 :: rest'
           /\ startswith rest' (lit "/") = false
           /\ Returned q
              = feed L rest' (path_start_at enc' ve (map ascii_lower pre)
                                (Z.of_nat (length pre) + 2)))
        \/ (startswith rest (lit "/") = false
            /\ Returned q
               = feed L rest (cbb_start_at enc' ve (map ascii_lower pre)
                                (Z.of_nat (length pre) + 1)))).
Proof.
  intros H Hsp Hh. unfold parse_url in H.
  apply parse_ends in H. rewrite parse_url_start in H. cbn [fst snd] in H.
  set (d := fst (preprocess s)) in *.
  set (enc' := match enc with Some e => e | None => lit "utf-8" end) in *.
  set (ve := snd (preprocess s)) in *.
  clearbody d enc' ve.
  apply ends_start in H; [|reflexivity].
  destruct d as [|a d'].
  { apply scheme_start_other in H; [discriminate | exact I]. }
  destruct (mem a ASCII_ALPHA) eqn:Ha.
  2: { apply scheme_start_other in H; [discriminate | exact Ha]. }
  apply (scheme_start_alpha L enc' ve a d' _ Ha) in H.
  destruct (span_scheme_chars d') as [mid [rest [E [Hm Hr]]]]. subst d'.
  change (a :: mid ++ rest) with ([a] ++ mid ++ rest) in H.
  apply (scheme_scan L enc' ve _ mid [a] rest Hm) in H.
  rewrite app_assoc in H.
  assert (Hrest : exists rest', rest = 58 :: rest').
  { destruct rest as [|y rest'].
    - apply scheme_stop in H; [discriminate | exact I].
    - destruct (Z.eq_dec y 58) as [->|Hy]; [now exists rest'|].
      apply scheme_stop in H; [discriminate | now split]. }
  destruct Hrest as [rest' ->].
  exists ([a] ++ mid), rest', enc', ve.
  assert (Hns : in_special (Some (map ascii_lower ([a] ++ mid))) = false).
  { destruct (in_special (Some (map ascii_lower ([a] ++ mid)))) eqn:E;
      [|reflexivity].
    apply (colon_special L enc' ve _ rest' q E) in H. congruence. }
  split; [now rewrite <- app_assoc|].
  split; [now exists a, mid|].
  split; [exact Hns|].
  destruct (startswith rest' (lit "/")) eqn:S1.
  - left. destruct (startswith_slash _ S1) as [r1 ->].
    exists r1. split; [reflexivity|].
    destruct (startswith r1 (lit "/")) eqn:S2.
    + destruct (startswith_slash _ S2) as [r2 ->].
      apply (colon_host L enc' ve _ r2 q Hns) in H. contradiction.
    + split; [reflexivity|].
      eapply ends_unique; [exact H|].
      now apply colon_path.
  - right. split; [reflexivity|].
    eapply ends_unique; [exact H|].
    now apply colon_cbb.
Qed.

(** ** The code points of a URL without a host *)

(** ** Percent-encoding *)

Lemma utf8_encode_bytes x bs :
  utf8_encode x = Some bs -> Forall (fun b => 0 <= b < 256) bs.
Proof.
  unfold utf8_encode. intros H.
  repeat match type of H with
  | context [if ?b then _ else _] => destruct b eqn:?
  end; try discriminate;
    match type of H with Some ?l = Some _ =>
      assert (E : bs = l) by congruence; clear H; subst bs
    end.
  all: repeat match goal with
    | H : (_ <? _) = true |- _ => apply Z.ltb_lt in H
    | H : (_ <? _) = false |- _ => apply Z.ltb_ge in H
    end.
  all: repeat (apply Forall_cons; [Z.div_mod_to_equations; lia|]).
  all: apply Forall_nil.
Qed.

Lemma utf8_encode_ascii x :
  0 <= x < 128 -> utf8_encode x = Some [x].
Proof.
  intros H. unfold utf8_encode.
  replace (x <? 0) with false by (symmetry; apply Z.ltb_ge; lia).
  replace (x <? 128) with true by (symmetry; apply Z.ltb_lt; lia).
  reflexivity.
Qed.

Lemma utf8_encode_head x b bs :
  utf8_encode x = Some (b :: bs) -> bs = [] \/ 0xC0 <= b.
Proof.
  unfold utf8_encode. intros H.
  repeat match type of H with
  | context [if ?b then _ else _] => destruct b eqn:?
  end; try discriminate;
    match type of H with Some (?h :: ?l) = Some _ =>
      assert (E : b = h /\ bs = l) by (split; congruence);
      clear H; destruct E; subst b bs
    end; auto.
  all: repeat match goal with
    | H : (_ <? _) = true |- _ => apply Z.ltb_lt in H
    | H : (_ <? _) = false |- _ => apply Z.ltb_ge in H
    end.
  all: right; Z.div_mod_to_equations; lia.
Qed.

Lemma hex_digit_escape n : 0 <= n < 16 -> escape_char (hex_digit n) = true.
Proof.
  intros H. unfold hex_digit, escape_char.
  destruct (n <? 10) eqn:E;
    [apply Z.ltb_lt in E | apply Z.ltb_ge in E].
  - replace (48 <=? 48 + n) with true by (symmetry; apply Z.leb_le; lia).
    replace (48 + n <=? 57) with true by (symmetry; apply Z.leb_le; lia).
    cbn. now rewrite orb_true_r.
  - replace (65 <=? 55 + n) with true by (symmetry; apply Z.leb_le; lia).
    replace (55 + n <=? 70) with true by (symmetry; apply Z.leb_le; lia).
    cbn. now rewrite !orb_true_r.
Qed.

Lemma percent_byte_escape b :
  0 <= b < 256 -> forallb escape_char (percent_byte b) = true.
Proof.
  intros H. unfold percent_byte. cbn [forallb].
  rewrite !hex_digit_escape by (Z.div_mod_to_equations; lia).
  reflexivity.
Qed.

Lemma forallb_concat {A} (f : A -> bool) (ls : list (list A)) :
  forallb (forallb f) ls = true -> forallb f (concat ls) = true.
Proof.
  induction ls as [|l ls IH]; cbn; [reflexivity|].
  intros H. apply andb_true_iff in H. destruct H as [H1 H2].
  rewrite forallb_app, H1. now apply IH.
Qed.

(** [percent_encode] either leaves a code point that is neither in the set
    nor above [~], or writes escapes. *)
Lemma percent_encode_cases x S e :
  percent_encode x S = Some e ->
  (e = [x] /\ mem x S = false /\ x <= 0x7e)
  \/ (forallb escape_char e = true /\ e <> []).
Proof.
  unfold percent_encode. intros H.
  destruct (mem x S || (0x7e <? x)) eqn:E.
  - right. destruct (utf8_encode x) as [bs|] eqn:Eu; [|discriminate].
    injection H as <-. pose proof (utf8_encode_bytes _ _ Eu) as Hb.
    split.
    + apply forallb_concat. rewrite forallb_forall. intros l Hl.
      apply in_map_iff in Hl. destruct Hl as [b [<- Hin]].
      apply percent_byte_escape. rewrite Forall_forall in Hb. now apply Hb.
    + destruct bs as [|b bs]; [|discriminate].
      unfold utf8_encode in Eu.
      repeat match type of Eu with
      | context [if ?b then _ else _] => destruct b
      end; discriminate.
  - left. injection H as <-. apply orb_false_iff in E. destruct E as [E1 E2].
    apply Z.ltb_ge in E2. auto.
Qed.

Lemma percent_encode_plain x S :
  mem x S = false -> x <= 0x7e -> percent_encode x S = Some [x].
Proof.
  intros H1 H2. unfold percent_encode. rewrite H1.
  replace (0x7e <? x) with false by (symmetry; apply Z.ltb_ge; lia).
  reflexivity.
Qed.

Ltac char_bounds :=
  repeat match goal with
  | H : _ && _ = true |- _ => apply andb_true_iff in H; destruct H
  | H : _ || _ = true |- _ => apply orb_true_iff in H; destruct H
  | H : (_ =? _) = true |- _ => apply Z.eqb_eq in H
  | H : (_ <=? _) = true |- _ => apply Z.leb_le in H
  end.

Lemma escape_char_range x :
  escape_char x = true -> x = 37 \/ 48 <= x <= 57 \/ 65 <= x <= 70.
Proof. unfold escape_char. intros H. char_bounds; lia. Qed.

Lemma mem_false_range x S lo hi :
  (forall y, In y S -> y < lo \/ hi < y) -> lo <= x <= hi -> mem x S = false.
Proof.
  intros HS Hx. destruct (mem x S) eqn:E; [|reflexivity].
  apply mem_In in E. apply HS in E. lia.
Qed.

Lemma escape_path_char x : escape_char x = true -> path_char x = true.
Proof.
  intros H. apply escape_char_range in H. unfold path_char.
  assert (Hm : mem x PATH_PERCENT_ENCODE = false).
  { destruct (mem x PATH_PERCENT_ENCODE) eqn:E; [|reflexivity].
    apply mem_In in E. cbn in E.
    repeat (destruct E as [E|E]; [lia|]). contradiction. }
  rewrite Hm. cbn [negb].
  replace (x <=? 126) with true by (symmetry; apply Z.leb_le; lia).
  replace (x =? 47) with false by (symmetry; apply Z.eqb_neq; lia).
  reflexivity.
Qed.

Lemma escape_fragment_char x : escape_char x = true -> fragment_char x = true.
Proof.
  intros H. apply escape_char_range in H. unfold fragment_char.
  assert (Hm : mem x FRAGMENT_PERCENT_ENCODE = false).
  { destruct (mem x FRAGMENT_PERCENT_ENCODE) eqn:E; [|reflexivity].
    apply mem_In in E. cbn in E.
    repeat (destruct E as [E|E]; [lia|]). contradiction. }
  rewrite Hm. cbn [negb].
  replace (x <=? 126) with true by (symmetry; apply Z.leb_le; lia).
  reflexivity.
Qed.

Lemma escape_opaque_char x : escape_char x = true -> opaque_char x = true.
Proof.
  intros H. apply escape_char_range in H. unfold opaque_char.
  assert (Hm : mem x C0_PERCENT_ENCODE = false).
  { destruct (mem x C0_PERCENT_ENCODE) eqn:E; [|reflexivity].
    apply mem_In in E. cbn in E.
    repeat (destruct E as [E|E]; [lia|]). contradiction. }
  rewrite Hm. cbn [negb].
  replace (x <=? 126) with true by (symmetry; apply Z.leb_le; lia).
  replace (x =? 63) with false by (symmetry; apply Z.eqb_neq; lia).
  replace (x =? 35) with false by (symmetry; apply Z.eqb_neq; lia).
  reflexivity.
Qed.

Lemma escape_query_char x : escape_char x = true -> query_char x = true.
Proof.
  intros H. apply escape_char_range in H. unfold query_char.
  replace (33 <=? x) with true by (symmetry; apply Z.leb_le; lia).
  replace (x <=? 126) with true by (symmetry; apply Z.leb_le; lia).
  replace (x =? 34) with false by (symmetry; apply Z.eqb_neq; lia).
  replace (x =? 35) with false by (symmetry; apply Z.eqb_neq; lia).
  replace (x =? 60) with false by (symmetry; apply Z.eqb_neq; lia).
  replace (x =? 62) with false by (symmetry; apply Z.eqb_neq; lia).
  reflexivity.
Qed.

Lemma forallb_impl {A} (f g : A -> bool) l :
  (forall x, f x = true -> g x = true) ->
  forallb f l = true -> forallb g l = true.
Proof.
  intros Hfg. rewrite !forallb_forall. auto.
Qed.

(** ** The shape of the record while the rest of the input is read *)

Lemma forallb_removelast {A} (f : A -> bool) l :
  forallb f l = true -> forallb f (removelast l) = true.
Proof.
  induction l as [|x [|y l] IH]; cbn [removelast forallb]; auto.
  intros H. apply andb_true_iff in H. destruct H as [H1 H2].
  rewrite H1. now apply IH.
Qed.

Lemma forallb_snoc {A} (f : A -> bool) l x :
  forallb f l = true -> f x = true -> forallb f (l ++ [x]) = true.
Proof. intros H1 H2. rewrite forallb_app, H1. cbn. now rewrite H2. Qed.

Lemma app_snoc_nonempty {A} (l : list A) x : l ++ [x] <> [].
Proof. destruct l; discriminate. Qed.

Lemma path_flush_plain_shape slash p :
  forallb segment_ok (_path (url p)) = true ->
  forallb path_char (_buffer p) = true ->
  forallb segment_ok (_path (url (path_flush_plain slash p))) = true
  /\ (slash = false -> _path (url (path_flush_plain slash p)) <> []).
Proof.
  intros Hp Hb.
  destruct p as [u b enc so ve st ptr buf af sq pw]; destruct u.
  unfold path_flush_plain; unfold_updates; proj. cbn in Hp, Hb.
  assert (He : segment_ok [] = true) by reflexivity.
  destruct (str_in buf DOUBLE_DOT_PATH_SEGMENTS) eqn:Hd.
  - destruct slash; cbn [negb]; proj; split.
    + now apply forallb_removelast.
    + discriminate.
    + apply forallb_snoc; [now apply forallb_removelast | exact He].
    + intros _. apply app_snoc_nonempty.
  - destruct (str_in buf SINGLE_DOT_PATH_SEGMENTS) eqn:Hs.
    + destruct slash; cbn [negb andb]; proj; split; auto.
      * discriminate.
      * now apply forallb_snoc.
      * intros _. apply app_snoc_nonempty.
    + cbn [negb andb]; proj. split.
      * apply forallb_snoc; [assumption|].
        unfold segment_ok. now rewrite Hb, Hd, Hs.
      * intros _. apply app_snoc_nonempty.
Qed.

Lemma scheme_ok_not_file u : scheme_ok u -> opt_is (scheme u) "file" = false.
Proof.
  intros [sch [E [_ [_ H]]]]. rewrite E. now apply in_special_file.
Qed.

Lemma scheme_ok_not_special u : scheme_ok u -> in_special (scheme u) = false.
Proof. intros [sch [E [_ [_ H]]]]. now rewrite E. Qed.

Lemma is_c_char x (s : string) y :
  lit s = [y] -> is_c (Some x) s = (x =? y).
Proof. intros H. unfold is_c. rewrite H. cbn. apply andb_true_r. Qed.

Lemma scheme_ok_same u v : scheme v = scheme u -> scheme_ok u -> scheme_ok v.
Proof. intros E [sch H]. exists sch. now rewrite E. Qed.

Lemma no_authority_same u v :
  hostname v = hostname u -> port v = port u ->
  username v = username u -> password v = password u ->
  no_authority u -> no_authority v.
Proof. unfold no_authority. intros -> -> -> ->. auto. Qed.

Ltac shape_goal :=
  unfold tail_shape, path_done; proj; cbn [opt_forall forallb];
  repeat match goal with
  | |- _ /\ _ => split
  | |- scheme_ok _ => eapply scheme_ok_same; [|eassumption]; reflexivity
  | |- no_authority _ =>
      eapply no_authority_same; [| | | |eassumption]; reflexivity
  | |- exists q, Some ?a = Some q /\ _ => exists a
  | |- _ => reflexivity
  | |- _ => assumption
  end.

Lemma path_shape_char L x r rest p :
  _state p = PATH ->
  tail_shape (x :: rest) p ->
  match handler L PATH (Some x) r p with
  | Normal p' => tail_shape rest p'
  | _UrlParserReturn _ => False
  | _ => True
  end.
Proof.
  intros Hst [Ho [Hsc [Hna Hs]]]. rewrite Hst in Hs.
  destruct Hs as [Hcb [Hq [Hf [Hp Hb]]]].
  cbn [handler]. rewrite (on_path_other _ _ _ (scheme_ok_not_file _ Hsc)).
  cbv zeta. rewrite (scheme_ok_not_special _ Hsc), andb_false_r.
  unfold flag_error_if at 1 2 3. unfold overridden. rewrite Ho.
  cbn [negb andb orb].
  change (is_c (Some x) "") with false. cbn [orb].
  rewrite (is_c_char x "/" 47 eq_refl), (is_c_char x "?" 63 eq_refl),
    (is_c_char x "#" 35 eq_refl), !orb_false_r.
  pose proof (path_flush_plain_frame (x =? 47) p) as Hfr. cbv zeta in Hfr.
  pose proof (path_flush_plain_shape (x =? 47) p Hp Hb) as [Hsh Hne].
  destruct (path_flush_plain (x =? 47) p)
    as [u' b' enc' so' ve' st' ptr' buf' af' sq' pw'].
  destruct u' as [sc' ho' po' us' pa' qu' fr' pt' cb'].
  destruct p as [u b enc so ve st ptr buf af sq pw];
    destruct u as [sc ho po us pa qu fr pt cb].
  proj. split_ands. subst.
  destruct (x =? 47) eqn:E47.
  - cbn [orb]. apply Z.eqb_eq in E47. subst x.
    change (47 =? 63) with false. change (47 =? 35) with false. cbv iota.
    unfold_updates; proj. shape_goal.
  - specialize (Hne eq_refl). cbn [orb].
    destruct (x =? 63) eqn:E63; [|destruct (x =? 35) eqn:E35].
    + cbn [orb]. unfold_updates; proj. shape_goal.
    + cbn [orb]. unfold_updates; proj. shape_goal.
    + cbn [orb]. unfold or_raise.
      destruct (percent_encode x PATH_PERCENT_ENCODE) as [e|] eqn:Ee;
        [|exact I].
      assert (He : forallb path_char e = true).
      { apply percent_encode_cases in Ee.
        destruct Ee as [[-> [Hm Hx]] | [He _]].
        - cbn. unfold path_char. rewrite Hm, E47.
          replace (x <=? 126) with true by (symmetry; apply Z.leb_le; lia).
          reflexivity.
        - eapply forallb_impl; [apply escape_path_char | exact He]. }
      destruct (negb _ && negb _), (_ && negb (TWO_ASCII_HEX r));
        unfold_updates; proj; shape_goal;
        rewrite forallb_app, Hb, He; reflexivity.
Qed.

Lemma path_shape_eof L p :
  _state p = PATH ->
  tail_shape [] p ->
  match handler L PATH None [] p with
  | Normal p' => hostless_shape (url p')
  | _UrlParserReturn _ => False
  | _ => True
  end.
Proof.
  intros Hst [Ho [Hsc [Hna Hs]]]. rewrite Hst in Hs.
  destruct Hs as [Hcb [Hq [Hf [Hp Hb]]]].
  cbn [handler]. rewrite (on_path_other _ _ _ (scheme_ok_not_file _ Hsc)).
  cbv zeta. rewrite (scheme_ok_not_special _ Hsc), andb_false_r.
  unfold flag_error_if at 1 2 3.
  change (is_c None "") with true. change (is_c None "/") with false.
  change (is_c None "?") with false. change (is_c None "#") with false.
  cbn [orb]. cbv iota.
  pose proof (path_flush_plain_frame false p) as Hfr. cbv zeta in Hfr.
  pose proof (path_flush_plain_shape false p Hp Hb) as [Hsh Hne].
  specialize (Hne eq_refl).
  destruct (path_flush_plain false p)
    as [u' b' enc' so' ve' st' ptr' buf' af' sq' pw'].
  destruct u' as [sc' ho' po' us' pa' qu' fr' pt' cb'].
  destruct p as [u b enc so ve st ptr buf af sq pw];
    destruct u as [sc ho po us pa qu fr pt cb].
  proj. split_ands. subst.
  unfold_updates; proj. unfold hostless_shape; proj.
  destruct Hna as [N1 [N2 [N3 N4]]]. cbn in N1, N2, N3, N4.
  repeat split; auto.
Qed.

Lemma starts_slash (s : str) :
  startswith s (lit "/") = match s with a :: _ => a =? 47 | [] => false end.
Proof.
  destruct s as [|a s]; [reflexivity|]. cbn.
  destruct s; apply andb_true_r.
Qed.

Lemma last_app_nonempty {A} (s e : list A) d :
  e <> [] -> last (s ++ e) d = last e d.
Proof.
  intros He. induction s as [|a s IH]; [reflexivity|].
  cbn [app]. change (last (a :: s ++ e) d)
    with (match s ++ e with [] => a | _ => last (s ++ e) d end).
  destruct (s ++ e) eqn:E; [|exact IH].
  apply app_eq_nil in E. destruct E. contradiction.
Qed.

Lemma forallb_last {A} (f : A -> bool) e d :
  forallb f e = true -> e <> [] -> f (last e d) = true.
Proof.
  intros H He. rewrite forallb_forall in H. apply H.
  destruct (exists_last He) as [l [a ->]].
  rewrite last_last. apply in_or_app. right. now left.
Qed.

Lemma forallb_hd {A} (f : A -> bool) e d :
  forallb f e = true -> e <> [] -> f (hd d e) = true.
Proof.
  destruct e as [|a e]; [contradiction|]. cbn.
  intros H _. now apply andb_true_iff in H.
Qed.

Lemma opaque_shape_char L x r rest p :
  _state p = CANNOT_BE_BASE_URL ->
  tail_shape (x :: rest) p ->
  (rest = [] -> x <> 32) ->
  match handler L CANNOT_BE_BASE_URL (Some x) r p with
  | Normal p' => tail_shape rest p'
  | _UrlParserReturn _ => False
  | _ => True
  end.
Proof.
  intros Hst [Ho [Hsc [Hna Hs]]] Hend. rewrite Hst in Hs.
  destruct Hs as [Hcb [Hq [Hf [s [Hp [Hs [Hsl [Hfirst _]]]]]]]].
  cbn [handler]. unfold _on_cannot_be_base_url.
  rewrite (is_c_char x "?" 63 eq_refl), (is_c_char x "#" 35 eq_refl).
  destruct p as [u b enc so ve st ptr buf af sq pw];
    destruct u as [sc ho po us pa qu fr pt cb].
  proj. subst.
  destruct (x =? 63) eqn:E63; [|destruct (x =? 35) eqn:E35].
  - unfold_updates; proj. shape_goal. exists s. auto.
  - unfold_updates; proj. shape_goal. exists s. auto.
  - unfold flag_error_if.
    destruct (negb _ && negb _), (_ && negb (TWO_ASCII_HEX r));
      unfold_updates; proj; unfold or_raise;
      (destruct (percent_encode x C0_PERCENT_ENCODE) as [e|] eqn:Ee;
       [|exact I]).
    all: apply percent_encode_cases in Ee.
    all: assert (He : forallb opaque_char e = true /\ e <> []
                      /\ (s = [] -> hd 0 e <> 47)
                      /\ (rest = [] -> last e 0 <> 32)).
    1,3,5,7: destruct Ee as [[-> [Hm Hx]] | [He Hn]];
      [ repeat split;
        [ cbn; unfold opaque_char; rewrite Hm, E63, E35;
          replace (x <=? 126) with true by (symmetry; apply Z.leb_le; lia);
          reflexivity
        | discriminate
        | intros Hs0; specialize (Hfirst Hs0); rewrite starts_slash in Hfirst;
          cbn; now apply Z.eqb_neq
        | exact Hend ]
      | repeat split;
        [ eapply forallb_impl; [apply escape_opaque_char | exact He]
        | exact Hn
        | intros _; pose proof (forallb_hd _ e 0 He Hn) as Hh;
          apply escape_char_range in Hh; unfold codepoint in *; lia
        | intros _; pose proof (forallb_last _ e 0 He Hn) as Hl;
          apply escape_char_range in Hl; unfold codepoint in *; lia ] ].
    all: destruct He as [He1 [He2 [He3 He4]]].
    all: shape_goal; exists (s ++ e); repeat split;
      [ now rewrite forallb_app, Hs, He1
      | rewrite starts_slash; destruct s as [|a s'];
        [ cbn [app]; destruct e as [|a e']; [reflexivity|];
          apply Z.eqb_neq; now apply He3
        | rewrite starts_slash in Hsl; exact Hsl ]
      | intros Hnil; apply app_eq_nil in Hnil; destruct Hnil; contradiction
      | intros Hr; rewrite last_app_nonempty by exact He2; now apply He4 ].
Qed.

Lemma opaque_shape_eof L p :
  _state p = CANNOT_BE_BASE_URL ->
  tail_shape [] p ->
  match handler L CANNOT_BE_BASE_URL None [] p with
  | Normal p' => hostless_shape (url p')
  | _UrlParserReturn _ => False
  | _ => True
  end.
Proof.
  intros Hst [Ho [Hsc [Hna Hs]]]. rewrite Hst in Hs.
  destruct Hs as [Hcb [Hq [Hf [s [Hp [Hs [Hsl [_ Hlast]]]]]]]].
  cbn [handler]. unfold _on_cannot_be_base_url.
  change (is_c None "?") with false. change (is_c None "#") with false.
  cbv iota. unfold hostless_shape.
  destruct Hna as [N1 [N2 [N3 N4]]].
  rewrite Hcb, Hq, Hf. repeat split; auto.
  exists s. repeat split; auto.
Qed.

(** *** The query state *)

Lemma query_loop_some sp : forall bs q,
  query_loop sp bs (Some q)
  = Some (Some (q ++ concat (map (query_encode_byte sp) bs))).
Proof.
  induction bs as [|b bs IH]; intros q; cbn [query_loop map concat].
  - now rewrite app_nil_r.
  - rewrite IH. now rewrite <- app_assoc.
Qed.

Lemma query_encode_byte_chars b :
  0 <= b < 256 -> forallb query_char (query_encode_byte false b) = true.
Proof.
  intros Hb. unfold query_encode_byte. cbn [andb]. rewrite orb_false_r.
  destruct (_ || _) eqn:E.
  - eapply forallb_impl; [apply escape_query_char|].
    now apply percent_byte_escape.
  - repeat (apply orb_false_iff in E; destruct E as [E ?]).
    cbn. unfold query_char.
    apply Z.ltb_ge in E.
    match goal with H : (126 <? b) = false |- _ => apply Z.ltb_ge in H end.
    replace (33 <=? b) with true by (symmetry; apply Z.leb_le; lia).
    replace (b <=? 126) with true by (symmetry; apply Z.leb_le; lia).
    repeat match goal with H : (b =? _) = false |- _ => rewrite H; clear H end.
    reflexivity.
Qed.

Lemma utf8_encode_not_reference x bs :
  utf8_encode x = Some bs ->
  startswith bs (lit "&#") && endswith bs (lit ";") = false.
Proof.
  intros H. destruct bs as [|b bs]; [reflexivity|].
  destruct (utf8_encode_head _ _ _ H) as [->|Hb].
  - cbn. now rewrite andb_false_r.
  - cbn. replace (b =? 38) with false by (symmetry; apply Z.eqb_neq; lia).
    reflexivity.
Qed.

(** The query state of a scheme that is not special encodes in UTF-8,
    whatever encoding the caller named. *)
Lemma on_query_other L c r p :
  in_special (scheme (url p)) = false ->
  state_override p = None ->
  exists p0,
    url p0 = url p /\ state_override p0 = None /\ _state p0 = _state p
    /\ _pointer p0 = _pointer p /\ _buffer p0 = _buffer p
    /\ _on_query L c r p =
       if is_c c "#" then
         Normal (set_state FRAGMENT (on_url (with_fragment (Some [])) p0))
       else
         match c with
         | None => Normal p0
         | Some x =>
             let p1 :=
               flag_error_if (is_c c "%" && negb (TWO_ASCII_HEX r))
                 (flag_error_if
                    (negb (is_c c "%") && negb (_is_url_codepoint x)) p0) in
             match utf8_encode x, query (url p) with
             | Some bs, Some q =>
                 Normal (on_url (with_query
                           (Some (q ++ concat (map (query_encode_byte false) bs))))
                           p1)
             | _, _ => PyError
             end
         end.
Proof.
  intros Hsp Ho. unfold _on_query.
  rewrite Hsp. cbn [negb]. rewrite orb_true_r, andb_true_r.
  set (p0 := if negb (str_eqb (encoding p) (lit "utf-8"))
             then set_encoding (lit "utf-8") p else p).
  assert (H0 : url p0 = url p /\ state_override p0 = None
               /\ _state p0 = _state p /\ _pointer p0 = _pointer p
               /\ _buffer p0 = _buffer p
               /\ str_eqb (encoding p0) (lit "utf-8") = true).
  { subst p0. destruct (str_eqb (encoding p) (lit "utf-8")) eqn:E;
      cbn [negb]; destruct p; cbn in *; repeat split; auto. }
  destruct H0 as [E1 [E2 [E3 [E4 [E5 E6]]]]].
  exists p0. repeat split; auto.
  cbv zeta. fold p0. unfold overridden. rewrite E2. cbn [negb andb].
  destruct (is_c c "#"); [reflexivity|].
  destruct c as [x|]; [|reflexivity].
  assert (Hflag : forall e1 e2,
            encoding (flag_error_if e1 (flag_error_if e2 p0)) = encoding p0
            /\ url (flag_error_if e1 (flag_error_if e2 p0)) = url p0).
  { intros [] []; destruct p0; split; reflexivity. }
  destruct (Hflag (is_c (Some x) "%" && negb (TWO_ASCII_HEX r))
                  (negb (is_c (Some x) "%") && negb (_is_url_codepoint x)))
    as [F1 F2].
  unfold encode_with. rewrite F1, E6, F2, E1, Hsp.
  unfold or_raise.
  destruct (utf8_encode x) as [bs|] eqn:Eu; [|reflexivity].
  rewrite (utf8_encode_not_reference _ _ Eu).
  destruct (query (url p)) as [q|].
  - now rewrite query_loop_some.
  - destruct bs as [|b bs]; [|reflexivity].
    unfold utf8_encode in Eu.
    repeat match type of Eu with
    | context [if ?b then _ else _] => destruct b
    end; discriminate.
Qed.

Lemma query_shape_call L c r rest p :
  _state p = QUERY ->
  tail_shape (cstr c ++ rest) p ->
  match handler L QUERY c r p with
  | Normal p' =>
      match c with
      | Some _ => tail_shape rest p'
      | None => hostless_shape (url p')
      end
  | _UrlParserReturn _ => False
  | _ => True
  end.
Proof.
  intros Hst [Ho [Hsc [Hna Hs]]]. rewrite Hst in Hs.
  destruct Hs as [[q [Hq Hqc]] [Hf Hp]].
  cbn [handler].
  destruct (on_query_other L c r p (scheme_ok_not_special _ Hsc) Ho)
    as [p0 [E1 [E2 [E3 [E4 [E5 ->]]]]]].
  destruct p0 as [u0 b0 enc0 so0 ve0 st0 ptr0 buf0 af0 sq0 pw0].
  destruct p as [u b enc so ve st ptr buf af sq pw];
    destruct u as [sc ho po us pa qu fr pt cb].
  proj. subst.
  destruct c as [x|].
  - rewrite (is_c_char x "#" 35 eq_refl).
    destruct (x =? 35).
    + unfold_updates; proj. shape_goal.
    + cbv zeta. destruct (utf8_encode x) as [bs|] eqn:Eu; [|exact I].
      unfold flag_error_if.
      destruct (_ && negb (TWO_ASCII_HEX r)), (negb _ && negb _);
        unfold_updates; proj; shape_goal.
      all: rewrite forallb_app, Hqc; apply forallb_concat;
        rewrite forallb_forall; intros l Hl; apply in_map_iff in Hl;
        destruct Hl as [b' [<- Hin]]; apply query_encode_byte_chars;
        pose proof (utf8_encode_bytes _ _ Eu) as Hb;
        rewrite Forall_forall in Hb; now apply Hb.
  - change (is_c None "#") with false. cbv iota.
    unfold hostless_shape; proj. cbn [opt_forall].
    destruct Hna as [N1 [N2 [N3 N4]]]. cbn in N1, N2, N3, N4.
    unfold path_done in Hp; proj.
    repeat split; auto.
    destruct cb; [|exact Hp].
    destruct Hp as [s [P1 [P2 P3]]]. exists s. repeat split; auto.
    discriminate.
Qed.

(** *** The fragment state *)

Lemma fragment_shape_call L c r rest p :
  _state p = FRAGMENT ->
  tail_shape (cstr c ++ rest) p ->
  match handler L FRAGMENT c r p with
  | Normal p' =>
      match c with
      | Some _ => tail_shape rest p'
      | None => hostless_shape (url p')
      end
  | _UrlParserReturn _ => False
  | _ => True
  end.
Proof.
  intros Hst [Ho [Hsc [Hna Hs]]]. rewrite Hst in Hs.
  destruct Hs as [Hq [[f [Hf Hfc]] Hp]].
  cbn [handler]. unfold _on_fragment.
  destruct p as [u b enc so ve st ptr buf af sq pw];
    destruct u as [sc ho po us pa qu fr pt cb].
  proj. subst.
  destruct c as [x|].
  - destruct (x =? 0).
    + unfold_updates; proj. shape_goal.
    + unfold flag_error_if.
      destruct (_ && negb (TWO_ASCII_HEX r)), (negb _ && _);
        unfold_updates; proj; unfold or_raise;
        (destruct (percent_encode x FRAGMENT_PERCENT_ENCODE) as [e|] eqn:Ee;
         [|exact I]).
      all: assert (He : forallb fragment_char e = true)
        by (apply percent_encode_cases in Ee;
            destruct Ee as [[-> [Hm Hx]] | [He _]];
            [ cbn; unfold fragment_char; rewrite Hm;
              replace (x <=? 126) with true
                by (symmetry; apply Z.leb_le; lia);
              reflexivity
            | eapply forallb_impl; [apply escape_fragment_char | exact He] ]).
      all: shape_goal; now rewrite forallb_app, Hfc, He.
  - unfold hostless_shape; proj. cbn [opt_forall].
    destruct Hna as [N1 [N2 [N3 N4]]]. cbn in N1, N2, N3, N4.
    unfold path_done in Hp; proj.
    repeat split; auto.
    destruct cb; [|exact Hp].
    destruct Hp as [s [P1 [P2 P3]]]. exists s. repeat split; auto.
    discriminate.
Qed.

(** *** The whole rest of the input *)

Lemma tail_shape_move k rest p : tail_shape rest p -> tail_shape rest (move k p).
Proof. destruct p. exact (fun H => H). Qed.

Lemma last_cons_cons {A} (x y : A) l d : last (x :: y :: l) d = last (y :: l) d.
Proof. reflexivity. Qed.

Lemma feed_shape L : forall rest p q,
  tail_shape rest p ->
  (rest <> [] -> last rest 0 <> 32) ->
  feed L rest p = Returned q ->
  hostless_shape (url q).
Proof.
  induction rest as [|x rest IH]; intros p q Hsh Hlast H; cbn [feed] in H.
  - assert (Hcall : match handler L (_state p) None [] p with
                    | Normal p' => hostless_shape (url p')
                    | _UrlParserReturn _ => False
                    | _ => True
                    end).
    { pose proof Hsh as [_ [_ [_ Hst]]].
      destruct (_state p) eqn:E; try contradiction.
      - now apply path_shape_eof.
      - now apply opaque_shape_eof.
      - now apply (query_shape_call L None [] [] p).
      - now apply (fragment_shape_call L None [] [] p). }
    destruct (handler L (_state p) None [] p) as [p'|p'| |];
      try discriminate; try contradiction.
    injection H as <-. destruct p'. exact Hcall.
  - assert (Hcall : match handler L (_state p) (Some x) rest p with
                    | Normal p' => tail_shape rest p'
                    | _UrlParserReturn _ => False
                    | _ => True
                    end).
    { pose proof Hsh as [_ [_ [_ Hst]]].
      destruct (_state p) eqn:E; try contradiction.
      - now apply path_shape_char.
      - apply opaque_shape_char; try assumption.
        intros ->. apply Hlast. discriminate.
      - now apply (query_shape_call L (Some x) rest rest p).
      - now apply (fragment_shape_call L (Some x) rest rest p). }
    destruct (handler L (_state p) (Some x) rest p) as [p'|p'| |];
      try discriminate; try contradiction.
    apply (IH (move 1 p') q); [now apply tail_shape_move| |exact H].
    intros Hr. destruct rest as [|y rest]; [contradiction|].
    rewrite <- (last_cons_cons x y rest 0). apply Hlast. discriminate.
Qed.

(** ** The input after preparation *)

Lemma lstrip_c0_head (s : str) :
  match lstrip_c0 s with
  | x :: _ => _is_c0_control_or_space x = false
  | [] => True
  end.
Proof.
  induction s as [|x s IH]; cbn [lstrip_c0]; [exact I|].
  destruct (_is_c0_control_or_space x) eqn:E; [exact IH | exact E].
Qed.

Lemma last_rev_hd {A} (l : list A) d : last (rev l) d = hd d l.
Proof.
  destruct l as [|x l]; [reflexivity|]. cbn [rev hd]. apply last_last.
Qed.

Lemma rstrip_c0_last (s : str) :
  rstrip_c0 s <> [] -> _is_c0_control_or_space (last (rstrip_c0 s) 0) = false.
Proof.
  unfold rstrip_c0. intros H. rewrite last_rev_hd.
  pose proof (lstrip_c0_head (rev s)) as Hh.
  destruct (lstrip_c0 (rev s)) as [|x l]; [contradiction H; reflexivity|].
  exact Hh.
Qed.

Lemma preprocess_last (s : str) :
  fst (preprocess s) <> [] ->
  _is_c0_control_or_space (last (fst (preprocess s)) 0) = false.
Proof.
  unfold preprocess. cbn [fst]. rewrite remove_rstrip. apply rstrip_c0_last.
Qed.

Lemma lstrip_c0_id (s : str) :
  match s with
  | x :: _ => _is_c0_control_or_space x = false
  | [] => True
  end ->
  lstrip_c0 s = s.
Proof. destruct s as [|x s]; [reflexivity|]. cbn. now intros ->. Qed.

Lemma rstrip_c0_id (s : str) :
  (s <> [] -> _is_c0_control_or_space (last s 0) = false) ->
  rstrip_c0 s = s.
Proof.
  intros H. unfold rstrip_c0. rewrite lstrip_c0_id; [apply rev_involutive|].
  destruct (rev s) as [|x l] eqn:E; [exact I|].
  assert (Hs : s = rev (x :: l)) by (rewrite <- E; symmetry; apply rev_involutive).
  assert (Hne : s <> []).
  { intros ->. cbn in E. discriminate. }
  specialize (H Hne). rewrite Hs, last_rev_hd in H. exact H.
Qed.

Lemma remove_tab_newline_id (s : str) :
  forallb (fun x => negb (is_tab_or_newline x)) s = true ->
  remove_tab_newline s = s.
Proof.
  induction s as [|x s IH]; [reflexivity|]. cbn [forallb]. intros H.
  apply andb_true_iff in H. destruct H as [H1 H2].
  rewrite remove_tab_newline_cons.
  destruct (is_tab_or_newline x); [discriminate|]. now rewrite IH.
Qed.

Lemma preprocess_id (s : str) :
  match s with
  | x :: _ => _is_c0_control_or_space x = false
  | [] => True
  end ->
  (s <> [] -> _is_c0_control_or_space (last s 0) = false) ->
  forallb (fun x => negb (is_tab_or_newline x)) s = true ->
  preprocess s = (s, false).
Proof.
  intros H1 H2 H3. unfold preprocess.
  rewrite (lstrip_c0_id s H1), (rstrip_c0_id s H2), (remove_tab_newline_id s H3).
  now rewrite Nat.ltb_irrefl.
Qed.

(** ** The scheme is stored in lower case *)

Lemma ascii_lower_idem x : ascii_lower (ascii_lower x) = ascii_lower x.
Proof.
  unfold ascii_lower.
  destruct ((65 <=? x) && (x <=? 90)) eqn:E; [|now rewrite E].
  apply andb_true_iff in E. destruct E as [E1 E2].
  apply Z.leb_le in E1, E2.
  replace (x + 32 <=? 90) with false by (symmetry; apply Z.leb_gt; lia).
  now rewrite andb_false_r.
Qed.

Lemma ascii_lower_alpha a :
  mem a ASCII_ALPHA = true -> mem (ascii_lower a) ASCII_ALPHA = true.
Proof.
  intros H. apply mem_In in H. cbn in H.
  repeat (destruct H as [<-|H]; [reflexivity|]). contradiction.
Qed.

Lemma ascii_lower_scheme_char a :
  mem a SCHEME_CHARS = true -> mem (ascii_lower a) SCHEME_CHARS = true.
Proof.
  intros H. apply mem_In in H. cbn in H.
  repeat (destruct H as [<-|H]; [reflexivity|]). contradiction.
Qed.

Lemma scheme_text_lower pre :
  scheme_text pre ->
  scheme_text (map ascii_lower pre)
  /\ map ascii_lower (map ascii_lower pre) = map ascii_lower pre.
Proof.
  intros [a [mid [-> [Ha Hm]]]]. split.
  - exists (ascii_lower a), (map ascii_lower mid). repeat split.
    + now apply ascii_lower_alpha.
    + rewrite Forall_forall in *. intros y Hy. apply in_map_iff in Hy.
      destruct Hy as [x [<- Hx]]. apply ascii_lower_scheme_char. now apply Hm.
  - rewrite map_map. apply map_ext. intros x. apply ascii_lower_idem.
Qed.

Lemma scheme_ok_start pre hn po us pw qu fr pa cb :
  scheme_text pre ->
  in_special (Some (map ascii_lower pre)) = false ->
  scheme_ok (mkUrl (Some (map ascii_lower pre)) hn po us pw qu fr pa cb).
Proof.
  intros Ht Hs. destruct (scheme_text_lower pre Ht) as [H1 H2].
  exists (map ascii_lower pre). repeat split; assumption.
Qed.

Lemma tail_shape_path_start enc ve pre ptr rest :
  scheme_text pre ->
  in_special (Some (map ascii_lower pre)) = false ->
  tail_shape rest (path_start_at enc ve (map ascii_lower pre) ptr).
Proof.
  intros Ht Hs. unfold tail_shape, path_start_at; proj.
  repeat split. now apply scheme_ok_start.
Qed.

Lemma tail_shape_cbb_start enc ve pre ptr rest :
  scheme_text pre ->
  in_special (Some (map ascii_lower pre)) = false ->
  startswith rest (lit "/") = false ->
  tail_shape rest (cbb_start_at enc ve (map ascii_lower pre) ptr).
Proof.
  intros Ht Hs Hr. unfold tail_shape, cbb_start_at; proj.
  repeat split; [now apply scheme_ok_start|].
  exists []. repeat split; auto. cbn. discriminate.
Qed.

(** What [parse] returns without a base when the scheme is not special and
    there is no host. *)
Lemma hostless_result_shape L s enc q :
  parse_url L s None enc = Some (Returned q) ->
  in_special (scheme (url q)) = false ->
  hostname (url q) = None ->
  hostless_shape (url q).
Proof.
  intros H Hsp Hh.
  pose proof (preprocess_last s) as Hlast.
  destruct (hostless_routes L s enc q H Hsp Hh)
    as [pre [rest [enc' [ve [Ed [Ht [Hns Hr]]]]]]].
  rewrite Ed in Hlast.
  assert (Hend : forall tl, tl <> [] ->
            last (pre ++ 58 :: rest) 0 = last tl 0 -> last tl 0 <> 32).
  { intros tl Hne E E32.
    specialize (Hlast (ltac:(now destruct pre))).
    pose proof (f_equal _is_c0_control_or_space (eq_trans E E32)) as C.
    pose proof (eq_trans (eq_sym C) Hlast) as C'. discriminate C'. }
  destruct Hr as [[rest' [-> [Hr Hf]]] | [Hr Hf]].
  - symmetry in Hf. apply feed_shape in Hf; [exact Hf| |].
    + now apply tail_shape_path_start.
    + intros Hne. apply Hend; [exact Hne|].
      change (pre ++ 58 :: 47 :: rest') with (pre ++ [58; 47] ++ rest').
      now rewrite app_assoc, last_app_nonempty.
  - symmetry in Hf. apply feed_shape in Hf; [exact Hf| |].
    + now apply tail_shape_cbb_start.
    + intros Hne. apply Hend; [exact Hne|].
      change (pre ++ 58 :: rest) with (pre ++ [58] ++ rest).
      now rewrite app_assoc, last_app_nonempty.
Qed.

(** ** Parsing the serialization again *)

Lemma mem_not (x y : codepoint) (S : list codepoint) :
  mem x S = false -> In y S -> (x =? y) = false.
Proof.
  intros Hm Hy. destruct (x =? y) eqn:E; [|reflexivity].
  apply Z.eqb_eq in E. subst y. apply mem_In in Hy. congruence.
Qed.



Lemma fragment_char_facts x :
  fragment_char x = true ->
  (x =? 0) = false /\ percent_encode x FRAGMENT_PERCENT_ENCODE = Some [x].
Proof.
  unfold fragment_char. intros H.
  apply andb_true_iff in H. destruct H as [Hle Hm].
  apply negb_true_iff in Hm. apply Z.leb_le in Hle.
  split.
  - apply (mem_not _ _ _ Hm). apply mem_In. reflexivity.
  - now apply percent_encode_plain.
Qed.


(** *** The fragment *)

Lemma feed_fragment_chars L : forall fs acc p sc ho po us pw qu pt cb,
  _state p = FRAGMENT ->
  url p = mkUrl sc ho po us pw qu (Some acc) pt cb ->
  forallb fragment_char fs = true ->
  returns (feed L fs p) (mkUrl sc ho po us pw qu (Some (acc ++ fs)) pt cb).
Proof.
  induction fs as [|x fs IH]; intros acc p sc ho po us pw qu pt cb Hst Hu Hf.
  - cbn [feed]. rewrite Hst. cbn [handler _on_fragment returns].
    rewrite app_nil_r. destruct p; exact Hu.
  - cbn [forallb] in Hf. apply andb_true_iff in Hf. destruct Hf as [Hx Hf].
    destruct (fragment_char_facts x Hx) as [H0 He].
    cbn [feed]. rewrite Hst. cbn [handler]. unfold _on_fragment.
    rewrite H0.
    destruct p as [u b enc so ve st ptr buf af sq pt']. cbn in Hu, Hst. subst.
    unfold flag_error_if.
    destruct (_ && negb (TWO_ASCII_HEX fs)), (negb _ && _);
      unfold_updates; proj; rewrite He; cbn [or_raise];
      unfold_updates; proj.
    all: replace (acc ++ x :: fs) with ((acc ++ [x]) ++ fs)
      by (rewrite <- app_assoc; reflexivity).
    all: apply IH; [reflexivity | reflexivity | exact Hf].
Qed.

(** *** The query *)




(** *** The path *)





(** ** The serialization of a URL without a host *)


(** *** Its code points survive the preparation of the input *)




Lemma not_space_not_tab x :
  _is_c0_control_or_space x = false -> is_tab_or_newline x = false.
Proof.
  intros H. destruct (is_tab_or_newline x) eqn:E; [|reflexivity].
  apply tab_is_c0 in E. congruence.
Qed.









Lemma visible_end_all (f : codepoint -> bool) (l : str) :
  (forall x, f x = true -> _is_c0_control_or_space x = false) ->
  forallb f l = true -> visible_end l.
Proof.
  intros Hf Hl Hne. apply Hf. now apply forallb_last.
Qed.






(** *** The two forms of the serialization, parsed *)


Lemma returns_result r u :
  returns r u -> exists q, r = Returned q /\ url q = u.
Proof. destruct r as [q| |]; try contradiction. intros H. now exists q. Qed.







(** ** Parsing a serialization again *)




(** ** Percent-encoding and percent-decoding *)

Lemma hex_digit_is_hex n : 0 <= n < 16 -> is_hex (hex_digit n) = true.
Proof.
  intros H. unfold hex_digit, is_hex.
  destruct (n <? 10) eqn:E; [apply Z.ltb_lt in E | apply Z.ltb_ge in E].
  - replace (48 <=? 48 + n) with true by (symmetry; apply Z.leb_le; lia).
    replace (48 + n <=? 57) with true by (symmetry; apply Z.leb_le; lia).
    reflexivity.
  - replace (65 <=? 55 + n) with true by (symmetry; apply Z.leb_le; lia).
    replace (55 + n <=? 70) with true by (symmetry; apply Z.leb_le; lia).
    cbn. now rewrite orb_true_r.
Qed.

Lemma hex_value_digit n : 0 <= n < 16 -> hex_value (hex_digit n) = n.
Proof.
  intros H. unfold hex_digit, hex_value.
  destruct (n <? 10) eqn:E; [apply Z.ltb_lt in E | apply Z.ltb_ge in E].
  - replace (48 + n <=? 57) with true by (symmetry; apply Z.leb_le; lia). lia.
  - replace (55 + n <=? 57) with false by (symmetry; apply Z.leb_gt; lia).
    replace (55 + n <=? 70) with true by (symmetry; apply Z.leb_le; lia). lia.
Qed.

Lemma percent_decode_escapes : forall bs,
  Forall (fun b => 0 <= b < 256) bs ->
  percent_decode (concat (map percent_byte bs)) = bs.
Proof.
  unfold percent_decode.
  induction bs as [|b bs IH]; intros H; [reflexivity|].
  inversion H as [|? ? Hb Hbs]; subst.
  cbn [map concat]. unfold percent_byte at 1. cbn [app percent_decode_from].
  change (37 =? 37) with true. cbn [negb].
  rewrite !hex_digit_is_hex by (Z.div_mod_to_equations; lia).
  cbn [negb orb]. rewrite !hex_value_digit by (Z.div_mod_to_equations; lia).
  rewrite (IH Hbs). f_equal. Z.div_mod_to_equations; lia.
Qed.

Lemma str_encode_utf8_ascii : forall s : str,
  Forall (fun x => 0 <= x < 128) s -> str_encode_utf8 s = Some s.
Proof.
  induction s as [|x s IH]; intros H; [reflexivity|].
  inversion H as [|? ? Hx Hs]; subst. cbn [str_encode_utf8].
  now rewrite (utf8_encode_ascii x Hx), (IH Hs).
Qed.

Lemma escape_chars_ascii (e : str) :
  forallb escape_char e = true -> Forall (fun x => 0 <= x < 128) e.
Proof.
  rewrite forallb_forall, Forall_forall. intros H x Hx.
  specialize (H x Hx). apply escape_char_range in H. lia.
Qed.

(** X1: decoding what [percent_encode] writes for a code point gives the
    UTF-8 bytes of the code point, whatever the encode set: the escapes are
    decoded, and a code point left as it is (even a lone [%]) is kept. *)
Theorem percent_encode_decodes :
  forall (c : codepoint) (S : list codepoint) (bs : bytes),
    utf8_encode c = Some bs ->
    exists e, percent_encode c S = Some e
              /\ string_percent_decode e = Some bs.
Proof.
  intros c S bs Hu. unfold percent_encode, string_percent_decode.
  destruct (mem c S || (126 <? c)) eqn:E.
  - rewrite Hu. eexists. split; [reflexivity|].
    pose proof (utf8_encode_bytes _ _ Hu) as Hb.
    rewrite str_encode_utf8_ascii.
    + cbn [option_map]. now rewrite percent_decode_escapes.
    + apply escape_chars_ascii. apply forallb_concat.
      rewrite forallb_forall. intros l Hl. apply in_map_iff in Hl.
      destruct Hl as [b [<- Hin]]. apply percent_byte_escape.
      rewrite Forall_forall in Hb. now apply Hb.
  - apply orb_false_iff in E. destruct E as [_ E]. apply Z.ltb_ge in E.
    exists [c]. split; [reflexivity|].
    cbn [str_encode_utf8]. rewrite Hu. cbn [option_map]. f_equal.
    assert (Hc : 0 <= c < 128).
    { unfold utf8_encode in Hu. destruct (c <? 0) eqn:E0; [discriminate|].
      apply Z.ltb_ge in E0. lia. }
    rewrite (utf8_encode_ascii c Hc) in Hu. injection Hu as <-.
    cbn [app]. unfold percent_decode. cbn [percent_decode_from].
    destruct (c =? 37); reflexivity.
Qed.

Lemma percent_encode_decodes_witness :
  percent_encode 233 PATH_PERCENT_ENCODE = Some (lit "%C3%A9")
  /\ string_percent_decode (lit "%C3%A9") = Some [195; 169].
Proof.
  destruct (percent_encode_decodes 233 PATH_PERCENT_ENCODE [195; 169])
    as [e [H1 H2]]; [reflexivity|].
  split; [vm_compute; reflexivity|].
  vm_compute in H1. injection H1 as <-. exact H2.
Defined.

Lemma percent_decode_from_length : forall (l : bytes) k,
  (length (percent_decode_from k l) <= length l)%nat.
Proof.
  induction l as [|b l IH]; intros k; cbn [percent_decode_from length]; [lia|].
  destruct k as [|k].
  - destruct (negb (b =? 37)).
    + cbn [length]. specialize (IH 0%nat). lia.
    + destruct l as [|h1 [|h2 l']].
      * cbn. lia.
      * cbn [length]. specialize (IH 0%nat). cbn [length] in IH. lia.
      * destruct (negb (is_hex h1) || negb (is_hex h2)).
        -- cbn [length]. specialize (IH 0%nat). cbn [length] in IH |- *. lia.
        -- cbn [length]. specialize (IH 2%nat). cbn [length] in IH |- *. lia.
  - specialize (IH k). lia.
Qed.

Lemma percent_decode_plain : forall bs : bytes,
  forallb (fun b => negb (b =? 37)) bs = true -> percent_decode bs = bs.
Proof.
  unfold percent_decode. induction bs as [|b bs IH]; intros H; [reflexivity|].
  cbn [forallb] in H. apply andb_true_iff in H. destruct H as [Hb H].
  cbn [percent_decode_from]. rewrite Hb. now rewrite IH.
Qed.

Lemma percent_decode_from_snoc : forall (l : bytes) k,
  percent_decode_from k (l ++ [37])
  = percent_decode_from k l ++ (if (k <=? length l)%nat then [37] else []).
Proof.
  induction l as [|b l IH]; intros k.
  - destruct k; reflexivity.
  - destruct k as [|k].
    + cbn [app percent_decode_from length Nat.leb].
      destruct (negb (b =? 37)).
      * rewrite (IH 0%nat). reflexivity.
      * destruct l as [|h1 [|h2 r]].
        -- reflexivity.
        -- cbn [app]. change (is_hex 37) with false. rewrite orb_true_r.
           change [h1; 37] with ([h1] ++ [37]).
           rewrite (IH 0%nat). reflexivity.
        -- cbn [app]. change (h1 :: h2 :: r ++ [37])
             with ((h1 :: h2 :: r) ++ [37]).
           destruct (negb (is_hex h1) || negb (is_hex h2)).
           ++ rewrite (IH 0%nat). reflexivity.
           ++ rewrite (IH 2%nat). reflexivity.
    + cbn [app percent_decode_from length]. rewrite (IH k). reflexivity.
Qed.

(** X2: [percent_decode] never makes its input longer, leaves bytes without
    [%] as they are, and keeps a [%] at the end of the input: nothing that
    follows can complete it. *)
Theorem percent_decode_shrinks :
  forall bs : bytes,
    (length (percent_decode bs) <= length bs)%nat
    /\ (forallb (fun b => negb (b =? 37)) bs = true -> percent_decode bs = bs)
    /\ percent_decode (bs ++ [37]) = percent_decode bs ++ [37].
Proof.
  intros bs. split; [apply percent_decode_from_length|].
  split; [apply percent_decode_plain|].
  unfold percent_decode. now rewrite percent_decode_from_snoc.
Qed.

Lemma percent_decode_shrinks_witness :
  (length (percent_decode (lit "a%4")) <= length (lit "a%4"))%nat
  /\ percent_decode (lit "abc") = lit "abc"
  /\ percent_decode (lit "a%4" ++ [37]) = percent_decode (lit "a%4") ++ [37].
Proof.
  split; [exact (proj1 (percent_decode_shrinks (lit "a%4")))|].
  split; [|exact (proj2 (proj2 (percent_decode_shrinks (lit "a%4"))))].
  apply (proj1 (proj2 (percent_decode_shrinks (lit "abc")))). reflexivity.
Defined.

Lemma is_hex_digit_is_hex x : is_hex_digit x = is_hex x.
Proof.
  destruct (is_hex_digit x) eqn:E.
  - unfold is_hex_digit in E. apply mem_In in E. cbn in E.
    repeat (destruct E as [<-|E]; [reflexivity|]). contradiction.
  - destruct (is_hex x) eqn:H; [|reflexivity].
    unfold is_hex in H.
    assert (Hx : 48 <= x <= 57 \/ 65 <= x <= 70 \/ 97 <= x <= 102).
    { repeat match goal with
      | H : _ || _ = true |- _ => apply orb_true_iff in H; destruct H as [H|H]
      | H : _ && _ = true |- _ => apply andb_true_iff in H; destruct H
      | H : (_ <=? _) = true |- _ => apply Z.leb_le in H
      end; lia. }
    assert (Hin : mem x (lit "abcdefABCDEF0123456789") = true).
    { assert (Hc : x = 48 \/ x = 49 \/ x = 50 \/ x = 51 \/ x = 52 \/ x = 53
                   \/ x = 54 \/ x = 55 \/ x = 56 \/ x = 57 \/ x = 65 \/ x = 66
                   \/ x = 67 \/ x = 68 \/ x = 69 \/ x = 70 \/ x = 97 \/ x = 98
                   \/ x = 99 \/ x = 100 \/ x = 101 \/ x = 102) by lia.
      repeat (destruct Hc as [->|Hc]; [reflexivity|]). now subst x. }
    unfold is_hex_digit in E. congruence.
Qed.

(** X3: the test that the path, query and fragment states use to flag a
    [%] that starts no escape ([TWO_ASCII_HEX]) accepts exactly the escapes
    that [percent_decode] decodes. *)
Theorem escape_test_agrees_with_decoder :
  forall (a b : Z) (rest : bytes),
    percent_decode (37 :: a :: b :: rest)
    = if TWO_ASCII_HEX (a :: b :: rest)
      then (16 * hex_value a + hex_value b) :: percent_decode rest
      else 37 :: percent_decode (a :: b :: rest).
Proof.
  intros a b rest. unfold percent_decode, TWO_ASCII_HEX.
  cbn [percent_decode_from]. change (37 =? 37) with true. cbn [negb].
  rewrite !is_hex_digit_is_hex.
  destruct (is_hex a), (is_hex b); reflexivity.
Qed.

(** ** What the loops never do *)

(** X4: no handler reads or clears [validation_error]: a run that starts
    with the flag set does what the run without it does and ends with the
    flag set, and a flag that is set stays set. *)
Theorem validation_flag_is_write_only :
  forall L fuel data lp p,
    run L fuel data lp (flag_error p)
    = option_map (map_result flag_error) (run L fuel data lp p)
    /\ forall q, validation_error p = true ->
                 run L fuel data lp p = Some (Returned q) ->
                 validation_error q = true.
Proof.
  intros L fuel data lp p. split; [apply run_flag|].
  intros q Hp Hr.
  assert (Hsame : flag_error p = p) by (destruct p; cbn in Hp; now subst).
  pose proof (run_flag L data fuel lp p) as H.
  rewrite Hsame, Hr in H. cbn in H. injection H as H.
  rewrite H. destruct q; reflexivity.
Qed.

Lemma validation_flag_is_write_only_witness :
  match run ascii_libs 40 (lit "a:b") OuterTest
          (flag_error (UrlParser_init Url_default None (lit "utf-8"))) with
  | Some (Returned q) => validation_error q = true
  | _ => False
  end.
Proof.
  pose (p := flag_error (UrlParser_init Url_default None (lit "utf-8"))).
  pose (r := run ascii_libs 40 (lit "a:b") OuterTest p).
  pose (q := match r with Some (Returned q) => q | _ => p end).
  assert (E : r = Some (Returned q)) by (vm_compute; reflexivity).
  change (match r with
          | Some (Returned q) => validation_error q = true
          | _ => False
          end).
  rewrite E.
  apply (proj2 (validation_flag_is_write_only ascii_libs 40 (lit "a:b")
                  OuterTest p) q); [reflexivity | exact E].
Defined.

Lemma tick_forward L data lp p lp' p' :
  run_inv (Z.of_nat (length data)) p ->
  tick L data lp p = Running lp' p' ->
  state_value (_state p) <= state_value (_state p').
Proof.
  intros [Hok _] H. unfold tick in H.
  assert (Hcall : forall c r,
            after_call (handler L (_state p) c r p) = Running lp' p' ->
            state_value (_state p) <= state_value (_state p')).
  { intros c r Hc.
    destruct (handler L (_state p) c r p) as [q|q| |] eqn:Hh;
      try discriminate.
    cbn [after_call] in Hc. injection Hc as _ <-.
    destruct (handler_progress _ _ _ _ _ Hok Hh) as [_ [_ Hprog]].
    replace (_state (move 1 q)) with (_state q) by (destruct q; reflexivity).
    destruct Hprog as [[E _]|E]; [rewrite E|]; lia. }
  destruct lp.
  - destruct (_ || _); [|discriminate].
    destruct (0 <? _).
    + destruct (py_index data (_pointer p)); [|discriminate].
      eapply Hcall; exact H.
    + injection H as _ <-. lia.
  - destruct (_ =? _).
    + eapply Hcall; exact H.
    + injection H as _ <-. lia.
Qed.

Lemma reaches_forward L data lp p lp' p' :
  run_inv (Z.of_nat (length data)) p ->
  reaches L data lp p lp' p' ->
  state_value (_state p) <= state_value (_state p')
  /\ run_inv (Z.of_nat (length data)) p'.
Proof.
  intros Hinv Hr.
  induction Hr as [lp p|lp p lp1 p1 lp2 p2 Ht Hr IH].
  - split; [lia | assumption].
  - pose proof (tick_forward L data lp p lp1 p1 Hinv Ht) as Hf.
    destruct (tick_decreases L data lp p lp1 p1 Hinv Ht) as [Hinv1 _].
    destruct (IH Hinv1) as [H1 H2]. split; [lia | assumption].
Qed.

(** X5: in a run of [parse], whatever the parser object, the input, the
    encoding and the state override, the loops only move forward through
    the states, in the order of the enum values, and keep the pointer
    between the start of the prepared input and one past its end, so that
    [data[self._pointer]] is never out of range. *)
Theorem states_only_move_forward :
  forall L p0 data enc override lp p lp' p',
    reaches L (fst (parse_start p0 data enc override)) OuterTest
      (snd (parse_start p0 data enc override)) lp p ->
    reaches L (fst (parse_start p0 data enc override)) lp p lp' p' ->
    state_value (_state p) <= state_value (_state p')
    /\ 0 <= _pointer p'
         <= Z.of_nat (length (fst (parse_start p0 data enc override))) + 1
    /\ (_pointer p'
          < Z.of_nat (length (fst (parse_start p0 data enc override))) ->
        exists x,
          py_index (fst (parse_start p0 data enc override)) (_pointer p')
          = Some x).
Proof.
  intros L p0 data enc override lp p lp' p' Hr0 Hr.
  pose proof (parse_start_inv p0 data enc override) as Hs.
  destruct (parse_start p0 data enc override) as [d q0]. cbn [fst snd] in *.
  destruct Hs as [Hinv0 _].
  destruct (reaches_forward L d OuterTest q0 lp p Hinv0 Hr0) as [_ Hinv].
  destruct (reaches_forward L d lp p lp' p' Hinv Hr) as [G1 [[G2 _] G3]].
  split; [exact G1|]. split; [lia|].
  intros Hlt. unfold py_index.
  replace ((0 <=? _pointer p') && (_pointer p' <? Z.of_nat (length d)))
    with true
    by (symmetry; apply andb_true_iff; split;
        [apply Z.leb_le | apply Z.ltb_lt]; lia).
  destruct (nth_error d (Z.to_nat (_pointer p'))) as [x|] eqn:E;
    [now exists x|].
  apply nth_error_None in E. lia.
Qed.

Lemma states_only_move_forward_witness :
  match advance ascii_libs 8 (lit "http://a/b") OuterTest
          (snd (parse_start (UrlParser_init Url_default None (lit "utf-8"))
                  (lit "http://a/b") None None)) with
  | Some (lp, p) =>
      match advance ascii_libs 9 (lit "http://a/b") lp p with
      | Some (lp', p') =>
          _state p = SCHEME /\ _state p' = HOST /\ _pointer p' = 7
          /\ state_value (_state p) <= state_value (_state p')
          /\ 0 <= _pointer p' <= 11
      | None => False
      end
  | None => False
  end.
Proof.
  pose (q0 := UrlParser_init Url_default None (lit "utf-8")).
  pose (p0 := snd (parse_start q0 (lit "http://a/b") None None)).
  pose (m1 := match advance ascii_libs 8 (lit "http://a/b") OuterTest p0 with
              | Some m => m
              | None => (OuterTest, p0)
              end).
  pose (m2 := match advance ascii_libs 9 (lit "http://a/b") (fst m1) (snd m1)
              with
              | Some m => m
              | None => (OuterTest, p0)
              end).
  destruct (states_only_move_forward ascii_libs q0 (lit "http://a/b") None None
              (fst m1) (snd m1) (fst m2) (snd m2)) as [H1 [H2 _]].
  - apply (advance_reaches ascii_libs (lit "http://a/b") 8).
    vm_compute. reflexivity.
  - apply (advance_reaches ascii_libs (lit "http://a/b") 9).
    vm_compute. reflexivity.
  - change (advance ascii_libs 8 (lit "http://a/b") OuterTest p0)
      with (Some m1).
    cbv iota.
    change (let (lp, p) := m1 in
            match advance ascii_libs 9 (lit "http://a/b") lp p with
            | Some (lp', p') =>
                _state p = SCHEME /\ _state p' = HOST /\ _pointer p' = 7
                /\ state_value (_state p) <= state_value (_state p')
                /\ 0 <= _pointer p' <= 11
            | None => False
            end)
      with (_state (snd m1) = SCHEME /\ _state (snd m2) = HOST
            /\ _pointer (snd m2) = 7
            /\ state_value (_state (snd m1)) <= state_value (_state (snd m2))
            /\ 0 <= _pointer (snd m2) <= 11).
    split; [vm_compute; reflexivity|]. split; [vm_compute; reflexivity|].
    split; [vm_compute; reflexivity|].
    split; [exact H1 | exact H2].
Defined.

(** ** Records that can be serialized *)

Lemma py_int_nonneg s n : py_int s = Some n -> 0 <= n.
Proof.
  unfold py_int. destruct s as [|x s]; [discriminate|].
  destruct (forallb _ (x :: s)) eqn:E; [|discriminate].
  cbn [andb]. destruct (_ <=? 4300); [|discriminate].
  intros H. injection H as <-.
  assert (G : forall (l : str) acc,
            forallb (fun x => mem x ASCII_DIGITS) l = true -> 0 <= acc ->
            0 <= fold_left (fun acc x => 10 * acc + (x - 48)) l acc).
  { induction l as [|y l IH]; intros acc Hl Ha; [exact Ha|].
    cbn [forallb] in Hl. apply andb_true_iff in Hl. destruct Hl as [Hy Hl].
    cbn [fold_left]. apply IH; [exact Hl|].
    apply mem_In in Hy. cbn in Hy.
    repeat (destruct Hy as [<-|Hy]; [lia|]). contradiction. }
  apply (G (x :: s) 0); [exact E | lia].
Qed.

Lemma query_loop_keeps sp bs q o :
  query_loop sp bs q = Some o -> q <> None -> o <> None.
Proof.
  destruct q as [v|]; [|contradiction]. rewrite query_loop_some.
  intros H _. injection H as <-. discriminate.
Qed.

Ltac ready_goal :=
  unfold ready_inv, attributes_ready, base_ok in *; unfold url_ok in *; proj;
  split_ands; subst;
  repeat match goal with
  | |- _ /\ _ => split
  end; intros; proj;
  try discriminate; try congruence; try tauto; try (eauto; fail).

Lemma handler_ready L c r p q :
  ready_inv p ->
  result_of (handler L (_state p) c r p) = Some q ->
  ready_inv q.
Proof.
  intros Hinv H.
  destruct (_state p) eqn:Hst; cbn [handler] in H.
  18: {
    assert (Hcb : cannot_be_base_url (url p) = false).
    { destruct Hinv as [_ [_ [_ [_ [_ [_ Hc]]]]]].
      destruct (cannot_be_base_url (url p)); [|reflexivity].
      destruct (Hc eq_refl) as [E|[E|E]]; rewrite Hst in E; discriminate. }
    assert (Hq : (port (url q) = port (url p)
                  /\ cannot_be_base_url (url q) = false
                  /\ (_state q = QUERY -> query (url q) <> None)
                  /\ (_state q = FRAGMENT -> fragment (url q) <> None)
                  /\ _state q <> CANNOT_BE_BASE_URL)
                 /\ base q = base p
                 /\ state_override q = state_override p).
    { unfold _on_path in H.
      repeat match type of H with
      | context [if ?b then _ else _] => destruct b eqn:?
      end.
      all: try (destruct c; [|discriminate H]; unfold or_raise in H;
                destruct (percent_encode _ _); [|discriminate H]).
      all: cbn [result_of] in H; inv_signal.
      all: try match goal with
        |- context [path_trim_file ?c ?x] =>
          pose proof (path_trim_file_control c x);
          pose proof (path_trim_file_url c x) as [? _];
          destruct (path_trim_file c x);
          match goal with
          | H : context [path_flush ?s ?y] |- _ =>
              pose proof (path_flush_control s y);
              pose proof (path_flush_url s y);
              destruct (path_flush s y)
          end
        end.
      all: destruct p as [u b enc so ve st ptr buf af sq pw];
        unfold same_control, same_scheme_port in *; unfold_updates; proj; subst.
      all: repeat (brk; proj); split_ands; subst; proj;
        repeat match goal with u : Url |- _ => destruct u end; proj;
        subst; repeat split; try congruence; try discriminate. }
    destruct Hq as [[Hp [Hc [Hqq [Hqf Hns]]]] [Hb Ho]].
    destruct Hinv as [I1 [I2 [[_ I3] _]]].
    unfold ready_inv, attributes_ready, url_ok.
    rewrite Ho, Hb, Hp, Hc. repeat split; try assumption; try discriminate.
    all: intros; try contradiction; try discriminate; auto.
    all: match goal with H : port _ = Some _ |- _ => apply I3 in H; lia end.
  }
  all: destruct p as [u b enc so ve st ptr buf af sq pw]; destruct u;
    unfold_handlers; unfold_updates; proj; subst.
  all: repeat (brk_in H; proj); cbn [result_of] in H; try inv_signal; proj.
  all: try match goal with
    | H : authority_loop _ _ = Some ?q |- _ =>
        pose proof (authority_loop_control _ _ _ H) as Hc;
        apply authority_loop_url in H; unfold same_control in Hc;
        unfold same_scheme_port in H; proj; split_ands
    end.
  all: repeat match goal with u : Url |- _ => destruct u end; proj.
  all: try match goal with
    | |- context [shorten_url_path ?u] =>
        destruct (shorten_url_path_scheme_port u) as [[Hs [Hp [Hq [Hf Hcb]]]] _];
        destruct (shorten_url_path u); proj
    end.
  all: ready_goal.
  all: try match goal with
    | H : py_int _ = Some ?n |- 0 <= ?n => exact (py_int_nonneg _ _ H)
    end.
  all: try match goal with
    | H : forall n, ?pt = Some n -> _ |- _ => apply H; congruence
    end.
  all: try match goal with
    | H : (65535 <? ?n) = false, E : Some ?n = Some ?m |- _ =>
        injection E as <-; apply Z.ltb_ge in H
    end.
  all: try match goal with
    | H : py_int _ = Some ?n |- _ => pose proof (py_int_nonneg _ _ H)
    end.
  all: try (change (2 ^ 16 - 1) with 65535 in *).
  all: try lia.
  all: repeat match goal with
    | H : ?a = ?a -> _ |- _ => specialize (H eq_refl)
    | H : ?P -> _, H' : ?P |- _ => specialize (H H')
    | H : _ \/ _ |- _ => destruct H
    end; try discriminate; try congruence; try assumption.
  all: try apply app_snoc_nonempty.
  all: try match goal with
    | H : forall n, ?pt = Some n -> _, E : ?pt = Some ?m |- _ =>
        exact (H m E)
    end.
  all: repeat match goal with
    | H : Some _ = Some _ |- _ => injection H as H; subst
    | H : (_ <? _) = false |- _ => apply Z.ltb_ge in H
    end.
  all: try lia.
  all: match goal with
    | H : query_loop _ _ _ = Some ?o |- ?o <> None =>
        exact (query_loop_keeps _ _ _ _ H ltac:(assumption))
    end.
Qed.

Lemma reaches_invariant L data (I : UrlParser -> Prop) :
  (forall p, I p -> I (move 1 p)) ->
  (forall c r p q, I p ->
     result_of (handler L (_state p) c r p) = Some q -> I q) ->
  forall lp p lp' p', I p -> reaches L data lp p lp' p' -> I p'.
Proof.
  intros Hmove Hstep lp p lp' p' Hp Hr.
  induction Hr as [lp p|lp p lp1 p1 lp2 p2 Ht Hr IH]; [exact Hp|].
  apply IH. unfold tick in Ht.
  assert (Hcall : forall c r,
            after_call (handler L (_state p) c r p) = Running lp1 p1 -> I p1).
  { intros c r Hc. pose proof (Hstep c r p) as Hs.
    destruct (handler L (_state p) c r p) as [q|q| |]; try discriminate.
    cbn [after_call] in Hc. injection Hc as _ <-.
    apply Hmove. now apply Hs. }
  destruct lp.
  - destruct (_ || _); [|discriminate].
    destruct (0 <? _).
    + destruct (py_index data (_pointer p)); [|discriminate].
      eapply Hcall; exact Ht.
    + now injection Ht as _ <-.
  - destruct (_ =? _).
    + eapply Hcall; exact Ht.
    + now injection Ht as _ <-.
Qed.

Lemma ready_inv_move p : ready_inv p -> ready_inv (move 1 p).
Proof. destruct p. exact (fun H => H). Qed.

Lemma ready_inv_start b enc ve :
  base_ok b ->
  ready_inv (mkParser Url_default b enc None ve SCHEME_START 0 [] false false
               false).
Proof.
  intros Hb. unfold ready_inv, attributes_ready, url_ok; proj.
  repeat split; try assumption; try discriminate.
Qed.

Lemma parse_url_start_with b s enc :
  snd (parse_start (UrlParser_init Url_default b (lit "utf-8")) s enc None)
  = mkParser Url_default b
      (match enc with Some e => e | None => lit "utf-8" end) None
      (snd (preprocess s)) SCHEME_START 0 [] false false false.
Proof.
  unfold parse_start. destruct (preprocess s) as [d e]. cbn [fst snd].
  destruct e; reflexivity.
Qed.

(** X6: when [parse] is given no state override, the attribute that a
    state appends to is there in every parser the loops reach: the query in
    the query state, the fragment in the fragment state, and the single path
    segment in the cannot-be-a-base-URL state.  So [+=] on [None] and
    [_path[0]] on an empty list cannot happen there. *)
Theorem attributes_are_initialised :
  forall L data b enc lp p,
    base_ok b ->
    reaches L (fst (preprocess data)) OuterTest
      (snd (parse_start (UrlParser_init Url_default b (lit "utf-8")) data enc
              None))
      lp p ->
    (_state p = QUERY -> query (url p) <> None)
    /\ (_state p = FRAGMENT -> fragment (url p) <> None)
    /\ (_state p = CANNOT_BE_BASE_URL -> _path (url p) <> []).
Proof.
  intros L data b enc lp p Hb Hr. rewrite parse_url_start_with in Hr.
  apply (reaches_invariant L _ ready_inv) in Hr.
  - destruct Hr as [_ [_ [[Hcb _] [Hq [Hf [Hc _]]]]]].
    repeat split; auto.
  - apply ready_inv_move.
  - intros c r p0 q. apply handler_ready.
  - now apply ready_inv_start.
Qed.

Lemma attributes_are_initialised_witness :
  match advance ascii_libs 7 (lit "a:b?c") OuterTest
          (snd (parse_start (UrlParser_init Url_default None (lit "utf-8"))
                  (lit "a:b?c") None None)) with
  | Some (lp, p) => _state p = QUERY /\ query (url p) <> None
  | None => False
  end.
Proof.
  pose (p0 := snd (parse_start (UrlParser_init Url_default None (lit "utf-8"))
                     (lit "a:b?c") None None)).
  pose (mid := match advance ascii_libs 7 (lit "a:b?c") OuterTest p0 with
               | Some m => m
               | None => (OuterTest, p0)
               end).
  destruct (attributes_are_initialised ascii_libs (lit "a:b?c") None None
              (fst mid) (snd mid)) as [H1 _].
  - exact I.
  - apply (advance_reaches ascii_libs _ 7). vm_compute. reflexivity.
  - change (advance ascii_libs 7 (lit "a:b?c") OuterTest p0) with (Some mid).
    assert (Hs : _state (snd mid) = QUERY) by (vm_compute; reflexivity).
    split; [exact Hs | exact (H1 Hs)].
Defined.

Lemma parse_url_ok L data b enc p :
  base_ok b ->
  parse_url L data b enc = Some (Returned p) ->
  url_ok (url p).
Proof.
  intros Hb H. unfold parse_url in H. apply parse_ends in H.
  pose proof (parse_url_start_with b data enc) as Hs.
  rewrite Hs in H.
  apply (ends_invariant L _ ready_inv) in H.
  - now destruct H as [_ [_ [H _]]].
  - apply ready_inv_move.
  - intros c r p0 q. apply handler_ready.
  - now apply ready_inv_start.
Qed.

Lemma producible_url_ok L u : producible L u -> url_ok u.
Proof.
  induction 1 as [data enc p H | data b enc p Hb IH H].
  - now apply (parse_url_ok L data None enc p).
  - now apply (parse_url_ok L data (Some b) enc p).
Qed.

(** X7: every URL that [parse] can return has a serialization: the
    [path] property never reads [_path[0]] of an empty list, because a
    cannot-be-a-base URL always has its one path segment. *)
Theorem producible_url_has_href :
  forall L u, producible L u -> exists h, href u = Some h.
Proof.
  intros L u Hu. destruct (producible_url_ok L u Hu) as [Hcb _].
  unfold href, path.
  destruct (cannot_be_base_url u); [|eexists; reflexivity].
  destruct (_path u) as [|x l]; [now specialize (Hcb eq_refl)|].
  eexists; reflexivity.
Qed.

Lemma producible_url_has_href_witness :
  exists h,
    href (match parse_url ascii_libs (lit "mailto:a@b") None None with
          | Some (Returned p) => url p
          | _ => Url_default
          end) = Some h.
Proof.
  apply (producible_url_has_href ascii_libs).
  apply (producible_alone ascii_libs (lit "mailto:a@b") None
           (match parse_url ascii_libs (lit "mailto:a@b") None None with
            | Some (Returned p) => p
            | _ => UrlParser_init Url_default None []
            end)).
  vm_compute. reflexivity.
Defined.

(** X8: the port of every URL that [parse] can return is a 16-bit
    number. *)
Theorem producible_port_in_range :
  forall L u n, producible L u -> port u = Some n -> 0 <= n <= 65535.
Proof.
  intros L u n Hu Hn. destruct (producible_url_ok L u Hu) as [_ Hp].
  now apply Hp.
Qed.

Lemma producible_port_in_range_witness : 0 <= 8080 <= 65535.
Proof.
  apply (producible_port_in_range ascii_libs
           (match parse_url ascii_libs (lit "http://h:8080/") None None with
            | Some (Returned p) => url p
            | _ => Url_default
            end) 8080).
  - apply (producible_alone ascii_libs (lit "http://h:8080/") None
             (match parse_url ascii_libs (lit "http://h:8080/") None None with
              | Some (Returned p) => p
              | _ => UrlParser_init Url_default None []
              end)).
    vm_compute. reflexivity.
  - vm_compute. reflexivity.
Defined.

(** ** The scheme of a URL parsed without a base *)

Lemma handler_scheme_kept L sch c r p q :
  scheme_kept sch p ->
  result_of (handler L (_state p) c r p) = Some q ->
  scheme_kept sch q.
Proof.
  intros [Hb [Hv [Hs Hfile]]] H. unfold scheme_kept.
  destruct (_state p) eqn:Hst; cbn in Hv; try lia; cbn [handler] in H.
  15: {
    assert (Hq : scheme (url q) = scheme (url p) /\ base q = base p
                 /\ state_value (_state q) >= 18).
    { unfold _on_path in H.
      repeat match type of H with
      | context [if ?b then _ else _] => destruct b eqn:?
      end.
      all: try (destruct c; [|discriminate H]; unfold or_raise in H;
                destruct (percent_encode _ _); [|discriminate H]).
      all: cbn [result_of] in H; inv_signal.
      all: try match goal with
        |- context [path_trim_file ?c ?x] =>
          pose proof (path_trim_file_control c x);
          pose proof (path_trim_file_url c x) as [? _];
          destruct (path_trim_file c x);
          match goal with
          | H : context [path_flush ?s ?y] |- _ =>
              pose proof (path_flush_control s y);
              pose proof (path_flush_url s y);
              destruct (path_flush s y)
          end
        end.
      all: destruct p as [u b enc so ve st ptr buf af sq pw];
        unfold same_control, same_scheme_port in *; unfold_updates; proj; subst.
      all: repeat (brk; proj); split_ands; subst; proj;
        repeat match goal with u : Url |- _ => destruct u end; proj;
        repeat split; try congruence; cbn; lia. }
    destruct Hq as [Hs' [Hb' Hv']]. rewrite Hs', Hb'.
    repeat split; try assumption; try lia.
    intros E. rewrite E in Hv'. cbn in Hv'. lia.
  }
  all: destruct p as [u b enc so ve st ptr buf af sq pw]; destruct u;
    unfold_handlers; unfold_updates; proj; subst.
  all: repeat (brk_in H; proj); cbn [result_of] in H; try inv_signal; proj.
  all: try match goal with
    | H : authority_loop _ _ = Some ?q |- _ =>
        pose proof (authority_loop_control _ _ _ H) as Hc;
        apply authority_loop_url in H; unfold same_control in Hc;
        unfold same_scheme_port in H; proj; split_ands
    end.
  all: repeat match goal with u : Url |- _ => destruct u end; proj.
  all: try match goal with
    | |- context [shorten_url_path ?u] =>
        destruct (shorten_url_path_scheme_port u) as [[Hs' _] _];
        destruct (shorten_url_path u); proj
    end.
  all: proj; subst; repeat split; try (cbn; lia); try assumption;
    try reflexivity; try congruence; try discriminate.
  all: try (rewrite (Hfile eq_refl); reflexivity).
  all: try (intros _; apply Hfile; reflexivity).
Qed.

Lemma scheme_kept_move sch p : scheme_kept sch p -> scheme_kept sch (move 1 p).
Proof. destruct p. exact (fun H => H). Qed.

Lemma on_scheme_colon_kept L r enc ve pre :
  exists q,
    handler L SCHEME (Some 58) r (scheme_at enc ve pre) = Normal q
    /\ scheme_kept (map ascii_lower pre) q.
Proof.
  destruct (in_special (Some (map ascii_lower pre))) eqn:Hsp.
  - cbn [handler]. unfold _on_scheme, scheme_at.
    change (cin (Some 58) SCHEME_CHARS) with false.
    change (is_c (Some 58) ":") with true.
    unfold_updates; proj. cbn [andb orb negb Url_default].
    unfold_updates; proj. unfold scheme_kept.
    repeat match goal with |- context [in_special ?a] =>
      replace (in_special a) with true by (symmetry; exact Hsp)
    end.
    cbn [andb].
    match goal with |- context [opt_is ?a "file"] =>
      destruct (opt_is a "file") eqn:Ef
    end.
    + apply str_eqb_eq in Ef.
      destruct (negb _); eexists; (split; [reflexivity|]);
        cbn [_state url scheme state_value base];
        repeat split; auto; lia.
    + eexists; (split; [reflexivity|]);
        cbn [_state url scheme state_value base];
        repeat split; auto; try lia; discriminate.
  - rewrite (on_scheme_colon_other L r enc ve pre Hsp).
    destruct (startswith r (lit "/")); eexists; (split; [reflexivity|]);
      unfold scheme_kept, cbb_start_at;
      cbn [_state url scheme state_value base];
      repeat split; auto; try lia; discriminate.
Qed.

(** The scheme start state and the scheme state of a parse without a
    base that returns: they read a scheme and stand at its [:]. *)
Lemma scheme_phase L data enc q :
  parse_url L data None enc = Some (Returned q) ->
  exists pre rest enc' ve,
    fst (preprocess data) = pre ++ 58 :: rest
    /\ scheme_text pre
    /\ ends L (pre ++ 58 :: rest) InnerTest (scheme_at enc' ve pre)
         (Returned q).
Proof.
  intros H. unfold parse_url in H.
  apply parse_ends in H. rewrite parse_url_start in H. cbn [fst snd] in H.
  set (d := fst (preprocess data)) in *.
  set (enc' := match enc with Some e => e | None => lit "utf-8" end) in *.
  set (ve := snd (preprocess data)) in *.
  clearbody d enc' ve.
  apply ends_start in H; [|reflexivity].
  destruct d as [|a d'].
  { apply scheme_start_other in H; [discriminate | exact I]. }
  destruct (mem a ASCII_ALPHA) eqn:Ha.
  2: { apply scheme_start_other in H; [discriminate | exact Ha]. }
  apply (scheme_start_alpha L enc' ve a d' _ Ha) in H.
  destruct (span_scheme_chars d') as [mid [rest [E [Hm Hr]]]]. subst d'.
  change (a :: mid ++ rest) with ([a] ++ mid ++ rest) in H.
  apply (scheme_scan L enc' ve _ mid [a] rest Hm) in H.
  rewrite app_assoc in H.
  assert (Hrest : exists rest', rest = 58 :: rest').
  { destruct rest as [|y rest'].
    - apply scheme_stop in H; [discriminate | exact I].
    - destruct (Z.eq_dec y 58) as [->|Hy]; [now exists rest'|].
      apply scheme_stop in H; [discriminate | now split]. }
  destruct Hrest as [rest' ->].
  exists ([a] ++ mid), rest', enc', ve.
  split; [now rewrite <- app_assoc|].
  split; [now exists a, mid|].
  exact H.
Qed.

Lemma scheme_after_colon L enc ve pre rest q :
  ends L (pre ++ 58 :: rest) InnerTest (scheme_at enc ve pre) (Returned q) ->
  scheme (url q) = Some (map ascii_lower pre).
Proof.
  intros H.
  apply (ends_char L _ _ 58 rest) in H;
    [|cbn; lia | apply scheme_at_skipn].
  destruct (on_scheme_colon_kept L rest enc ve pre) as [q0 [E Hq0]].
  match type of H with ends_after _ _ ?h _ =>
    replace h with (Normal q0) in H by (symmetry; exact E)
  end.
  cbn [ends_after] in H.
  apply (ends_invariant L _ (scheme_kept (map ascii_lower pre))) in H.
  - now destruct H as [_ [_ [H _]]].
  - apply scheme_kept_move.
  - intros c r p p'. apply handler_scheme_kept.
  - now apply scheme_kept_move.
Qed.

(** X9: the scheme of a URL parsed without a base is the text before the
    first [:] of the prepared input, in lower case; that text is a letter
    followed by letters, digits, [+], [-] and [.]. *)
Theorem scheme_is_lower_cased_prefix :
  forall L data enc q,
    parse_url L data None enc = Some (Returned q) ->
    exists pre rest,
      fst (preprocess data) = pre ++ 58 :: rest
      /\ scheme_text pre
      /\ scheme (url q) = Some (map ascii_lower pre).
Proof.
  intros L data enc q H.
  destruct (scheme_phase L data enc q H) as [pre [rest [enc' [ve [E [Ht He]]]]]].
  exists pre, rest. split; [exact E|]. split; [exact Ht|].
  now apply (scheme_after_colon L enc' ve pre rest q).
Qed.

Lemma scheme_is_lower_cased_prefix_witness :
  exists pre rest,
    lit "HtTp://a/" = pre ++ 58 :: rest
    /\ scheme_text pre
    /\ Some (lit "http") = Some (map ascii_lower pre).
Proof.
  destruct (scheme_is_lower_cased_prefix ascii_libs (lit " HtTp://a/") None
              (match parse_url ascii_libs (lit " HtTp://a/") None None with
               | Some (Returned p) => p
               | _ => UrlParser_init Url_default None []
               end))
    as [pre [rest [H1 [H2 H3]]]].
  - vm_compute. reflexivity.
  - exists pre, rest. split; [exact H1|]. split; [exact H2|]. exact H3.
Defined.

(** *** A special scheme needs a host *)

Lemma on_scheme_colon_authority L r enc ve pre :
  in_special (Some (map ascii_lower pre)) = true ->
  opt_is (Some (map ascii_lower pre)) "file" = false ->
  handler L SCHEME (Some 58) r (scheme_at enc ve pre)
  = Normal (mkParser
              (mkUrl (Some (map ascii_lower pre)) None None None None None
                     None [] false)
              None enc None ve SPECIAL_AUTHORITY_SLASHES
              (Z.of_nat (length pre)) [] false false false).
Proof.
  intros Hsp Hf. cbn [handler]. unfold _on_scheme, scheme_at.
  change (cin (Some 58) SCHEME_CHARS) with false.
  change (is_c (Some 58) ":") with true.
  unfold_updates; proj. cbn [andb orb negb Url_default].
  unfold_updates; proj.
  repeat match goal with |- context [in_special ?a] =>
    replace (in_special a) with true by (symmetry; exact Hsp)
  end.
  repeat match goal with |- context [opt_is ?a "file"] =>
    replace (opt_is a "file") with false by (symmetry; exact Hf)
  end.
  reflexivity.
Qed.

(** X10: a URL with a special scheme other than [file] that [parse]
    returns without a base has a host: after such a scheme the loops cannot
    end before the host state has parsed one. *)
Theorem special_url_has_host :
  forall L data enc q,
    parse_url L data None enc = Some (Returned q) ->
    in_special (scheme (url q)) = true ->
    opt_is (scheme (url q)) "file" = false ->
    hostname (url q) <> None.
Proof.
  intros L data enc q H Hsp Hf.
  destruct (scheme_phase L data enc q H) as [pre [rest [enc' [ve [E [Ht He]]]]]].
  pose proof (scheme_after_colon L enc' ve pre rest q He) as Hs.
  rewrite Hs in Hsp, Hf.
  apply (ends_char L _ _ 58 rest) in He;
    [|cbn; lia | apply scheme_at_skipn].
  match type of He with ends_after _ _ ?h _ =>
    replace h with
      (Normal (mkParser
                 (mkUrl (Some (map ascii_lower pre)) None None None None None
                        None [] false)
                 None enc' None ve SPECIAL_AUTHORITY_SLASHES
                 (Z.of_nat (length pre)) [] false false false)) in He
      by (symmetry; exact (on_scheme_colon_authority L rest enc' ve pre Hsp Hf))
  end.
  cbn [ends_after] in He.
  eapply host_bound_ends; [|exact He].
  right. cbn [move set_pointer state_override url scheme _state before_host
              _pointer].
  repeat split; [exact Hf|].
  rewrite length_app. cbn [length]. lia.
Qed.

Lemma special_url_has_host_witness :
  hostname (match parse_url ascii_libs (lit "https:example.org") None None with
            | Some (Returned p) => url p
            | _ => Url_default
            end) <> None.
Proof.
  apply (special_url_has_host ascii_libs (lit "https:example.org") None
           (match parse_url ascii_libs (lit "https:example.org") None None with
            | Some (Returned p) => p
            | _ => UrlParser_init Url_default None []
            end)).
  - vm_compute. reflexivity.
  - vm_compute. reflexivity.
  - vm_compute. reflexivity.
Defined.

(** ** The normal form of a URL without a host *)

(** X11: a URL with a scheme that is not special and without a host, that
    [parse] returns when it is given no base, is in normal form: it has no
    credentials and no port; a path that is not opaque is not empty and has
    no dot segment, and its segments, the query and the fragment hold none
    of the code points that their states percent-encode; an opaque path
    does not begin with [/], and ends with no space unless a query or a
    fragment follows. *)
Theorem hostless_url_is_normalized :
  forall L data enc q,
    parse_url L data None enc = Some (Returned q) ->
    in_special (scheme (url q)) = false ->
    hostname (url q) = None ->
    hostless_shape (url q).
Proof. intros L data enc q. apply hostless_result_shape. Qed.

Lemma hostless_url_is_normalized_witness :
  match parse_url ascii_libs (lit "X:/a b/../a b/." ++ [63; 233; 32])
          None None with
  | Some (Returned p) =>
      url p = mkUrl (Some (lit "x")) None None None None
                (Some (lit "%C3%A9")) None [lit "a%20b"; []] false
      /\ hostless_shape (url p)
  | _ => False
  end.
Proof.
  pose proof (hostless_url_is_normalized ascii_libs
                (lit "X:/a b/../a b/." ++ [63; 233; 32]) None
                (match parse_url ascii_libs
                         (lit "X:/a b/../a b/." ++ [63; 233; 32]) None None with
                 | Some (Returned p) => p
                 | _ => UrlParser_init Url_default None []
                 end)) as H.
  assert (E : parse_url ascii_libs (lit "X:/a b/../a b/." ++ [63; 233; 32])
                None None
              = Some (Returned
                        (match parse_url ascii_libs
                                 (lit "X:/a b/../a b/." ++ [63; 233; 32])
                                 None None with
                         | Some (Returned p) => p
                         | _ => UrlParser_init Url_default None []
                         end)))
    by (vm_compute; reflexivity).
  rewrite E. split; [vm_compute; reflexivity|].
  apply H; [exact E | vm_compute; reflexivity | vm_compute; reflexivity].
Defined.

(** ** Preparing the input twice *)

Lemma lstrip_c0_suffix (s : str) : exists pre, s = pre ++ lstrip_c0 s.
Proof.
  induction s as [|x s [pre IH]]; [now exists []|].
  cbn [lstrip_c0]. destruct (_is_c0_control_or_space x).
  - exists (x :: pre). cbn. now rewrite <- IH.
  - now exists [].
Qed.

Lemma rstrip_c0_prefix (s : str) : exists t, s = rstrip_c0 s ++ t.
Proof.
  unfold rstrip_c0. destruct (lstrip_c0_suffix (rev s)) as [pre E].
  exists (rev pre).
  rewrite <- rev_app_distr, <- E. symmetry. apply rev_involutive.
Qed.

Lemma remove_tab_newline_clean (s : str) :
  forallb (fun x => negb (is_tab_or_newline x)) (remove_tab_newline s) = true.
Proof.
  induction s as [|x s IH]; [reflexivity|].
  rewrite remove_tab_newline_cons.
  destruct (is_tab_or_newline x) eqn:E; [exact IH|].
  cbn [forallb]. now rewrite E, IH.
Qed.

Lemma preprocess_head (s : str) :
  match fst (preprocess s) with
  | x :: _ => _is_c0_control_or_space x = false
  | [] => True
  end.
Proof.
  unfold preprocess. cbn [fst].
  pose proof (lstrip_c0_head s) as Hh.
  destruct (rstrip_c0_prefix (lstrip_c0 s)) as [t Et].
  destruct (rstrip_c0 (lstrip_c0 s)) as [|x r]; [exact I|].
  rewrite Et in Hh. cbn [app] in Hh.
  rewrite remove_tab_newline_cons.
  now rewrite (not_space_not_tab x Hh).
Qed.

(** X12: preparing the input is idempotent: what is left after stripping
    C0 controls and spaces from both ends and removing tabs and newlines is
    prepared to itself, with no validation error. *)
Theorem preprocess_is_idempotent :
  forall data : str,
    preprocess (fst (preprocess data)) = (fst (preprocess data), false).
Proof.
  intros data. apply preprocess_id.
  - apply preprocess_head.
  - apply preprocess_last.
  - unfold preprocess. cbn [fst]. apply remove_tab_newline_clean.
Qed.

(** ** The encoding of the query *)

(** X13: the query state ignores the encoding of the parser when the
    scheme is [ws], [wss] or not special: it does what it does with
    UTF-8. *)
Theorem query_of_other_schemes_is_utf8 :
  forall L c r p,
    opt_is (scheme (url p)) "ws" || opt_is (scheme (url p)) "wss"
    || negb (in_special (scheme (url p))) = true ->
    _on_query L c r p = _on_query L c r (set_encoding (lit "utf-8") p).
Proof.
  intros L c r p H. unfold _on_query.
  replace (url (set_encoding (lit "utf-8") p)) with (url p)
    by (destruct p; reflexivity).
  replace (encoding (set_encoding (lit "utf-8") p)) with (lit "utf-8")
    by (destruct p; reflexivity).
  rewrite H, str_eqb_refl. cbn [negb andb]. rewrite andb_true_r.
  destruct (str_eqb (encoding p) (lit "utf-8")) eqn:E; cbn [negb];
    [|reflexivity].
  apply str_eqb_eq in E.
  replace (set_encoding (lit "utf-8") p) with p; [reflexivity|].
  destruct p. cbn in E. now subst.
Qed.

Lemma query_of_other_schemes_is_utf8_witness :
  _on_query ascii_libs (Some 233) []
    (mkParser (mkUrl (Some (lit "ws")) None None None None (Some []) None []
                 false)
       None (lit "latin-1") None false QUERY 0 [] false false false)
  = Normal
      (mkParser (mkUrl (Some (lit "ws")) None None None None
                   (Some (lit "%C3%A9")) None [] false)
         None (lit "utf-8") None false QUERY 0 [] false false false).
Proof.
  rewrite (query_of_other_schemes_is_utf8 ascii_libs (Some 233) []);
    [|reflexivity].
  vm_compute. reflexivity.
Defined.

(** ** Opaque hosts *)

Lemma percent_encode_all_plain : forall (s : str) (S : list codepoint),
  forallb (fun c => negb (mem c S) && (c <=? 0x7e)) s = true ->
  percent_encode_all s S = Some s.
Proof.
  induction s as [|c s IH]; intros S H; [reflexivity|].
  cbn [forallb] in H. apply andb_true_iff in H. destruct H as [Hc H].
  apply andb_true_iff in Hc. destruct Hc as [Hm Hle].
  apply negb_true_iff in Hm. apply Z.leb_le in Hle.
  cbn [percent_encode_all].
  now rewrite (percent_encode_plain c S Hm Hle), (IH S H).
Qed.

(** X14: the host of a scheme that is not special is kept as it is when
    it is made of printable ASCII code points ([!] to [~]) none of which is
    forbidden in a host, [%] apart. *)
Theorem opaque_host_is_kept :
  forall L (host : str),
    forallb (fun c => (0x20 <? c) && (c <=? 0x7e)
                      && ((c =? 37) || negb (mem c FORBIDDEN_HOST_CODE_POINTS)))
      host = true ->
    parse_host L host true = HostOk host.
Proof.
  intros L host H. unfold parse_host.
  assert (Hall : forall c, In c host ->
            0x20 < c <= 0x7e
            /\ (c = 37 \/ mem c FORBIDDEN_HOST_CODE_POINTS = false)).
  { rewrite forallb_forall in H. intros c Hc. specialize (H c Hc).
    apply andb_true_iff in H. destruct H as [H H3].
    apply andb_true_iff in H. destruct H as [H1 H2].
    apply Z.ltb_lt in H1. apply Z.leb_le in H2.
    split; [lia|]. apply orb_true_iff in H3. destruct H3 as [H3|H3].
    - left. now apply Z.eqb_eq.
    - right. now apply negb_true_iff. }
  assert (Hbr : startswith host (lit "[") = false).
  { destruct host as [|x host']; [reflexivity|]. cbn.
    destruct (Hall x (or_introl eq_refl)) as [_ [->|Hm]]; [reflexivity|].
    rewrite (mem_not x 91 _ Hm); [reflexivity|]. apply mem_In. reflexivity. }
  rewrite Hbr.
  assert (Hforb : has_forbidden
                    (filter (fun c => negb (c =? 37)) host) = false).
  { destruct (has_forbidden _) eqn:E; [|reflexivity].
    apply has_forbidden_In in E. destruct E as [c [Hc Hf]].
    apply filter_In in Hc. destruct Hc as [Hc H37].
    apply negb_true_iff, Z.eqb_neq in H37.
    destruct (Hall c Hc) as [_ [->|Hm]]; [contradiction|].
    apply mem_In in Hf. congruence. }
  rewrite Hforb.
  rewrite percent_encode_all_plain; [reflexivity|].
  rewrite forallb_forall. intros c Hc. destruct (Hall c Hc) as [Hr _].
  apply andb_true_iff. split; [|apply Z.leb_le; lia].
  apply negb_true_iff.
  destruct (mem c C0_PERCENT_ENCODE) eqn:E; [|reflexivity].
  apply mem_In in E. unfold C0_PERCENT_ENCODE in E. apply in_map_iff in E.
  destruct E as [k [<- Hk]]. apply in_seq in Hk. lia.
Qed.

Lemma opaque_host_is_kept_witness :
  parse_host ascii_libs (lit "a|b%7E.example") true
  = HostOk (lit "a|b%7E.example").
Proof.
  apply (opaque_host_is_kept ascii_libs (lit "a|b%7E.example")).
  vm_compute. reflexivity.
Defined.

(** ** Using a parser object again *)

(** X15: [parse] starts from [reset]: what a parser object did before
    does not matter, only its URL record and its base do. *)
Theorem parse_forgets_earlier_parses :
  forall L p p' data enc override,
    url p = url p' -> base p = base p' ->
    parse L p data enc override = parse L p' data enc override.
Proof.
  intros L p p' data enc override Hu Hb. unfold parse.
  replace (parse_start p' data enc override)
    with (parse_start p data enc override); [reflexivity|].
  unfold parse_start, reset. cbn [url base]. now rewrite Hu, Hb.
Qed.

Lemma parse_forgets_earlier_parses_witness :
  parse ascii_libs
    (mkParser Url_default None (lit "latin-1") (Some FRAGMENT) true QUERY 7
       (lit "left over") true true true)
    (lit "a:b") None None
  = parse_url ascii_libs (lit "a:b") None None.
Proof.
  apply (parse_forgets_earlier_parses ascii_libs); reflexivity.
Defined.

(** ** The host in the serialization *)

(** X16: the serialization of a URL with a host and without credentials
    is the scheme, [://], the [host] property (the host name, and the port
    after a colon when there is one), the path, the query after [?] and the
    fragment after [#]. *)
Theorem href_shows_host :
  forall (u : Url) (hn pth : str),
    hostname u = Some hn ->
    includes_credentials u = false ->
    path u = Some pth ->
    exists hs,
      host u = Some hs
      /\ href u = Some (fmt_opt (scheme u) ++ lit "://" ++ hs ++ pth
                          ++ query_text (query u) ++ fragment_text (fragment u)).
Proof.
  intros u hn pth Hh Hc Hp. unfold host, href. rewrite Hh, Hc, Hp.
  cbn [fmt_opt]. change (lit "://") with [58; 47; 47].
  change (lit ":") with [58]. change (lit "//") with [47; 47].
  change (lit "?") with [63]. change (lit "#") with [35].
  destruct (port u) as [n|]; eexists; (split; [reflexivity|]);
    destruct (query u) as [q|], (fragment u) as [f|];
    cbn [query_text fragment_text app concat];
    rewrite ?app_nil_r, <- ?app_assoc; cbn [app]; reflexivity.
Qed.

Lemma href_shows_host_witness :
  host (mkUrl (Some (lit "http")) (Some (lit "h")) (Some 81) None None None
          (Some (lit "f")) [lit "p"] false)
  = Some (lit "h:81")
  /\ href (mkUrl (Some (lit "http")) (Some (lit "h")) (Some 81) None None None
             (Some (lit "f")) [lit "p"] false)
     = Some (lit "http://h:81/p#f").
Proof.
  destruct (href_shows_host
              (mkUrl (Some (lit "http")) (Some (lit "h")) (Some 81) None None
                 None (Some (lit "f")) [lit "p"] false)
              (lit "h") (lit "/p") eq_refl eq_refl eq_refl) as [hs [H1 H2]].
  split.
  - vm_compute. reflexivity.
  - rewrite H2. vm_compute in H1. injection H1 as <-. vm_compute. reflexivity.
Defined.

(** ** The table of hexadecimal escapes *)

(** X17: [_HEX_CHAR_MAP] agrees with [percent_decode]: the byte that the
    table gives for two hexadecimal digits is what the decoder makes of [%]
    followed by them; the table has an entry for each of the 22 * 22 pairs
    of digits. *)
Theorem hex_char_map_agrees_with_decoder :
  length _HEX_CHAR_MAP = 484%nat
  /\ forall k v, In (k, v) _HEX_CHAR_MAP -> percent_decode (37 :: k) = v.
Proof.
  split; [reflexivity|].
  assert (H : forallb (fun kv => str_eqb (percent_decode (37 :: fst kv)) (snd kv))
                _HEX_CHAR_MAP = true) by (vm_compute; reflexivity).
  rewrite forallb_forall in H. intros k v Hin.
  specialize (H (k, v) Hin). cbn [fst snd] in H. now apply str_eqb_eq.
Qed.

Lemma hex_char_map_agrees_with_decoder_witness :
  In (lit "fF", [255]) _HEX_CHAR_MAP
  /\ percent_decode (37 :: lit "fF") = [255].
Proof.
  assert (Hin : In (lit "fF", [255]) _HEX_CHAR_MAP).
  { change (lit "fF", [255]) with (nth 351 _HEX_CHAR_MAP ([], [])).
    apply nth_In. apply Nat.ltb_lt. vm_compute. reflexivity. }
  split; [exact Hin|].
  exact (proj2 hex_char_map_agrees_with_decoder (lit "fF") [255] Hin).
Defined.

(** ** The empty reference *)

(** X18: against a base that can be a base and is not a [file] URL, an
    input that is empty once prepared gives the base without its
    fragment. *)
Theorem empty_reference_is_the_base :
  forall L (data : str) (b : Url) enc,
    fst (preprocess data) = [] ->
    cannot_be_base_url b = false ->
    opt_is (scheme b) "file" = false ->
    exists p,
      parse_url L data (Some b) enc = Some (Returned p)
      /\ url p = with_fragment None b.
Proof.
  intros L data b enc Hd Hcb Hf.
  set (enc' := match enc with Some e => e | None => lit "utf-8" end).
  set (ve := snd (preprocess data)).
  set (u := with_fragment None b).
  set (p1 := mkParser u (Some b) enc' None ve RELATIVE 1 [] false false false).
  exists p1. split; [|reflexivity].
  unfold parse_url. apply parse_ends.
  assert (Hs : parse_start (UrlParser_init Url_default (Some b) (lit "utf-8"))
                 data enc None
               = ([], mkParser Url_default (Some b) enc' None ve SCHEME_START 0
                        [] false false false)).
  { unfold parse_start. destruct (preprocess data) as [d e] eqn:E.
    cbn [fst] in Hd. subst d. subst ve. cbn [snd].
    destruct e; reflexivity. }
  rewrite Hs. cbn [fst snd].
  apply ends_start; [reflexivity|].
  apply ends_eof; [reflexivity|].
  cbn [_state handler]. unfold _on_scheme_start.
  cbn [cin overridden state_override negb ends_after].
  apply ends_eof; [reflexivity|].
  cbn [move set_state set_pointer _state _pointer handler].
  unfold _on_no_scheme. cbn [base]. rewrite Hcb, Hf. cbn [andb negb ends_after].
  apply ends_eof; [reflexivity|].
  cbn [move set_state set_pointer _state _pointer handler].
  unfold _on_relative. cbn [base].
  change (is_c None "") with true. cbv iota. cbn [ends_after].
  apply ends_exit; [cbn; lia|].
  f_equal. subst p1 u. destruct b. cbn in Hcb. subst. reflexivity.
Qed.

Lemma empty_reference_is_the_base_witness :
  exists p,
    parse_url ascii_libs [32; 10]
      (Some (mkUrl (Some (lit "http")) (Some (lit "h")) None None None
               (Some (lit "q")) (Some (lit "f")) [lit "p"] false)) None
    = Some (Returned p)
    /\ url p = mkUrl (Some (lit "http")) (Some (lit "h")) None None None
                 (Some (lit "q")) None [lit "p"] false.
Proof.
  apply (empty_reference_is_the_base ascii_libs [32; 10]
           (mkUrl (Some (lit "http")) (Some (lit "h")) None None None
              (Some (lit "q")) (Some (lit "f")) [lit "p"] false) None);
    reflexivity.
Defined.

(** ** A reference that is only a fragment *)

Lemma fragment_step L c r p :
  _state p = FRAGMENT ->
  match handler L (_state p) c r p with
  | Normal p' => _state p' = FRAGMENT /\ _pointer p' = _pointer p
  | PyError => True
  | _ => False
  end.
Proof.
  intros Hst. rewrite Hst. cbn [handler]. unfold _on_fragment.
  destruct p as [u b enc so ve st ptr buf af sq pw];
    destruct u as [sc ho po us pa qu fr pt cb].
  cbn in Hst. subst.
  destruct c as [x|]; [|cbn; auto].
  destruct (x =? 0); [cbn; auto|].
  unfold flag_error_if.
  destruct (_ && negb (TWO_ASCII_HEX r)), (negb _ && _); unfold_updates; proj;
    (destruct fr; [|exact I]);
    unfold or_raise; destruct (percent_encode _ _); cbn; auto.
Qed.

(** In the fragment state the loops hand every code point that is left to
    the handler, whatever the scheme. *)
Lemma ends_feed_fragment L data : forall rest p,
  _state p = FRAGMENT ->
  0 <= _pointer p ->
  skipn (Z.to_nat (_pointer p)) data = rest ->
  (_pointer p <= Z.of_nat (length data)) ->
  ends L data InnerTest p (feed L rest p).
Proof.
  set (n := Z.of_nat (length data)).
  induction rest as [|x rest IH]; intros p Hok Hp Hs Hn.
  - assert (Hpn : _pointer p = n).
    { destruct (Z_lt_ge_dec (_pointer p) n) as [Hlt|Hge]; [|lia].
      exfalso. assert (H : (length (skipn (Z.to_nat (_pointer p)) data) > 0)%nat)
        by (rewrite length_skipn; unfold n in Hlt; lia).
      rewrite Hs in H. cbn in H. lia. }
    apply (ends_eof L data p _ Hpn).
    cbn [feed]. pose proof (fragment_step L None [] p Hok) as Hstep.
    destruct (handler L (_state p) None [] p) as [p'| | |]; try contradiction;
      cbn [ends_after leaves]; [|reflexivity].
    destruct Hstep as [_ Hptr].
    assert (Hq : _pointer (move 1 p') = n + 1) by (destruct p'; cbn in *; lia).
    apply ends_exit; [fold n; lia | reflexivity].
  - apply (ends_char L data p x rest _ Hp Hs).
    cbn [feed]. pose proof (fragment_step L (Some x) rest p Hok) as Hstep.
    destruct (handler L (_state p) (Some x) rest p) as [p'| | |];
      try contradiction; cbn [ends_after leaves]; [|reflexivity].
    destruct Hstep as [Hok' Hptr].
    destruct (py_index_skipn data (_pointer p) x rest Hp Hs) as [Hi [Hsl Hlt]].
    fold n in Hlt.
    assert (Hq : _pointer (move 1 p') = _pointer p + 1)
      by (destruct p'; cbn in *; lia).
    apply IH.
    + destruct p'; exact Hok'.
    + lia.
    + rewrite Hq. replace (Z.to_nat (_pointer p + 1))
        with (S (Z.to_nat (_pointer p))) by lia.
      destruct (skipn_cons_inv _ _ _ _ Hs) as [_ [H _]]. exact H.
    + rewrite Hq. fold n. lia.
Qed.

(** X19: a reference that is [#] followed by code points which the
    fragment keeps as they are, against a base that cannot be a base or
    whose scheme is not [file], gives the base with these code points as
    its fragment; of a base that cannot be a base only the scheme, the path
    and the query are taken. *)
Theorem fragment_reference_keeps_the_base :
  forall L (data : str) (b : Url) enc (fs : str),
    fst (preprocess data) = 35 :: fs ->
    forallb fragment_char fs = true ->
    cannot_be_base_url b = true \/ opt_is (scheme b) "file" = false ->
    exists p,
      parse_url L data (Some b) enc = Some (Returned p)
      /\ url p = if cannot_be_base_url b
                 then mkUrl (scheme b) None None None None (query b) (Some fs)
                        (_path b) true
                 else with_fragment (Some fs) b.
Proof.
  intros L data b enc fs Hd Hfs Hb.
  set (enc' := match enc with Some e => e | None => lit "utf-8" end).
  set (ve := snd (preprocess data)).
  set (u := if cannot_be_base_url b
            then mkUrl (scheme b) None None None None (query b) (Some fs)
                   (_path b) true
            else with_fragment (Some fs) b).
  assert (Hs : parse_start (UrlParser_init Url_default (Some b) (lit "utf-8"))
                 data enc None
               = (35 :: fs,
                  mkParser Url_default (Some b) enc' None ve SCHEME_START 0
                    [] false false false)).
  { unfold parse_start. destruct (preprocess data) as [d e] eqn:E.
    cbn [fst] in Hd. subst d. subst ve. cbn [snd].
    destruct e; reflexivity. }
  assert (Hr : exists r, ends L (35 :: fs) OuterTest
                 (mkParser Url_default (Some b) enc' None ve SCHEME_START 0
                    [] false false false) r /\ returns r u).
  { destruct (cannot_be_base_url b) eqn:Hcb.
    - set (p2 := mkParser
                   (mkUrl (scheme b) None None None None (query b) (Some [])
                      (_path b) true)
                   (Some b) enc' None ve FRAGMENT 1 [] false false false).
      exists (feed L fs p2). split.
      + apply ends_start; [reflexivity|].
        apply (ends_char L (35 :: fs) _ 35 fs); [cbn; lia | reflexivity |].
        cbn [_state handler]. unfold _on_scheme_start.
        change (cin (Some 35) ASCII_ALPHA) with false.
        cbn [overridden state_override negb ends_after andb].
        cbv iota. cbn [ends_after].
        apply (ends_char L (35 :: fs) _ 35 fs); [cbn; lia | reflexivity |].
        cbn [move set_state set_pointer _state _pointer handler].
        unfold _on_no_scheme. cbn [base]. rewrite Hcb.
        change (is_c (Some 35) "#") with true. cbn [andb negb]. cbv iota.
        cbn [ends_after].
        apply (ends_feed_fragment L (35 :: fs) fs); [reflexivity| cbn; lia
          | reflexivity | subst p2; cbn [_pointer length]; lia].
      + subst u. apply (feed_fragment_chars L fs []);
          [reflexivity | reflexivity | exact Hfs].
    - destruct Hb as [Hb|Hf]; [discriminate|].
      set (p2 := mkParser (with_fragment (Some []) b)
                   (Some b) enc' None ve FRAGMENT 1 [] false false false).
      exists (feed L fs p2). split.
      + apply ends_start; [reflexivity|].
        apply (ends_char L (35 :: fs) _ 35 fs); [cbn; lia | reflexivity |].
        cbn [_state handler]. unfold _on_scheme_start.
        change (cin (Some 35) ASCII_ALPHA) with false.
        cbn [overridden state_override negb ends_after andb].
        cbv iota. cbn [ends_after].
        apply (ends_char L (35 :: fs) _ 35 fs); [cbn; lia | reflexivity |].
        cbn [move set_state set_pointer _state _pointer handler].
        unfold _on_no_scheme. cbn [base]. rewrite Hcb, Hf.
        cbn [andb negb]. cbv iota. cbn [ends_after].
        apply (ends_char L (35 :: fs) _ 35 fs); [cbn; lia | reflexivity |].
        cbn [move set_state set_pointer _state _pointer handler].
        unfold _on_relative. cbn [base].
        change (is_c (Some 35) "") with false.
        change (is_c (Some 35) "/") with false.
        change (is_c (Some 35) "?") with false.
        change (is_c (Some 35) "#") with true. cbv iota. cbn [ends_after].
        match goal with |- ends _ _ _ ?q _ =>
          replace q with p2 by (subst p2; destruct b; cbn in Hcb; subst; reflexivity)
        end.
        apply (ends_feed_fragment L (35 :: fs) fs); [reflexivity| cbn; lia
          | reflexivity | subst p2; cbn [_pointer length]; lia].
      + subst u. destruct b as [sc ho po us pw qu fr pt cb].
        apply (feed_fragment_chars L fs []);
          [reflexivity | reflexivity | exact Hfs]. }
  destruct Hr as [r [He Hret]].
  destruct (returns_result r u Hret) as [q [-> Hq]].
  exists q. split; [|exact Hq].
  unfold parse_url. apply parse_ends. rewrite Hs. exact He.
Qed.

Lemma fragment_reference_keeps_the_base_witness :
  exists p,
    parse_url ascii_libs (lit " #top")
      (Some (mkUrl (Some (lit "http")) (Some (lit "h")) None None None
               (Some (lit "q")) (Some (lit "f")) [lit "p"] false)) None
    = Some (Returned p)
    /\ url p = mkUrl (Some (lit "http")) (Some (lit "h")) None None None
                 (Some (lit "q")) (Some (lit "top")) [lit "p"] false.
Proof.
  apply (fragment_reference_keeps_the_base ascii_libs (lit " #top")
           (mkUrl (Some (lit "http")) (Some (lit "h")) None None None
              (Some (lit "q")) (Some (lit "f")) [lit "p"] false) None
           (lit "top")); [reflexivity | reflexivity | right; reflexivity].
Defined.

(** ** A [file] URL has no credentials and no port *)

Lemma shorten_url_path_userinfo u : same_userinfo u (shorten_url_path u).
Proof.
  destruct u. unfold shorten_url_path, same_userinfo; unfold_updates; proj.
  repeat (brk; proj); tauto.
Qed.

Lemma path_drive_letter_userinfo p :
  same_userinfo (url p) (url (path_drive_letter p)).
Proof.
  destruct p as [u b enc so ve st ptr buf af sq pw]; destruct u.
  unfold path_drive_letter, same_userinfo; unfold_updates; proj.
  repeat (brk; proj); tauto.
Qed.

Lemma path_flush_userinfo slash p :
  same_userinfo (url p) (url (path_flush slash p)).
Proof.
  unfold path_flush.
  pose proof (path_drive_letter_userinfo p) as Hd.
  destruct (path_drive_letter p) as [u' b' enc' so' ve' st' ptr' buf' af' sq' pw'].
  destruct p as [u b enc so ve st ptr buf af sq pw].
  proj.
  pose proof (shorten_url_path_userinfo u) as Hs.
  unfold_updates; proj.
  destruct (shorten_url_path u), u, u'.
  unfold same_userinfo in *; proj.
  repeat (brk; proj); tauto.
Qed.

Lemma path_trim_file_userinfo c p :
  same_userinfo (url p) (url (path_trim_file c p)).
Proof.
  destruct p as [u b enc so ve st ptr buf af sq pw]; destruct u.
  unfold path_trim_file, same_userinfo; unfold_updates; proj.
  repeat (brk; proj); tauto.
Qed.

Lemma on_path_file_inv c r p q :
  _state p = PATH ->
  file_inv p ->
  result_of (_on_path c r p) = Some q ->
  file_inv q.
Proof.
  intros Hst Hinv H.
  assert (Hq : (scheme (url q) = scheme (url p) /\ port (url q) = port (url p)
                /\ username (url q) = username (url p)
                /\ password (url q) = password (url p))
               /\ state_override q = state_override p
               /\ (_state q = PATH \/ _state q = QUERY \/ _state q = FRAGMENT)).
  { unfold _on_path in H.
    repeat match type of H with
    | context [if ?b then _ else _] => destruct b eqn:?
    end.
    all: try (destruct c; [|discriminate H]; unfold or_raise in H;
              destruct (percent_encode _ _); [|discriminate H]).
    all: cbn [result_of] in H; inv_signal.
    all: try match goal with
      |- context [path_trim_file ?c ?x] =>
        pose proof (path_trim_file_control c x);
        pose proof (path_trim_file_url c x) as [? _];
        pose proof (path_trim_file_userinfo c x);
        destruct (path_trim_file c x);
        match goal with
        | H : context [path_flush ?s ?y] |- _ =>
            pose proof (path_flush_control s y);
            pose proof (path_flush_url s y);
            pose proof (path_flush_userinfo s y);
            destruct (path_flush s y)
        end
      end.
    all: destruct p as [u b enc so ve st ptr buf af sq pw];
      unfold same_control, same_scheme_port, same_userinfo in *;
      unfold_updates; proj; subst.
    all: repeat (brk; proj); split_ands; subst; proj;
      repeat match goal with u : Url |- _ => destruct u end; proj;
      subst; repeat split; try congruence; try discriminate; auto. }
  destruct Hq as [[Hs [Hp [Hu Hw]]] [Ho Hstq]].
  destruct Hinv as [I1 [_ [_ [_ I5]]]].
  unfold file_inv, bare. rewrite Ho, Hs, Hp, Hu, Hw.
  split; [exact I1|].
  destruct Hstq as [E|[E|E]]; rewrite E; cbn [fresh_state authority_route];
    repeat split; try discriminate; try (intros [?|?]; discriminate);
    try apply I5; auto.
Qed.

Lemma handler_file_inv L c r p q :
  file_inv p ->
  result_of (handler L (_state p) c r p) = Some q ->
  file_inv q.
Proof.
  intros Hinv H.
  destruct (_state p) eqn:Hst; cbn [handler] in H.
  18: exact (on_path_file_inv c r p q Hst Hinv H).
  all: destruct p as [u b enc so ve st ptr buf af sq pw]; destruct u;
    unfold_handlers; unfold_updates; proj; subst.
  all: repeat (brk_in H; proj); cbn [result_of] in H; try inv_signal; proj.
  all: try match goal with
    | H : authority_loop _ _ = Some ?q |- _ =>
        pose proof (authority_loop_control _ _ _ H) as Hc;
        apply authority_loop_url in H; unfold same_control in Hc;
        unfold same_scheme_port in H; proj; split_ands
    end.
  all: repeat match goal with u : Url |- _ => destruct u end; proj.
  all: try match goal with
    | |- context [shorten_url_path ?u] =>
        destruct (shorten_url_path_scheme_port u) as [[Hs [Hp [Hq [Hf Hcb]]]] _];
        destruct (shorten_url_path_userinfo u) as [Hu Hw];
        destruct (shorten_url_path u); proj
    end.
  all: unfold file_inv, bare in *; proj; split_ands; subst;
    cbn [fresh_state authority_route] in *.
  all: repeat match goal with
    | H : ?a = ?a -> _ |- _ => specialize (H eq_refl)
    end.
  all: repeat match goal with |- _ /\ _ => split end; intros;
    try discriminate; try assumption; try reflexivity; try congruence.
  all: repeat match goal with
    | H : ?a = ?a \/ _ -> _ |- _ => specialize (H (or_introl eq_refl))
    | H : _ \/ ?a = ?a -> _ |- _ => specialize (H (or_intror eq_refl))
    | H : Some _ = Some _ |- _ => injection H as H; subst
    | H : negb _ = true |- _ => apply negb_true_iff in H
    | H : negb _ = false |- _ => apply negb_false_iff in H
    | H : _ \/ _ |- _ => destruct H
    end; try discriminate; try congruence; try tauto; try (eauto; fail).
  all: split_ands; try discriminate; try congruence; try tauto.
  all: try match goal with
    | H : opt_str_eqb _ _ = true |- _ =>
        apply opt_str_eqb_eq in H; subst; proj; assumption
    end.
  all: repeat match goal with
    | H : forall b : Url, Some ?x = Some b -> _ |- _ =>
        specialize (H _ eq_refl); proj
    end; try congruence.
Qed.

Lemma file_inv_move p : file_inv p -> file_inv (move 1 p).
Proof. destruct p. exact (fun H => H). Qed.

Lemma file_inv_start b enc ve :
  file_inv (mkParser Url_default b enc None ve SCHEME_START 0 [] false false
              false).
Proof.
  unfold file_inv, bare; proj. cbn [fresh_state authority_route].
  repeat split; try reflexivity; try discriminate.
  intros [H|H]; discriminate.
Qed.

(** X20: a URL with the scheme [file] that [parse] returns has no port
    and no credentials, whatever the input and whatever the base, also a
    base that has them. *)
Theorem file_url_has_no_port_or_credentials :
  forall L data b enc p,
    parse_url L data b enc = Some (Returned p) ->
    opt_is (scheme (url p)) "file" = true ->
    port (url p) = None /\ includes_credentials (url p) = false.
Proof.
  intros L data b enc p H Hf. unfold parse_url in H. apply parse_ends in H.
  pose proof (parse_url_start_with b data enc) as Hs.
  rewrite Hs in H.
  apply (ends_invariant L _ file_inv) in H.
  - destruct H as [_ [_ [_ [_ H]]]]. destruct (H Hf) as [Hp [Hu Hw]].
    split; [exact Hp|]. unfold includes_credentials. now rewrite Hu, Hw.
  - apply file_inv_move.
  - intros c r p0 q. apply handler_file_inv.
  - apply file_inv_start.
Qed.

Lemma file_url_has_no_port_or_credentials_witness :
  match parse_url ascii_libs (lit "x")
          (Some (mkUrl (Some (lit "file")) (Some (lit "h")) (Some 8080)
                   (Some (lit "u")) None None None [lit "p"] false)) None with
  | Some (Returned p) =>
      url p = mkUrl (Some (lit "file")) (Some (lit "h")) None None None None
                None [lit "p"] false
      /\ port (url p) = None /\ includes_credentials (url p) = false
  | _ => False
  end.
Proof.
  pose (r := parse_url ascii_libs (lit "x")
          (Some (mkUrl (Some (lit "file")) (Some (lit "h")) (Some 8080)
                   (Some (lit "u")) None None None [lit "p"] false)) None).
  pose (q := match r with
             | Some (Returned p) => p
             | _ => UrlParser_init Url_default None []
             end).
  assert (E : r = Some (Returned q)) by (vm_compute; reflexivity).
  change (match r with
          | Some (Returned p) =>
              url p = mkUrl (Some (lit "file")) (Some (lit "h")) None None None
                        None None [lit "p"] false
              /\ port (url p) = None /\ includes_credentials (url p) = false
          | _ => False
          end).
  rewrite E. split; [vm_compute; reflexivity|].
  apply (file_url_has_no_port_or_credentials ascii_libs (lit "x")
           (Some (mkUrl (Some (lit "file")) (Some (lit "h")) (Some 8080)
                    (Some (lit "u")) None None None [lit "p"] false)) None q).
  - exact E.
  - vm_compute. reflexivity.
Defined.

(** ** The labels of a domain *)

Lemma to_ascii_list_labels L : forall labels result,
  to_ascii_list L labels = Some (Some result) ->
  Forall2 (fun l r : str => ToASCII L l = Some r /\ r <> []) labels result.
Proof.
  induction labels as [|l labels IH]; intros result H; cbn [to_ascii_list] in H.
  - injection H as <-. constructor.
  - destruct (ToASCII L l) as [[|x s]|] eqn:E; try discriminate.
    destruct (to_ascii_list L labels) as [[r|]|]; try discriminate.
    injection H as <-. constructor; [|now apply IH].
    split; [exact E | discriminate].
Qed.

Lemma join_nonempty (sep : str) (parts : list str) :
  parts <> [] -> hd [] parts <> [] -> join sep parts <> [].
Proof.
  destruct parts as [|[|x l] rest]; cbn [hd]; try congruence.
  intros _ _. cbn [join]. destruct rest; discriminate.
Qed.

(** X21: the host that [domain_to_ascii] returns is made of what [ToASCII]
    gave for the labels of the remapped domain, in their order and joined
    by dots: there is at least one label, [ToASCII] gave no empty result,
    and the empty label after a trailing dot of the domain, and only that
    one, is not handed to [ToASCII] but kept as the trailing dot.  So the
    result is never empty. *)
Theorem domain_to_ascii_has_no_empty_label :
  forall L (domain s : str),
    domain_to_ascii L domain = IdnaOk s ->
    exists (d : str) (labels results : list str) (dot : bool),
      uts46_remap L domain = Some d
      /\ split_on IDNA_DOTS d = labels ++ (if dot then [[]] else [])
      /\ labels <> []
      /\ (dot = false -> last labels [0] <> [])
      /\ Forall2 (fun l r : str => ToASCII L l = Some r /\ r <> [])
           labels results
      /\ s = join [46] (results ++ (if dot then [[]] else []))
      /\ s <> [].
Proof.
  intros L domain s H. unfold domain_to_ascii in H.
  destruct (uts46_remap L domain) as [d|]; [|discriminate].
  remember (split_on IDNA_DOTS d) as labels eqn:El.
  destruct (match labels with [] => true | [l] => str_eqb l [] | _ => false end)
    eqn:Echeck; [discriminate|].
  cbv zeta in H.
  assert (Hne : labels <> []) by (intros ->; discriminate Echeck).
  destruct (str_eqb (last labels [0]) []) eqn:Edot.
  - destruct (to_ascii_list L (removelast labels)) as [[result|]|] eqn:Et;
      try discriminate.
    pose proof (to_ascii_list_labels L _ result Et) as Hall.
    injection H as <-.
    assert (Hkept : removelast labels <> []).
    { destruct labels as [|l [|l' rest]]; try discriminate.
      cbn [last] in Edot. now rewrite Edot in Echeck. }
    exists d, (removelast labels), result, true. rewrite <- El.
    repeat split; try assumption; try discriminate.
    + apply str_eqb_eq in Edot.
      etransitivity; [exact (app_removelast_last [0] Hne)|].
      f_equal. f_equal. exact Edot.
    + apply join_nonempty.
      * destruct result; discriminate.
      * inversion Hall as [|l r ls rs [_ Hr] Hrest E1 E2]; subst;
          [congruence | exact Hr].
  - destruct (to_ascii_list L labels) as [[result|]|] eqn:Et;
      try discriminate.
    pose proof (to_ascii_list_labels L _ result Et) as Hall.
    injection H as <-.
    exists d, labels, result, false. rewrite <- El.
    rewrite !app_nil_r.
    repeat split; try assumption.
    + intros _ E. rewrite E in Edot. discriminate Edot.
    + apply join_nonempty.
      * inversion Hall; subst; [congruence | discriminate].
      * inversion Hall as [|l r ls rs [_ Hr] Hrest E1 E2]; subst;
          [congruence | exact Hr].
Qed.

Lemma domain_to_ascii_has_no_empty_label_witness :
  exists (d : str) (labels results : list str) (dot : bool),
    uts46_remap ascii_libs (lit "A.b.") = Some d
    /\ split_on IDNA_DOTS d = labels ++ (if dot then [[]] else [])
    /\ labels <> []
    /\ (dot = false -> last labels [0] <> [])
    /\ Forall2 (fun l r : str => ToASCII ascii_libs l = Some r /\ r <> [])
         labels results
    /\ lit "a.b." = join [46] (results ++ (if dot then [[]] else []))
    /\ lit "a.b." <> [].
Proof.
  apply (domain_to_ascii_has_no_empty_label ascii_libs (lit "A.b.")
           (lit "a.b.")).
  vm_compute. reflexivity.
Defined.
